(** * Decoder supervision and pipeline orchestration (app.py)

    A shallow embedding of the decoder side of the Shoutcast web interface:
    the backend launchers ([_start_vlc_player], [_start_ffmpeg_pipeline],
    [_start_decoder_process]), the supervisor loop, the start/stop/status
    endpoints, the relay pump and the capture level meter.

    Python values are modelled as follows.
    - [int] is [Z].
    - [float] is IEEE 754 binary64, computed bit for bit with the
      executable operations of [SpecFloat] (precision 53, emax 1024).
    - [bytes] is [list byte]; [str] is [string].
    - module globals and the operating system's process table form the
      record [world]; code that reads or writes them runs in the monad [M],
      which threads the world and propagates raised exceptions. *)

From Stdlib Require Import ZArith List Bool String Ascii Lia.
From Stdlib Require Import DecimalString.
From Stdlib Require Import Strings.Byte.
From Stdlib Require Import Floats.SpecFloat.
Import ListNotations.
Open Scope Z_scope.

(* ===================================================================== *)
(** * Part I: definitions                                                 *)
(* ===================================================================== *)

(** ** Python floats *)

Definition prec64 : Z := 53.
Definition emax64 : Z := 1024.

Definition float := spec_float.

(** [float(z)]: the nearest double, ties to even.  Where Python raises
    [OverflowError] (|z| beyond the double range) the model yields an
    infinity, on which [int_of_float] in turn raises. *)
Definition float_of_int (z : Z) : float := binary_normalize prec64 emax64 z 0 false.

Definition fmul : float -> float -> float := SFmul prec64 emax64.
Definition fdiv : float -> float -> float := SFdiv prec64 emax64.
Definition fsqrt : float -> float := SFsqrt prec64 emax64.
Definition flt : float -> float -> bool := SFltb.
Definition fle : float -> float -> bool := SFleb.

(** The decimal literal [n / 10^k], e.g. [lit 256 2] for [2.56]: a literal
    denotes the double nearest to its decimal value, which is what the
    correctly rounded quotient of the two exactly representable integers
    gives. *)
Definition lit (n k : Z) : float := fdiv (float_of_int n) (float_of_int (10 ^ k)).

(** [min(a, b)] and [max(a, b)] on floats: Python keeps the first argument
    unless the second is strictly smaller (resp. larger). *)
Definition py_min (a b : float) : float := if flt b a then b else a.
Definition py_max (a b : float) : float := if flt a b then b else a.

(** [int(x)]: truncation toward zero; raises on infinities and NaN. *)
Definition int_of_float (x : float) : option Z :=
  match x with
  | S754_zero _ => Some 0
  | S754_finite s m e =>
      let mag := match e with
                 | Zneg p => Z.shiftr (Zpos m) (Zpos p)
                 | _ => Z.shiftl (Zpos m) e
                 end in
      Some (if s then - mag else mag)
  | _ => None
  end.

(** [a / b] on two ints: the correctly rounded quotient, whatever the size
    of the operands; [ZeroDivisionError] is [None]. *)
Definition int_truediv (a b : Z) : option float :=
  match a, b with
  | _, Z0 => None
  | Z0, _ => Some (S754_zero (b <? 0))
  | Zpos p, Zpos q => Some (fdiv (S754_finite false p 0) (S754_finite false q 0))
  | Zpos p, Zneg q => Some (fdiv (S754_finite false p 0) (S754_finite true q 0))
  | Zneg p, Zpos q => Some (fdiv (S754_finite true p 0) (S754_finite false q 0))
  | Zneg p, Zneg q => Some (fdiv (S754_finite true p 0) (S754_finite true q 0))
  end.

(** [x ** 0.5]: the platform's [pow(x, 0.5)], modelled as the correctly
    rounded square root.  The two agree where the root is a double (at 0.0
    and at the square of a 16-bit sample, the values the statements below
    compute with); elsewhere [pow] may be one unit in the last place away,
    and the statements use no more of the value than that it is neither
    negative nor a NaN. *)
Definition pow_half (x : float) : float := fsqrt x.

(** [str(z)] *)
Definition str (z : Z) : string := NilZero.string_of_int (Z.to_int z).

(** The float literals of the source. *)
Definition f0_0 : float := S754_zero false.
Definition f1_0 : float := Eval vm_compute in lit 10 1.
Definition f1_5 : float := Eval vm_compute in lit 15 1.
Definition f2_0 : float := Eval vm_compute in lit 20 1.
Definition f2_56 : float := Eval vm_compute in lit 256 2.
Definition f5_0 : float := Eval vm_compute in lit 50 1.
Definition f10_0 : float := Eval vm_compute in lit 100 1.
Definition f0_5 : float := Eval vm_compute in lit 5 1.
Definition f0_1 : float := Eval vm_compute in lit 1 1.
Definition f0_15 : float := Eval vm_compute in lit 15 2.
Definition f0_001 : float := Eval vm_compute in lit 1 3.
Definition f0_005 : float := Eval vm_compute in lit 5 3.
Definition f0_01 : float := Eval vm_compute in lit 1 2.
Definition f1000_0 : float := Eval vm_compute in lit 10000 1.
Definition f32768_0 : float := Eval vm_compute in lit 327680 1.

(** ** Parameter translation of the launchers *)

(** [_start_vlc_player] and the inline cvlc fallback of [api_decoder_start]:
    [vlc_volume = int(volume * 2.56)]. *)
Definition vlc_volume (volume : Z) : option Z :=
  int_of_float (fmul (float_of_int volume) f2_56).

(** [_start_decoder_process] and the piping fallback of [api_decoder_start]:
    [mpg123_buffer_bytes = buffer_secs * 44100 * 2 * 2] followed by
    [max(4096, min(1048576, mpg123_buffer_bytes))]. *)
Definition mpg123_buffer_bytes (buffer_secs : Z) : Z :=
  Z.max 4096 (Z.min 1048576 (buffer_secs * 44100 * 2 * 2)).

(** The command line of the mpg123 leg that writes PCM to its stdout. *)
Definition mpg123_stdout_cmd (mpg123_path : string) (buffer_secs : Z) (stream_url : string)
  : list string :=
  [mpg123_path; "-q"; "-s"; "-b"; str (mpg123_buffer_bytes buffer_secs); stream_url]%string.

(** *** Specification-side definitions, following the spec's words *)

(** [clamp(x, lo, hi)] *)
Definition clamp (x lo hi : Z) : Z := Z.min (Z.max x lo) hi.

(** [round(x)] on a float: nearest integer, ties to even. *)
Definition py_round (x : float) : option Z :=
  match x with
  | S754_zero _ => Some 0
  | S754_finite s m e =>
      let mag :=
        match e with
        | Zneg p =>
            let q := Z.shiftr (Zpos m) (Zpos p) in
            let r := Z.land (Zpos m) (Z.ones (Zpos p)) in
            let half := Z.shiftl 1 (Zpos p - 1) in
            if (half <? r) || ((r =? half) && Z.odd q) then q + 1 else q
        | _ => Z.shiftl (Zpos m) e
        end in
      Some (if s then - mag else mag)
  | _ => None
  end.

(** The native volume as the spec words it: [round(volume * 2.56)]. *)
Definition native_volume_spec (volume : Z) : option Z :=
  py_round (fmul (float_of_int volume) f2_56).

(** The integers [lo, lo+1, ..., lo+n-1], for checks by enumeration. *)
Definition range_Z (lo : Z) (n : nat) : list Z :=
  map (fun i => lo + Z.of_nat i) (seq 0 n).

(** ** Strings *)

Definition lower_ascii (c : ascii) : ascii :=
  let n := nat_of_ascii c in
  if (Nat.leb 65 n && Nat.leb n 90)%bool then ascii_of_nat (n + 32) else c.

(** [s.lower()] on ASCII text *)
Fixpoint lower (s : string) : string :=
  match s with
  | EmptyString => EmptyString
  | String c r => String (lower_ascii c) (lower r)
  end.

(** [pat in s] *)
Definition contains (pat s : string) : bool :=
  match String.index 0 pat s with Some _ => true | None => false end.

Definition nonempty (s : string) : bool :=
  match s with EmptyString => false | _ => true end.

(** [str(volume / 100.0)] for an int [volume]: the quotient has at most two
    decimals, and the shortest decimal that reads back as the same double
    is that two-decimal numeral with a trailing zero dropped (valid while
    the numeral has fewer than 16 significant digits). *)
Definition str_hundredths (volume : Z) : string :=
  let a := Z.abs volume in
  let ip := a / 100 in
  let fp := a mod 100 in
  let frac := if fp mod 10 =? 0 then str (fp / 10)
              else (str (fp / 10) ++ str (fp mod 10))%string in
  ((if (volume <? 0)%Z then "-" else "") ++ str ip ++ "." ++ frac)%string.

(** ** Processes, events and the world *)

(** The external programs the decoder side spawns. *)
Inductive program := Cvlc | Ffmpeg | Aplay | Mpg123 | Sox.

Definition program_eqb (p q : program) : bool :=
  match p, q with
  | Cvlc, Cvlc | Ffmpeg, Ffmpeg | Aplay, Aplay | Mpg123, Mpg123 | Sox, Sox => true
  | _, _ => false
  end.

Definition program_name (p : program) : string :=
  match p with
  | Cvlc => "cvlc" | Ffmpeg => "ffmpeg" | Aplay => "aplay"
  | Mpg123 => "mpg123" | Sox => "sox"
  end.

(** [shutil.which(name) or '/usr/bin/' + name], taken at its default. *)
Definition program_path (p : program) : string := ("/usr/bin/" ++ program_name p)%string.

(** One entry of the operating system's process table: a [subprocess.Popen]
    handle is the index ([pid]) of its entry, [proc_alive] is
    [poll() is None]. *)
Record process := mkProcess {
  proc_prog : program;
  proc_argv : list string;
  proc_alive : bool
}.

(** The three backend launch functions. *)
Inductive launcher := StartVlc | StartFfmpeg | StartMpg123.

Definition launcher_eqb (f g : launcher) : bool :=
  match f, g with
  | StartVlc, StartVlc | StartFfmpeg, StartFfmpeg | StartMpg123, StartMpg123 => true
  | _, _ => false
  end.

(** What the code does to the outside, newest first in [trace].  [Called]
    and [Returned] log entry to and return from a backend launch function
    with its [volume], [buffer_secs] and [playback_cache_secs] arguments;
    they are bookkeeping of the model, the other events are system calls. *)
Inductive event :=
| Called (f : launcher) (volume buffer_secs playback_cache_secs : Z)
| Returned (f : launcher) (ok : bool)
| Spawned (pid : nat) (p : program) (argv : list string)
| Terminated (pid : nat)
| Pkilled (exact : bool) (pattern : string)
| Slept (d : float)
| PumpStarted (decoder_pid output_pid : nat)
| MeterRestarted (device : string).

(** A JSON value read where the code applies [int(...)]: an integer, or
    something on which [int] raises. *)
Inductive jvalue := JInt (z : Z) | JNotInt.

(** The ['decoder'] entry of the persisted status file. *)
Record decoder_settings := mkSettings {
  st_url : string;
  st_outputDevice : string;
  st_bufferSecs : option jvalue;
  st_playbackCacheSecs : option jvalue
}.

Record levels := mkLevels { left : float; right : float }.

(** Module globals, the status file and the process table. *)
Record world := mkWorld {
  procs : list process;
  decoder_process : option nat;
  decoder_aplay_process : option nat;
  decoder_should_run : bool;
  decoder_current_volume : Z;
  audio_levels : levels;
  status_decoder : decoder_settings;
  trace : list event
}.

(** What the code cannot decide: which executables are installed, whether a
    spawned process is still running when it is first polled, and what the
    device enumeration answers.  A process that [starts_ok] stays alive until
    it is terminated or killed; one that does not has exited before its
    first poll. *)
Record environment := mkEnv {
  exe_exists : program -> bool;
  pkill_exists : bool;
  starts_ok : nat -> bool;
  detected_output : string;
  fallback_output : string
}.

(** ** The monad of effectful code *)

Inductive outcome (A : Type) := Val (a : A) | Raised.
Arguments Val {A} a.
Arguments Raised {A}.

Definition M (A : Type) : Type := world -> outcome A * world.

Definition ret {A} (a : A) : M A := fun w => (Val a, w).
Definition raise {A} : M A := fun w => (Raised, w).

Definition bind {A B} (m : M A) (k : A -> M B) : M B :=
  fun w => match m w with
           | (Val a, w') => k a w'
           | (Raised, w') => (Raised, w')
           end.

(** [try: m except Exception: h] *)
Definition try_except {A} (m : M A) (h : M A) : M A :=
  fun w => match m w with
           | (Val a, w') => (Val a, w')
           | (Raised, w') => h w'
           end.

Notation "x <- m ;; k" := (bind m (fun x => k))
  (at level 61, m at next level, right associativity).
Notation "m ;; k" := (bind m (fun _ => k))
  (at level 61, right associativity).

Definition get {A} (f : world -> A) : M A := fun w => (Val (f w), w).
Definition modify (f : world -> world) : M unit := fun w => (Val tt, f w).

Definition of_option {A} (o : option A) : M A :=
  match o with Some a => ret a | None => raise end.

(** ** Globals and system calls *)

Definition with_procs (ps : list process) (w : world) : world :=
  mkWorld ps (decoder_process w) (decoder_aplay_process w) (decoder_should_run w)
          (decoder_current_volume w) (audio_levels w) (status_decoder w) (trace w).

Definition with_decoder_process (h : option nat) (w : world) : world :=
  mkWorld (procs w) h (decoder_aplay_process w) (decoder_should_run w)
          (decoder_current_volume w) (audio_levels w) (status_decoder w) (trace w).

Definition with_decoder_aplay_process (h : option nat) (w : world) : world :=
  mkWorld (procs w) (decoder_process w) h (decoder_should_run w)
          (decoder_current_volume w) (audio_levels w) (status_decoder w) (trace w).

Definition with_decoder_should_run (b : bool) (w : world) : world :=
  mkWorld (procs w) (decoder_process w) (decoder_aplay_process w) b
          (decoder_current_volume w) (audio_levels w) (status_decoder w) (trace w).

Definition with_decoder_current_volume (v : Z) (w : world) : world :=
  mkWorld (procs w) (decoder_process w) (decoder_aplay_process w) (decoder_should_run w)
          v (audio_levels w) (status_decoder w) (trace w).

Definition with_status_decoder (s : decoder_settings) (w : world) : world :=
  mkWorld (procs w) (decoder_process w) (decoder_aplay_process w) (decoder_should_run w)
          (decoder_current_volume w) (audio_levels w) s (trace w).

Definition with_trace (t : list event) (w : world) : world :=
  mkWorld (procs w) (decoder_process w) (decoder_aplay_process w) (decoder_should_run w)
          (decoder_current_volume w) (audio_levels w) (status_decoder w) t.

Definition emit (e : event) : M unit := modify (fun w => with_trace (e :: trace w) w).

Definition set_decoder_process (h : option nat) : M unit := modify (with_decoder_process h).
Definition set_decoder_aplay_process (h : option nat) : M unit :=
  modify (with_decoder_aplay_process h).
Definition set_decoder_should_run (b : bool) : M unit := modify (with_decoder_should_run b).
Definition set_decoder_current_volume (v : Z) : M unit := modify (with_decoder_current_volume v).

(** [time.sleep(d)] *)
Definition sleep (d : float) : M unit := emit (Slept d).

(** [subprocess.Popen(argv, ...)]: raises when the executable is missing,
    otherwise adds an entry to the process table and returns its handle. *)
Definition popen (env : environment) (p : program) (argv : list string) : M nat :=
  fun w =>
    if exe_exists env p then
      let pid := List.length (procs w) in
      (Val pid,
       with_trace (Spawned pid p argv :: trace w)
         (with_procs (procs w ++ [mkProcess p argv (starts_ok env pid)]) w))
    else (Raised, w).

Definition is_alive (w : world) (pid : nat) : bool :=
  match nth_error (procs w) pid with
  | Some p => proc_alive p
  | None => false
  end.

(** [h.poll() is None] *)
Definition poll (pid : nat) : M bool := get (fun w => is_alive w pid).

Definition kill (p : process) : process := mkProcess (proc_prog p) (proc_argv p) false.

Fixpoint kill_nth (pid : nat) (ps : list process) : list process :=
  match ps, pid with
  | [], _ => []
  | p :: r, O => kill p :: r
  | p :: r, S n => p :: kill_nth n r
  end.

(** [h.terminate()] *)
Definition terminate (pid : nat) : M unit :=
  modify (fun w => with_procs (kill_nth pid (procs w)) w) ;; emit (Terminated pid).

(** [pkill -x name] matches the process name, [pkill -f pattern] the whole
    command line. *)
Definition pkill_matches (exact : bool) (pattern : string) (p : process) : bool :=
  if exact then String.eqb (program_name (proc_prog p)) pattern
  else contains pattern (String.concat " " (proc_argv p)).

(** [subprocess.run([pkill_path, flag, pattern], check=False)] *)
Definition pkill (env : environment) (exact : bool) (pattern : string) : M unit :=
  if pkill_exists env then
    modify (fun w => with_procs
                       (map (fun p => if pkill_matches exact pattern p then kill p else p)
                            (procs w)) w) ;;
    emit (Pkilled exact pattern)
  else raise.

(** [pgrep -x name] succeeds; the model's processes are never zombies nor in
    uninterruptible sleep, so the [ps -o stat=] test that follows a
    successful [pgrep] passes. *)
Definition pgrep_x (w : world) (p : program) : bool :=
  existsb (fun q => program_eqb (proc_prog q) p && proc_alive q) (procs w).

(** A launch function logs its call and its return value. *)
Definition call (f : launcher) (volume buffer_secs playback_cache_secs : Z)
                (body : M bool) : M bool :=
  emit (Called f volume buffer_secs playback_cache_secs) ;;
  r <- body ;;
  emit (Returned f r) ;;
  ret r.

(** ** [get_decoder_status] *)

(** The fallback of [get_decoder_status] on the system's process list:
    ffmpeg with aplay, else mpg123 with aplay, else cvlc alone. *)
Definition system_probe (w : world) : bool :=
  if pgrep_x w Ffmpeg && pgrep_x w Aplay then true
  else if pgrep_x w Mpg123 && pgrep_x w Aplay then true
  else pgrep_x w Cvlc.

Definition get_decoder_status (w : world) : bool :=
  if decoder_should_run w then true
  else
    match decoder_process w with
    | Some h =>
        if is_alive w h then
          match decoder_aplay_process w with
          | Some a => is_alive w a
          | None => true
          end
        else system_probe w
    | None => system_probe w
    end.

(** ** The backend launchers *)

(** [_start_vlc_player].  The best-effort [amixer] calls that precede the
    launch sit in their own [try/except: pass] and touch nothing the model
    tracks; they are left out. *)
Definition vlc_cmd (stream_url output_device : string)
                   (vlc_vol network_cache_ms file_cache_ms live_cache_ms : Z) : list string :=
  [program_path Cvlc; "--intf"; "dummy"; "--no-video"; "--quiet"; "--aout"; "alsa";
   "--alsa-audio-device=" ++ output_device;
   "--volume"; str vlc_vol;
   "--network-caching=" ++ str network_cache_ms;
   "--file-caching=" ++ str file_cache_ms;
   "--live-caching=" ++ str live_cache_ms;
   "--http-continuous"; "--http-forward-cookies"; "--http-reconnect-delay"; "2";
   "--audio-resampler"; "src"; "--audio-filter"; "normvol"; "--norm-max-level"; "1.0";
   "--network-timeout"; "10000"; "--http-reconnect";
   "--no-sout-rtp-sap"; "--no-sout-standard-sap"; "--ttl=1";
   stream_url]%string.

Definition _start_vlc_player (env : environment) (stream_url output_device : string)
    (volume buffer_secs playback_cache_secs : Z) : M bool :=
  call StartVlc volume buffer_secs playback_cache_secs (
    if negb (exe_exists env Cvlc) then ret false
    else
      set_decoder_current_volume volume ;;
      try_except (
        vlc_vol <- of_option (vlc_volume volume) ;;
        let network_cache_ms := Z.max 5000 (Z.min 120000 (buffer_secs * 1000)) in
        let live_cache_ms :=
          Z.max 10000 (Z.min 120000 ((buffer_secs + playback_cache_secs) * 1000)) in
        let file_cache_ms := network_cache_ms * 2 in
        cvlc_proc <- popen env Cvlc
          (vlc_cmd stream_url output_device vlc_vol network_cache_ms file_cache_ms
                   live_cache_ms) ;;
        let buffer_wait_time :=
          py_max f5_0 (fmul (fdiv (float_of_int live_cache_ms) f1000_0) f0_5) in
        sleep buffer_wait_time ;;
        running <- poll cvlc_proc ;;
        if running then
          set_decoder_process (Some cvlc_proc) ;;
          set_decoder_aplay_process None ;;
          ret true
        else
          try_except (terminate cvlc_proc) (ret tt) ;;
          ret false)
      (ret false)).

(** [_start_ffmpeg_pipeline]; the [amixer] prelude is left out as above.
    The pump thread it starts is the event [PumpStarted]; the pump itself is
    [pump_and_meter] below. *)
Definition buffer_size_str (buffer_bytes : Z) : string :=
  if buffer_bytes <? 1024 then (str buffer_bytes ++ "B")%string
  else if buffer_bytes <? 1048576 then (str (buffer_bytes / 1024) ++ "k")%string
  else (str (buffer_bytes / 1048576) ++ "M")%string.

Definition ffmpeg_cmd (stream_url : string) (buffer_secs : Z) : list string :=
  [program_path Ffmpeg; "-nostdin"; "-vn";
   "-reconnect"; "1"; "-reconnect_at_eof"; "1"; "-reconnect_streamed"; "1";
   "-reconnect_delay_max"; "5";
   "-fflags"; "+genpts"; "+discardcorrupt";
   "-err_detect"; "ignore_err";
   "-i"; stream_url;
   "-f"; "s16le"; "-ac"; "2"; "-ar"; "44100";
   "-bufsize"; buffer_size_str (buffer_secs * 44100 * 2 * 2);
   "-max_delay"; "500000";
   "pipe:1"]%string.

Definition aplay_cmd (output_device : string) (buffer_frames period_frames : Z)
  : list string :=
  [program_path Aplay; "-D"; output_device; "-f"; "cd"; "-c"; "2"; "-r"; "44100";
   "-B"; str buffer_frames; "-F"; str period_frames]%string.

Definition _start_ffmpeg_pipeline (env : environment) (stream_url output_device : string)
    (volume buffer_secs playback_cache_secs : Z) : M bool :=
  call StartFfmpeg volume buffer_secs playback_cache_secs (
    if negb (exe_exists env Ffmpeg) then ret false
    else
      set_decoder_current_volume volume ;;
      try_except (
        ffmpeg_proc <- popen env Ffmpeg (ffmpeg_cmd stream_url buffer_secs) ;;
        let period_frames := 1024 in
        let min_buffer_frames := buffer_secs * 44100 in
        let buffer_frames := Z.min (Z.max (period_frames * 4) min_buffer_frames) 131072 in
        aplay_proc <- popen env Aplay (aplay_cmd output_device buffer_frames period_frames) ;;
        set_decoder_process (Some ffmpeg_proc) ;;
        set_decoder_aplay_process (Some aplay_proc) ;;
        emit (PumpStarted ffmpeg_proc aplay_proc) ;;
        sleep f1_5 ;;
        ffmpeg_running <- poll ffmpeg_proc ;;
        if negb ffmpeg_running then ret false
        else
          aplay_running <- poll aplay_proc ;;
          if negb aplay_running then ret false
          else ret true)
      (ret false)).

(** [_start_decoder_process].  Its [volume / 100.0] (line 164) stands
    outside any [try]: for a volume beyond the range of the doubles Python
    raises [OverflowError] there, where [float_of_int] gives an infinity and
    the launcher goes on.  The model is that of the code for the volumes the
    doubles cover; the program passes 100. *)
Definition is_mp3_like (stream_url : string) : bool :=
  existsb (fun ext => contains ext (lower stream_url)) [".mp3"; "mp3stream"]%string.

Definition sox_cmd (volume : Z) : list string :=
  [program_path Sox; "-t"; "raw"; "-r"; "44100"; "-c"; "2"; "-b"; "16";
   "-e"; "signed-integer"; "-";
   "-t"; "raw"; "-r"; "44100"; "-c"; "2"; "-b"; "16"; "-e"; "signed-integer"; "-";
   "gain"; str_hundredths volume]%string.

(** [decoder_process and decoder_process.poll() is None] *)
Definition handle_running (h : option nat) : M bool :=
  match h with
  | Some pid => poll pid
  | None => ret false
  end.

(** [if h and h.poll() is None: h.terminate(); h.wait(timeout=1)] inside
    its own [try/except: pass] *)
Definition terminate_if_running (h : option nat) : M unit :=
  try_except (
    running <- handle_running h ;;
    match h with
    | Some pid => if running then terminate pid else ret tt
    | None => ret tt
    end)
  (ret tt).

Definition _start_decoder_process (env : environment) (stream_url output_device : string)
    (volume buffer_secs playback_cache_secs : Z) : M bool :=
  call StartMpg123 volume buffer_secs playback_cache_secs (
    set_decoder_current_volume volume ;;
    set_decoder_process None ;;
    set_decoder_aplay_process None ;;
    let volume_factor := fdiv (float_of_int volume) (float_of_int 100) in
    if is_mp3_like stream_url then
      try_except (
        mpg123_proc <- popen env Mpg123
          (mpg123_stdout_cmd (program_path Mpg123) buffer_secs stream_url) ;;
        (if exe_exists env Sox && flt volume_factor f1_0 then
           sox_proc <- popen env Sox (sox_cmd volume) ;;
           let period_frames := 1024 in
           let buffer_frames := period_frames * 4 in
           aplay_proc <- popen env Aplay
             (aplay_cmd output_device buffer_frames period_frames) ;;
           set_decoder_process (Some mpg123_proc) ;;
           set_decoder_aplay_process (Some aplay_proc)
         else
           let period_frames := 1024 in
           let buffer_frames := period_frames * 4 in
           aplay_proc <- popen env Aplay
             (aplay_cmd output_device buffer_frames period_frames) ;;
           set_decoder_process (Some mpg123_proc) ;;
           set_decoder_aplay_process (Some aplay_proc)) ;;
        sleep f1_5 ;;
        dp <- get decoder_process ;;
        ap <- get decoder_aplay_process ;;
        dec_running <- handle_running dp ;;
        out_running <- (if dec_running then handle_running ap else ret false) ;;
        if dec_running && out_running then ret true
        else
          terminate_if_running dp ;;
          terminate_if_running ap ;;
          ret false)
      (ret false)
    else ret false).

(** ** The supervisor loop *)

(** [int(v)] *)
Definition int_of_jvalue (v : jvalue) : option Z :=
  match v with JInt z => Some z | JNotInt => None end.

(** [int(d.get(key, default))] *)
Definition get_int (field : option jvalue) (default : Z) : option Z :=
  match field with
  | Some v => int_of_jvalue v
  | None => Some default
  end.

(** The locals of [_decoder_supervisor_loop] that survive an iteration. *)
Record supervisor_state := mkSup {
  backoff : float;
  consecutive_failures : Z
}.

Definition supervisor_init : supervisor_state := mkSup f1_0 0.

Definition max_backoff : float := f10_0.

(** [backoff = min(backoff * 1.5, max_backoff)] *)
Definition next_backoff (b : float) : float := py_min (fmul b f1_5) max_backoff.

(** Lines 257-271: both legs must be running, or the single process. *)
Definition process_running_check : M bool :=
  dp <- get decoder_process ;;
  ap <- get decoder_aplay_process ;;
  running <- handle_running dp ;;
  if running then
    match ap with
    | Some a => poll a
    | None => ret true
    end
  else ret false.

(** Lines 276-282: forget handles of processes that have exited. *)
Definition drop_stale_handles : M unit :=
  try_except (
    dp <- get decoder_process ;;
    match dp with
    | Some h => r <- poll h ;; if negb r then set_decoder_process None else ret tt
    | None => ret tt
    end ;;
    ap <- get decoder_aplay_process ;;
    match ap with
    | Some a => r <- poll a ;; if negb r then set_decoder_aplay_process None else ret tt
    | None => ret tt
    end)
  (ret tt).

(** Lines 291-297: VLC, else the ffmpeg pipeline, else mpg123. *)
Definition launch_chain (env : environment) (url out_dev : string)
    (volume buffer_secs playback_cache_secs : Z) : M bool :=
  ok <- _start_vlc_player env url out_dev volume buffer_secs playback_cache_secs ;;
  if ok then ret true
  else
    ok <- _start_ffmpeg_pipeline env url out_dev volume buffer_secs playback_cache_secs ;;
    if ok then ret true
    else
      ok <- _start_decoder_process env url out_dev volume buffer_secs playback_cache_secs ;;
      if ok then ret true else ret false.

(** Lines 299-307: what the loop does with the outcome of a relaunch. *)
Definition after_relaunch (s : supervisor_state) (success : bool) : M supervisor_state :=
  if success then
    sleep f0_5 ;;
    ret (mkSup f1_0 0)
  else
    let b := next_backoff (backoff s) in
    sleep b ;;
    ret (mkSup b (consecutive_failures s + 1)).

(** One pass through the body of [while decoder_should_run]. *)
Definition supervisor_iteration (env : environment) (s : supervisor_state)
  : M supervisor_state :=
  try_except (
    dec <- get status_decoder ;;
    let url := st_url dec in
    let out_dev := if nonempty (st_outputDevice dec) then st_outputDevice dec
                   else detected_output env in
    let volume := 100 in
    if negb (nonempty url) then
      sleep f1_0 ;;
      ret s
    else
      process_running <- process_running_check ;;
      if negb process_running then
        drop_stale_handles ;;
        buffer_secs <- of_option (get_int (st_bufferSecs dec) 10) ;;
        let buffer_secs := Z.max 1 (Z.min 60 buffer_secs) in
        playback_cache_secs <- of_option (get_int (st_playbackCacheSecs dec) 3) ;;
        let playback_cache_secs := Z.max 0 (Z.min 10 playback_cache_secs) in
        success <- launch_chain env url out_dev volume buffer_secs playback_cache_secs ;;
        after_relaunch s success
      else
        sleep f2_0 ;;
        ret (mkSup f1_0 0))
  (let b := next_backoff (backoff s) in
   sleep b ;;
   ret (mkSup b (consecutive_failures s + 1))).

(** [while decoder_should_run: ...], observed for at most [fuel] passes. *)
Fixpoint _decoder_supervisor_loop (env : environment) (fuel : nat) (s : supervisor_state)
  : M supervisor_state :=
  match fuel with
  | O => ret s
  | S n =>
      run <- get decoder_should_run ;;
      if run then
        s' <- supervisor_iteration env s ;;
        _decoder_supervisor_loop env n s'
      else ret s
  end.

(** The durations of the [time.sleep] calls of a trace, oldest first. *)
Definition sleeps (t : list event) : list float :=
  rev (flat_map (fun e => match e with Slept d => [d] | _ => [] end) t).

(** The backend launches of a trace with their outcomes, oldest first. *)
Definition attempts (t : list event) : list (launcher * bool) :=
  rev (flat_map (fun e => match e with Returned f ok => [(f, ok)] | _ => [] end) t).

(** ** The start, stop and status endpoints *)

(** The JSON body of a start request.  [req_url] is the URL after playlist
    resolution and scheme normalisation, [req_outputDevice] is already
    stripped; [None] is a missing (or null) key. *)
Record start_request := mkRequest {
  req_url : string;
  req_outputDevice : string;
  req_bufferSecs : option jvalue;
  req_playbackCacheSecs : option jvalue
}.

Inductive message :=
| MsgUrlRequired | MsgVlcRequired | MsgFailedToStart | MsgStarted | MsgMayNotBePlaying
| MsgStopped | MsgFailedToStop | MsgError.

Record response := mkResponse {
  success : bool;
  http_code : Z;
  msg : message
}.

(** [try: x.method() ... except Exception: ...] around a single effect:
    [Some] result, or [None] when it raised. *)
Definition attempt {A} (m : M A) : M (option A) :=
  try_except (a <- m ;; ret (Some a)) (ret None).

(** [s.replace(old, new)] for a non-empty [old] *)
Fixpoint replace_from (old new s : string) (skip : nat) : string :=
  match s with
  | EmptyString => EmptyString
  | String c r =>
      match skip with
      | S k => replace_from old new r k
      | O => if String.prefix old s
             then (new ++ replace_from old new r (String.length old - 1))%string
             else String c (replace_from old new r 0)
      end
  end.

Definition replace (old new s : string) : string := replace_from old new s 0.

(** Lines 1096-1112: stop whatever [get_decoder_status] reports as running. *)
Definition start_teardown (env : environment) : M unit :=
  status <- get get_decoder_status ;;
  if status then
    set_decoder_should_run false ;;
    try_except (
      dp <- get decoder_process ;;
      match dp with
      | Some h => terminate h ;; set_decoder_process None
      | None => ret tt
      end ;;
      ap <- get decoder_aplay_process ;;
      match ap with
      | Some a => terminate a ;; set_decoder_aplay_process None
      | None => ret tt
      end ;;
      pkill env true "cvlc" ;;
      sleep f1_0)
    (ret tt)
  else ret tt.

(** Lines 1167-1187: buffer settings from the request, else the saved
    configuration, else the defaults 30 and 10; an [int] that raises leaves
    the values assigned so far. *)
Definition start_settings (req : start_request) (dec_config : decoder_settings) : Z * Z :=
  let buffer_default := 30 in
  let cache_default := 10 in
  match (match req_bufferSecs req with
         | Some v => int_of_jvalue v
         | None => get_int (st_bufferSecs dec_config) buffer_default
         end) with
  | None => (buffer_default, cache_default)
  | Some b =>
      let buffer_secs := Z.max 1 (Z.min 60 b) in
      match (match req_playbackCacheSecs req with
             | Some v => int_of_jvalue v
             | None => get_int (st_playbackCacheSecs dec_config) cache_default
             end) with
      | None => (buffer_secs, cache_default)
      | Some c => (buffer_secs, Z.max 0 (Z.min 10 c))
      end
  end.

(** Lines 1228-1241: persist the requested URL and device. *)
Definition persist_request (stream_url output_device : string) : M unit :=
  modify (fun w =>
    let d := status_decoder w in
    with_status_decoder
      (mkSettings stream_url
                  (if nonempty output_device then output_device else st_outputDevice d)
                  (match st_bufferSecs d with Some v => Some v | None => Some (JInt 30) end)
                  (match st_playbackCacheSecs d with
                   | Some v => Some v
                   | None => Some (JInt 10)
                   end))
      w).

(** Lines 1244-1250: restart the capture meter on the chosen card. *)
Definition restart_meter_for (output_device : string) : M unit :=
  let dev_norm := if nonempty output_device then replace "plughw:" "hw:" output_device
                  else ""%string in
  if String.prefix "hw:" dev_norm && contains "," dev_norm
  then emit (MeterRestarted dev_norm)
  else ret tt.

(** Lines 1333-1371: mpg123 writing PCM to aplay.  Returns the bindings of
    the locals [mpg123_proc] and [aplay_proc] the cleanup below reads. *)
Definition piping_fallback (env : environment) (stream_url output_device : string)
    (buffer_secs : Z) (mpg123_proc : nat) : M (nat * option nat) :=
  r1 <- attempt (popen env Mpg123
                   (mpg123_stdout_cmd (program_path Mpg123) buffer_secs stream_url)) ;;
  match r1 with
  | None =>
      set_decoder_process None ;; set_decoder_aplay_process None ;;
      ret (mpg123_proc, None)
  | Some m2 =>
      let period_frames := 1024 in
      let min_buffer_frames := buffer_secs * 44100 in
      let buffer_frames := Z.min (Z.max (period_frames * 4) min_buffer_frames) 131072 in
      r2 <- attempt (popen env Aplay (aplay_cmd output_device buffer_frames period_frames)) ;;
      match r2 with
      | None =>
          set_decoder_process None ;; set_decoder_aplay_process None ;;
          ret (m2, None)
      | Some a =>
          sleep f1_0 ;;
          m_running <- poll m2 ;;
          a_running <- (if m_running then poll a else ret false) ;;
          (if m_running && a_running then
             set_decoder_process (Some m2) ;; set_decoder_aplay_process (Some a)
           else ret tt) ;;
          ret (m2, Some a)
      end
  end.

(** Lines 1396-1418: cvlc straight to ALSA. *)
Definition inline_cvlc (env : environment) (stream_url output_device : string)
    (volume : Z) : M unit :=
  try_except (
    vlc_vol <- of_option (vlc_volume volume) ;;
    cvlc_proc <- popen env Cvlc
      [program_path Cvlc; "--intf"; "dummy"; "--no-video"; "--quiet"; "--aout"; "alsa";
       "--alsa-audio-device=" ++ output_device; "--volume"; str vlc_vol; stream_url]%string ;;
    sleep f1_0 ;;
    running <- poll cvlc_proc ;;
    if running then
      set_decoder_process (Some cvlc_proc) ;; set_decoder_aplay_process None
    else set_decoder_process None)
  (set_decoder_process None).

(** Lines 1421-1437: mpg123 to PulseAudio as the last resort. *)
Definition pulse_fallback (env : environment) (stream_url : string) : M unit :=
  try_except (
    p <- popen env Mpg123 [program_path Mpg123; "-q"; "-o"; "pulse"; stream_url]%string ;;
    set_decoder_process (Some p) ;;
    sleep f1_0 ;;
    running <- poll p ;;
    if negb running then set_decoder_process None else ret tt)
  (set_decoder_process None).

(** Lines 1279-1441.  This block is indented under
    [if decoder_process is None:] and follows the [if/else] that launches
    VLC, so it runs after a successful VLC launch. *)
Definition legacy_fallbacks (env : environment) (stream_url output_device : string)
    (volume buffer_secs playback_cache_secs : Z) : M unit :=
  try_except (
    mpg123_proc <- popen env Mpg123
      [program_path Mpg123; "-q"; "-o"; "alsa"; "-a"; output_device; stream_url]%string ;;
    sleep f1_0 ;;
    running <- poll mpg123_proc ;;
    locals <- (if running then
                 set_decoder_process (Some mpg123_proc) ;;
                 set_decoder_aplay_process None ;;
                 ret (mpg123_proc, None)
               else
                 set_decoder_process None ;;
                 piping_fallback env stream_url output_device buffer_secs mpg123_proc) ;;
    let mpg123_proc := fst locals in
    let aplay_proc := snd locals in
    dp <- get decoder_process ;;
    match dp with
    | Some _ => ret tt
    | None =>
        try_except (
          r <- poll mpg123_proc ;;
          (if negb r then terminate mpg123_proc else ret tt) ;;
          match aplay_proc with
          | Some a => r <- poll a ;; if negb r then terminate a else ret tt
          | None => ret tt
          end)
        (ret tt) ;;
        dp <- get decoder_process ;;
        match dp with
        | Some _ => ret tt
        | None =>
            ok <- _start_vlc_player env stream_url output_device volume buffer_secs
                                    playback_cache_secs ;;
            if ok then ret tt
            else
              ok <- _start_ffmpeg_pipeline env stream_url output_device volume buffer_secs
                                           playback_cache_secs ;;
              if ok then ret tt
              else inline_cvlc env stream_url output_device volume
        end ;;
        dp <- get decoder_process ;;
        match dp with
        | Some _ => ret tt
        | None => pulse_fallback env stream_url
        end
    end)
  (set_decoder_process None ;; set_decoder_aplay_process None).

(** Lines 1443-1491 *)
Definition start_finish : M response :=
  dp <- get decoder_process ;;
  running <- handle_running dp ;;
  if negb running then ret (mkResponse false 200 MsgFailedToStart)
  else
    sleep f0_5 ;;
    status <- get get_decoder_status ;;
    if status then ret (mkResponse true 200 MsgStarted)
    else
      sleep f1_0 ;;
      status <- get get_decoder_status ;;
      if status then ret (mkResponse true 200 MsgStarted)
      else ret (mkResponse false 200 MsgMayNotBePlaying).

(** Lines 1114-1493: the start endpoint once any running decoder has been
    stopped. *)
Definition start_after_teardown (env : environment) (req : start_request) : M response :=
  let volume := 100 in
  let stream_url := req_url req in
  let output_device := req_outputDevice req in
  if negb (nonempty stream_url) then ret (mkResponse false 200 MsgUrlRequired)
  else
    set_decoder_process None ;;
    set_decoder_aplay_process None ;;
    dec_config <- get status_decoder ;;
    let buffer_secs := fst (start_settings req dec_config) in
    let playback_cache_secs := snd (start_settings req dec_config) in
    try_except (
      set_decoder_should_run true ;;
      persist_request stream_url output_device ;;
      restart_meter_for output_device ;;
      let output_device := if nonempty output_device then output_device
                           else fallback_output env in
      dp <- get decoder_process ;;
      match dp with
      | None =>
          ok <- _start_vlc_player env stream_url output_device volume buffer_secs
                                  playback_cache_secs ;;
          if ok then
            sleep f0_5 ;;
            legacy_fallbacks env stream_url output_device volume buffer_secs
                             playback_cache_secs ;;
            start_finish
          else
            set_decoder_process None ;;
            ret (mkResponse false 500 MsgVlcRequired)
      | Some _ => start_finish
      end)
    (ret (mkResponse false 500 MsgError)).

(** [api_decoder_start] *)
Definition api_decoder_start (env : environment) (req : start_request) : M response :=
  start_teardown env ;;
  start_after_teardown env req.

(** [api_decoder_stop] *)
Definition api_decoder_stop (env : environment) : M response :=
  set_decoder_should_run false ;;
  try_except (
    dp <- get decoder_process ;;
    match dp with
    | Some h => terminate h ;; set_decoder_process None
    | None => ret tt
    end ;;
    ap <- get decoder_aplay_process ;;
    match ap with
    | Some a => terminate a ;; set_decoder_aplay_process None
    | None => ret tt
    end ;;
    pkill env true "mpg123" ;;
    pkill env true "aplay" ;;
    pkill env true "cvlc" ;;
    pkill env true "vlc" ;;
    pkill env true "ffmpeg" ;;
    pkill env false "aplay" ;;
    pkill env false "cvlc" ;;
    pkill env false "vlc" ;;
    pkill env false "ffmpeg" ;;
    sleep f0_5 ;;
    status <- get get_decoder_status ;;
    if negb status then ret (mkResponse true 200 MsgStopped)
    else ret (mkResponse false 200 MsgFailedToStop))
  (ret (mkResponse false 500 MsgError)).

(** [api_status], restricted to the decoder side: the encoder, Icecast and
    configuration entries come from collaborators outside this model. *)
Record status_report := mkReport {
  report_decoder : bool;
  report_audioLevels : levels
}.

Definition api_status (w : world) : status_report :=
  mkReport (get_decoder_status w) (audio_levels w).

(** The pipelines that are playing: every live decoding process heads one. *)
Definition heads_pipeline (p : process) : bool :=
  proc_alive p &&
  match proc_prog p with
  | Cvlc | Ffmpeg | Mpg123 => true
  | Aplay | Sox => false
  end.

Definition active_pipelines (w : world) : nat :=
  List.length (filter heads_pipeline (procs w)).

(** ** The pump ([_pump_and_meter]) *)

(** The pump runs in its own thread; what it reads from the shared flag,
    from the two process handles and from the pipes is external to it.  One
    [pump_obs] is what one pass of the relay loop observes. *)
Inductive write_result := WriteOk | BrokenPipe | WriteError.

Record pump_obs := mkObs {
  obs_should_run : bool;        (* decoder_should_run *)
  obs_ffmpeg_running : bool;    (* ffmpeg_proc.poll() is None *)
  obs_aplay_running : bool;     (* aplay_proc.poll() is None *)
  obs_read : list byte;         (* what ffmpeg_proc.stdout.read would return *)
  obs_write : write_result      (* what aplay_proc.stdin.write/flush would do *)
}.

Inductive pump_event :=
| Wrote (data : list byte)
| PumpSlept (d : float)
| ClosedStdin.

Inductive pump_exit :=
| ConditionFalse          (* the [while] condition failed *)
| BrokenPipeExit          (* [except BrokenPipeError: break] *)
| StillRelaying (cache_buffer : list byte).   (* observations exhausted *)

Definition chunk_size : Z := 16384.

(** [b[:n]] and [b[n:]] for [n >= 0] *)
Fixpoint take (n : Z) (b : list byte) : list byte :=
  match b with
  | [] => []
  | x :: r => if 0 <? n then x :: take (n - 1) r else []
  end.

Fixpoint drop (n : Z) (b : list byte) : list byte :=
  match b with
  | [] => []
  | x :: r => if 0 <? n then drop (n - 1) r else b
  end.

(** The [while] condition of line 568. *)
Definition relay_condition (o : pump_obs) : bool :=
  obs_should_run o && obs_ffmpeg_running o && obs_aplay_running o.

Definition prepend (evs : list pump_event) (r : list pump_event * pump_exit)
  : list pump_event * pump_exit :=
  (evs ++ fst r, snd r).

(** Lines 570-574: the next chunk comes from the pre-filled cache while it
    lasts, then from the decoder's stdout. *)
Definition next_chunk (cache_buffer from_stdout : list byte) : list byte :=
  match cache_buffer with
  | [] => take chunk_size from_stdout
  | _ => take chunk_size cache_buffer
  end.

(** Lines 568-606, events oldest first.  The RMS computed after a write
    (lines 597-603) is assigned to locals that nothing reads, so it leaves
    no event. *)
Fixpoint relay_loop (cache_buffer : list byte) (obs : list pump_obs)
  : list pump_event * pump_exit :=
  match obs with
  | [] => ([], StillRelaying cache_buffer)
  | o :: rest =>
      if relay_condition o then
        let data := next_chunk cache_buffer (obs_read o) in
        let cache_buffer' := drop chunk_size cache_buffer in
        match data with
        | [] => prepend [PumpSlept f0_005] (relay_loop cache_buffer' rest)
        | _ =>
            match obs_write o with
            | WriteOk =>
                prepend [Wrote data; PumpSlept f0_001] (relay_loop cache_buffer' rest)
            | BrokenPipe => ([], BrokenPipeExit)
            | WriteError => prepend [PumpSlept f0_005] (relay_loop cache_buffer' rest)
            end
        end
      else ([], ConditionFalse)
  end.

(** What one pass of the pre-fill loop observes. *)
Record prefill_obs := mkPrefill {
  pre_should_run : bool;        (* decoder_should_run *)
  pre_before_deadline : bool;   (* time.time() < cache_timeout *)
  pre_read : list byte;
  pre_ffmpeg_running : bool
}.

(** Lines 553-561: fill [cache_buffer] up to [playback_cache_bytes]. *)
Fixpoint prefill_loop (playback_cache_bytes : Z) (cache_buffer : list byte)
    (obs : list prefill_obs) : list byte :=
  match obs with
  | [] => cache_buffer
  | o :: rest =>
      let have := Z.of_nat (List.length cache_buffer) in
      if (have <? playback_cache_bytes) && pre_should_run o && pre_before_deadline o then
        let want := Z.min chunk_size (playback_cache_bytes - have) in
        match take want (pre_read o) with
        | [] => if pre_ffmpeg_running o
                then prefill_loop playback_cache_bytes cache_buffer rest
                else cache_buffer
        | data => prefill_loop playback_cache_bytes (cache_buffer ++ data) rest
        end
      else cache_buffer
  end.

(** Lines 551-565: the cache the relay loop starts from. *)
Definition prefilled (playback_cache_secs : Z) (pre : list prefill_obs) : list byte :=
  let playback_cache_bytes := playback_cache_secs * 44100 * 2 * 2 in
  if 0 <? playback_cache_bytes
  then prefill_loop playback_cache_bytes [] pre
  else [].

(** [_pump_and_meter]: pre-fill, relay, and the [finally] that closes the
    output stage's stdin once the relay loop has ended. *)
Definition _pump_and_meter (playback_cache_secs : Z) (pre : list prefill_obs)
    (obs : list pump_obs) : list pump_event * pump_exit :=
  let cache_buffer := prefilled playback_cache_secs pre in
  let r := relay_loop cache_buffer obs in
  match snd r with
  | StillRelaying _ => r
  | _ => (fst r ++ [ClosedStdin], snd r)
  end.

(** ** The level meter ([read_audio_levels]) *)

(** One 16-bit signed sample from its two bytes, low byte first. *)
Definition s16le (lo hi : byte) : Z :=
  let u := Z.of_N (Byte.to_N lo) + 256 * Z.of_N (Byte.to_N hi) in
  if u <? 32768 then u else u - 65536.

(** [array.array('h', data)]: [None] is the [ValueError] raised when the
    length is odd. *)
Fixpoint decode_s16le (data : list byte) : option (list Z) :=
  match data with
  | [] => Some []
  | lo :: hi :: rest =>
      match decode_s16le rest with
      | Some samples => Some (s16le lo hi :: samples)
      | None => None
      end
  | [_] => None
  end.

(** The samples at even indices, [samples[0::2]]. *)
Fixpoint evens (samples : list Z) : list Z :=
  match samples with
  | [] => []
  | [x] => [x]
  | x :: _ :: rest => x :: evens rest
  end.

(** The samples at odd indices, [samples[1::2]]. *)
Definition odds (samples : list Z) : list Z := evens (tl samples).

(** [sum(x*x for x in channel)] *)
Definition sum_squares (channel : list Z) : Z :=
  fold_right (fun x acc => x * x + acc) 0 channel.

(** [(sum(x*x for x in channel) / len(channel)) ** 0.5] *)
Definition channel_rms (channel : list Z) : option float :=
  match int_truediv (sum_squares channel) (Z.of_nat (List.length channel)) with
  | Some mean => Some (pow_half mean)
  | None => None
  end.

(** Lines 745-755: [min(rms / 32768.0, 1.0)], or [0.0] for an empty
    channel. *)
Definition channel_level (channel : list Z) : option float :=
  match channel with
  | [] => Some f0_0
  | _ =>
      match channel_rms channel with
      | Some rms => Some (py_min (fdiv rms f32768_0) f1_0)
      | None => None
      end
  end.

Inductive rms_result :=
| RmsTooShort               (* fewer than two samples: [continue] *)
| RmsRaised                 (* the [try] block raised *)
| RmsLevels (l : levels).

(** Lines 736-755 *)
Definition rms_of_chunk (data : list byte) : rms_result :=
  match decode_s16le data with
  | None => RmsRaised
  | Some samples =>
      if (List.length samples <? 2)%nat then RmsTooShort
      else
        let left_samples := map Z.abs (evens samples) in
        let right_samples := map Z.abs (odds samples) in
        match channel_level left_samples, channel_level right_samples with
        | Some l, Some r => RmsLevels (mkLevels l r)
        | _, _ => RmsRaised
        end
  end.

(** Lines 597-603, the pump's inline computation after a write:
    [(sum(x*x for x in left) / max(1, len(left))) ** 0.5] for each channel
    when the chunk holds at least two samples.  The pump binds the two
    values to locals and publishes nothing (the decoder meter was removed);
    [None] stands for no value computed. *)
Definition pump_rms (data : list byte) : option (float * float) :=
  match decode_s16le data with
  | None => None
  | Some samples =>
      if (2 <=? List.length samples)%nat then
        let rms channel :=
          match int_truediv (sum_squares channel)
                            (Z.max 1 (Z.of_nat (List.length channel))) with
          | Some mean => Some (pow_half mean)
          | None => None
          end in
        match rms (evens samples), rms (odds samples) with
        | Some l, Some r => Some (l, r)
        | _, _ => None
        end
      else None
  end.

(** What [subprocess.run(arecord ...)] gives in one pass of the meter loop,
    and what [_detect_default_devices()] answers for ['input']. *)
Inductive capture :=
| Captured (returncode : Z) (data : list byte)
| CaptureRaised.

Record meter_obs := mkMeterObs {
  obs_capture : capture;
  obs_fallback_input : string
}.

(** The locals of [read_audio_levels] and the global [audio_levels]. *)
Record meter_state := mkMeter {
  device_in_use : string;
  empty_count : Z;
  error_count : Z;
  meter_levels : levels
}.

Definition zero_levels : levels := mkLevels f0_0 f0_0.

(** The command of the capture attempt. *)
Definition arecord_cmd (s : meter_state) (sample_rate : Z) : list string :=
  ["/usr/bin/arecord"; "-f"; "S16_LE"; "-r"; str sample_rate; "-c"; "2";
   "-D"; device_in_use s; "-t"; "raw"; "-d"; "0.1"; "-q"]%string.

(** One pass of [while running]; returns the new state and the sleep. *)
Definition meter_iteration (s : meter_state) (o : meter_obs) : meter_state * float :=
  match obs_capture o with
  | CaptureRaised =>
      (mkMeter (device_in_use s) (empty_count s) (error_count s + 1) zero_levels, f0_5)
  | Captured returncode data =>
      if negb (returncode =? 0) || (List.length data <? 4)%nat then
        let empty := empty_count s + 1 in
        let errors := if negb (returncode =? 0) then error_count s + 1 else error_count s in
        if (10 <=? empty) || (3 <=? errors) then
          let fallback_dev := obs_fallback_input o in
          if nonempty fallback_dev && negb (String.eqb fallback_dev (device_in_use s)) then
            (mkMeter fallback_dev 0 0 (meter_levels s), f0_15)
          else (mkMeter (device_in_use s) empty errors (meter_levels s), f0_15)
        else (mkMeter (device_in_use s) empty errors (meter_levels s), f0_15)
      else
        match rms_of_chunk data with
        | RmsTooShort =>
            (mkMeter (device_in_use s) (empty_count s + 1) (error_count s) (meter_levels s),
             f0_1)
        | RmsRaised =>
            (mkMeter (device_in_use s) (empty_count s) (error_count s) zero_levels, f0_1)
        | RmsLevels l => (mkMeter (device_in_use s) 0 0 l, f0_1)
        end
  end.

(** [read_audio_levels]: the loop over the observations made while
    [running] holds; the state after each pass, oldest first. *)
Fixpoint read_audio_levels (s : meter_state) (obs : list meter_obs) : list meter_state :=
  match obs with
  | [] => []
  | o :: rest => let s' := fst (meter_iteration s o) in s' :: read_audio_levels s' rest
  end.

(** [struct.pack('<h', x)] for the samples of a test chunk. *)
Definition encode_s16le (samples : list Z) : list byte :=
  flat_map (fun x =>
              let u := x mod 65536 in
              match Byte.of_N (Z.to_N (u mod 256)), Byte.of_N (Z.to_N (u / 256)) with
              | Some lo, Some hi => [lo; hi]
              | _, _ => []
              end) samples.

(** The samples of a run of stereo frames as PCM interleaves them: left,
    right, left, right, ... *)
Definition stereo (frames : list (Z * Z)) : list Z :=
  flat_map (fun frame => [fst frame; snd frame]) frames.

(** One sample is packed into two bytes that decode to it. *)
Definition packs (x : Z) : bool :=
  match encode_s16le [x] with
  | [lo; hi] => s16le lo hi =? x
  | _ => false
  end.

(** *** The inline meter as the specification words it

    "decode each chunk as little-endian 16-bit signed samples; split into
    left channel (even indices) and right channel (odd indices); RMS per
    channel = sqrt(mean(sample^2)); normalize by 32768 and clamp to
    [0,1]". *)

(** The samples at the indices [start], [start + 2], ... *)
Definition every_other (start : nat) (samples : list Z) : list Z :=
  map (fun i => nth i samples 0)
      (filter (fun i => Nat.eqb (Nat.modulo i 2) start) (seq 0 (List.length samples))).

Definition level_spec (channel : list Z) : option float :=
  match int_truediv (fold_right Z.add 0 (map (fun x => x * x) channel))
                    (Z.of_nat (List.length channel)) with
  | Some mean => Some (py_max f0_0 (py_min (fdiv (fsqrt mean) f32768_0) f1_0))
  | None => None
  end.

Definition inline_meter_spec (data : list byte) : option (float * float) :=
  match decode_s16le data with
  | Some samples =>
      match level_spec (every_other 0 samples), level_spec (every_other 1 samples) with
      | Some l, Some r => Some (l, r)
      | _, _ => None
      end
  | None => None
  end.

(** ** What stop and teardown leave behind *)

(** The sweeps of [api_decoder_stop], in order. *)
Definition stop_sweeps : list (bool * string) :=
  [(true, "mpg123"); (true, "aplay"); (true, "cvlc"); (true, "vlc"); (true, "ffmpeg");
   (false, "aplay"); (false, "cvlc"); (false, "vlc"); (false, "ffmpeg")]%string.

(** What one sweep does to one process. *)
Definition swept_by (sweep : bool * string) (p : process) : process :=
  if pkill_matches (fst sweep) (snd sweep) p then kill p else p.

Definition kill_handle (h : option nat) (ps : list process) : list process :=
  match h with
  | Some pid => kill_nth pid ps
  | None => ps
  end.

Definition terminated_event (h : option nat) : list event :=
  match h with
  | Some pid => [Terminated pid]
  | None => []
  end.

(** The world [api_decoder_stop] leaves when [pkill] is available: tracked
    handles terminated and dropped, every sweep applied in order. *)
Definition stopped_world (w : world) : world :=
  mkWorld
    (fold_left (fun ps sweep => map (swept_by sweep) ps) stop_sweeps
       (kill_handle (decoder_aplay_process w) (kill_handle (decoder_process w) (procs w))))
    None None false (decoder_current_volume w) (audio_levels w) (status_decoder w)
    (Slept f0_5
       :: rev (map (fun sweep => Pkilled (fst sweep) (snd sweep)) stop_sweeps)
       ++ terminated_event (decoder_aplay_process w)
       ++ terminated_event (decoder_process w)
       ++ trace w).

Definition sweep_all (p : process) : process :=
  fold_left (fun q sweep => swept_by sweep q) stop_sweeps p.

(** Whether some sweep of [api_decoder_stop] matches the process. *)
Definition swept (sweeps : list (bool * string)) (p : process) : bool :=
  existsb (fun sweep => pkill_matches (fst sweep) (snd sweep) p) sweeps.

(** The world [start_teardown] leaves when a decoder is reported running and
    [pkill] is available. *)
Definition torn_down_world (w : world) : world :=
  mkWorld
    (map (swept_by (true, "cvlc"%string))
       (kill_handle (decoder_aplay_process w) (kill_handle (decoder_process w) (procs w))))
    None None false (decoder_current_volume w) (audio_levels w) (status_decoder w)
    (Slept f1_0 :: Pkilled true "cvlc"
       :: terminated_event (decoder_aplay_process w)
       ++ terminated_event (decoder_process w)
       ++ trace w).

(** ** Properties of traces *)

(** The argument that follows [key] on a command line. *)
Fixpoint arg_after (key : string) (argv : list string) : option string :=
  match argv with
  | [] => None
  | a :: rest =>
      if String.eqb a key then
        match rest with
        | b :: _ => Some b
        | [] => None
        end
      else arg_after key rest
  end.

(** An event of a launch at full volume: a launcher is called with
    [volume = 100], no gain stage (sox) is spawned, and the managed player
    is given [--volume 256]. *)
Definition max_volume_event (e : event) : bool :=
  match e with
  | Called _ volume _ _ => volume =? 100
  | Spawned _ Sox _ => false
  | Spawned _ Cvlc argv =>
      match arg_after "--volume" argv with
      | Some v => String.eqb v "256"
      | None => false
      end
  | _ => true
  end.

(** A gain stage is spawned only when [volume / 100.0 < 1.0]. *)
Definition gain_stage_allowed (volume : Z) (e : event) : bool :=
  match e with
  | Spawned _ Sox _ => flt (fdiv (float_of_int volume) (float_of_int 100)) f1_0
  | _ => true
  end.

(** The direct MP3 decoder is spawned with [-b budget]. *)
Definition mpg123_budget_event (budget : Z) (e : event) : bool :=
  match e with
  | Spawned _ Mpg123 argv =>
      match arg_after "-b" argv with
      | Some v => String.eqb v (str budget)
      | None => false
      end
  | _ => true
  end.

(** An event that is neither the call nor the return of a launcher. *)
Definition plain_event (e : event) : bool :=
  match e with
  | Called _ _ _ _ | Returned _ _ => false
  | _ => true
  end.

Definition any_event (e : event) : bool := true.

(** [m] only adds events that satisfy [P] to the trace. *)
Definition only (P : event -> bool) {A} (m : M A) : Prop :=
  forall w, exists new, trace (snd (m w)) = new ++ trace w /\ forallb P new = true.

(** [m] never raises. *)
Definition total {A} (m : M A) : Prop := forall w, exists a w', m w = (Val a, w').

(** [m] returns a boolean and logs exactly one launch, that of [f], with
    that boolean as its outcome. *)
Definition launches (f : launcher) (m : M bool) : Prop :=
  forall w, exists r w' new,
    m w = (Val r, w') /\ trace w' = new ++ trace w /\ attempts new = [(f, r)].

(** [m] adds events to the trace whose launches, with the outcome of [m],
    satisfy [Q]. *)
Definition post {A} (m : M A) (Q : outcome A -> list (launcher * bool) -> bool) : Prop :=
  forall w, exists new,
    trace (snd (m w)) = new ++ trace w /\ Q (fst (m w)) (attempts new) = true.

(** The fixed priority order of the backend strategies. *)
Definition priority : list launcher := [StartVlc; StartFfmpeg; StartMpg123].

(** The launches [l] try the strategies of [order] one after the other and
    stop at the first that succeeds: each launch but the last failed, and
    the list ends with a success or with the order exhausted. *)
Fixpoint follows_priority (order : list launcher) (l : list (launcher * bool)) : bool :=
  match l, order with
  | [], [] => true
  | (f, ok) :: rest, g :: order' =>
      launcher_eqb f g &&
      (if ok then match rest with [] => true | _ => false end
       else follows_priority order' rest)
  | _, _ => false
  end.

(** No launch at all, or launches that follow the priority order. *)
Definition relaunch_in_order {A} (_ : outcome A) (l : list (launcher * bool)) : bool :=
  match l with
  | [] => true
  | _ => follows_priority priority l
  end.

(** The start endpoint: the first launch, if any, is the managed player,
    and when it fails nothing else is launched and the response is an error
    with HTTP status 500. *)
Definition vlc_first_or_error (o : outcome response) (l : list (launcher * bool)) : bool :=
  match l with
  | [] => true
  | (f, ok) :: rest =>
      launcher_eqb f StartVlc &&
      (ok || (match rest with [] => true | _ => false end
              && match o with
                 | Val r => negb (success r) && (http_code r =? 500)
                 | Raised => false
                 end))
  end.

(** The backoff after each of [n] consecutive failed relaunches, starting
    from [b]; the loop sleeps for the updated value. *)
Fixpoint backoffs (n : nat) (b : float) : list float :=
  match n with
  | O => []
  | S k => next_backoff b :: backoffs k (next_backoff b)
  end.

(** 1.5, 2.25, 3.375, 5.0625, 7.59375, 10.0, 10.0 *)
Definition backoff_sequence : list float :=
  [lit 15 1; lit 225 2; lit 3375 3; lit 50625 4; lit 759375 5; lit 100 1; lit 100 1].

(** The sequence as the spec words it: 1.0, 1.5, 2.25, 3.375, 5.06, 7.59,
    10.0. *)
Definition claimed_backoff_sequence : list float :=
  [lit 10 1; lit 15 1; lit 225 2; lit 3375 3; lit 506 2; lit 759 2; lit 100 1].

(** ** Properties of levels *)

(** A float that is neither NaN nor negative. *)
Definition nonneg_float (x : float) : bool :=
  match x with
  | S754_nan => false
  | S754_infinity s => negb s
  | S754_finite s _ _ => negb s
  | S754_zero _ => true
  end.

(** Both levels lie in [0.0, 1.0]. *)
Definition levels_in_unit (l : levels) : bool :=
  fle f0_0 (left l) && fle (left l) f1_0 && fle f0_0 (right l) && fle (right l) f1_0.

(** 32767 squared *)
Definition full_scale_square : positive := 1073676289.

(** 32767 / 32768 = 0.999969482421875 *)
Definition full_scale_level : float := Eval vm_compute in fdiv (float_of_int 32767) f32768_0.

(** ** Scenarios *)

Definition env_all_ok : environment :=
  mkEnv (fun _ => true) true (fun _ => true) "plughw:1,0" "plughw:1,0".

Definition env_nothing_installed : environment :=
  mkEnv (fun _ => false) true (fun _ => true) "plughw:1,0" "plughw:1,0".

Definition env_no_vlc : environment :=
  mkEnv (fun p => negb (program_eqb p Cvlc)) true (fun _ => true) "plughw:1,0" "plughw:1,0".

(** Nothing running, nothing configured. *)
Definition world_idle : world :=
  mkWorld [] None None false 0 zero_levels (mkSettings "" "" None None) [].

(** The supervisor wants a stream played and no pipeline exists. *)
Definition world_supervised : world :=
  mkWorld [] None None true 100 zero_levels
          (mkSettings "http://x/stream.mp3" "" (Some (JInt 5)) None) [].

(** Everything is installed; VLC starts, but mpg123 and aplay find the
    output device busy and exit at once: the processes with pids 1, 2 and 3
    of an idle host. *)
Definition env_device_busy : environment :=
  mkEnv (fun _ => true) true (fun pid => negb (Nat.eqb pid 1 || Nat.eqb pid 2 || Nat.eqb pid 3))
        "plughw:1,0" "plughw:1,0".

(** The saved buffer size is not a number. *)
Definition world_bad_settings : world :=
  mkWorld [] None None true 100 zero_levels
          (mkSettings "http://x/stream.mp3" "" (Some JNotInt) None) [].

Definition request_mp3 : start_request :=
  mkRequest "http://x/stream.mp3" "" (Some (JInt 5)) None.

(** The meter as [__main__] starts it, before its first capture. *)
Definition meter_init : meter_state := mkMeter "hw:1,0" 0 0 zero_levels.

(** Two frames of a full-scale square wave, and a capture that returns
    nothing while another capture card is detected. *)
Definition loud_chunk : list byte := encode_s16le [32767; - 32767; 32767; - 32767].

Definition loud_read : meter_obs := mkMeterObs (Captured 0 loud_chunk) "hw:2,0".

Definition empty_read : meter_obs := mkMeterObs (Captured 0 []) "hw:2,0".

(** A capture that raises (a timeout), and one that exits with status 1. *)
Definition raised_read : meter_obs := mkMeterObs CaptureRaised "hw:2,0".

Definition failed_read : meter_obs := mkMeterObs (Captured 1 []) "hw:2,0".

(* ===================================================================== *)
(** * Part I, continued: the code around the decoder                      *)
(* ===================================================================== *)

(** ** Python string methods

    As for [lower] above, the text is ASCII: the definitions below agree
    with Python's on strings whose code points are below 128. *)

(** [c.isspace()] *)
Definition is_space (c : ascii) : bool :=
  let n := nat_of_ascii c in
  (Nat.leb 9 n && Nat.leb n 13) || (Nat.leb 28 n && Nat.leb n 32).

(** [s.lstrip()] *)
Fixpoint lstrip (s : string) : string :=
  match s with
  | EmptyString => EmptyString
  | String c r => if is_space c then lstrip r else s
  end.

(** [s.rstrip(chars)] for the characters that satisfy [drop_char] *)
Fixpoint rstrip_chars (drop_char : ascii -> bool) (s : string) : string :=
  match s with
  | EmptyString => EmptyString
  | String c r =>
      match rstrip_chars drop_char r with
      | EmptyString => if drop_char c then EmptyString else String c EmptyString
      | r' => String c r'
      end
  end.

(** [s.rstrip()] *)
Definition rstrip (s : string) : string := rstrip_chars is_space s.

(** [s.strip()] *)
Definition strip (s : string) : string := rstrip (lstrip s).

(** [s.split(sep)] for a separator of one character *)
Fixpoint split_on (sep : ascii) (s : string) : list string :=
  match s with
  | EmptyString => [EmptyString]
  | String c r =>
      if Ascii.eqb c sep then EmptyString :: split_on sep r
      else match split_on sep r with
           | h :: t => String c h :: t
           | [] => [String c EmptyString]
           end
  end.



(** The ASCII line boundaries of [str.splitlines]. *)
Definition is_linebreak (c : ascii) : bool :=
  let n := nat_of_ascii c in
  (Nat.leb 10 n && Nat.leb n 13) || (Nat.leb 28 n && Nat.leb n 30).

(** [s.splitlines()]; [after_cr] holds just behind a carriage return, where
    a line feed belongs to the same boundary. *)
Fixpoint splitlines_from (after_cr : bool) (s : string) : list string :=
  match s with
  | EmptyString => []
  | String c r =>
      if after_cr && Ascii.eqb c "010" then splitlines_from false r
      else if is_linebreak c then EmptyString :: splitlines_from (Ascii.eqb c "013") r
      else match splitlines_from false r with
           | l :: ls => String c l :: ls
           | [] => [String c EmptyString]
           end
  end.

Definition splitlines (s : string) : list string := splitlines_from false s.

(** [sep.join(parts)] *)
Definition join (sep : string) (parts : list string) : string := String.concat sep parts.

(** [s.endswith(suffix)] *)
Fixpoint endswith (suffix s : string) : bool :=
  String.eqb s suffix
  || match s with
     | EmptyString => false
     | String _ r => endswith suffix r
     end.

(** [c.isdigit()], and [s.isdigit()]: every character a digit, at least
    one character.  Among the code points below 128 the digits are 0 to 9;
    beyond them Python knows digits that [int] does not convert (superscript
    two), which is why statements about [isdigit] are made for ASCII
    text. *)
Definition is_digit (c : ascii) : bool :=
  let n := nat_of_ascii c in Nat.leb 48 n && Nat.leb n 57.

Fixpoint all_chars (p : ascii -> bool) (s : string) : bool :=
  match s with
  | EmptyString => true
  | String c r => p c && all_chars p r
  end.

Definition isdigit (s : string) : bool := nonempty s && all_chars is_digit s.

Definition digit_value (c : ascii) : Z := Z.of_nat (nat_of_ascii c) - 48.

(** The digits of a numeral read from the left, with the single underscores
    Python allows between digits; [acc] is the value so far and
    [after_digit] holds just behind a digit. *)
Fixpoint int_digits (s : string) (acc : Z) (after_digit : bool) : option Z :=
  match s with
  | EmptyString => if after_digit then Some acc else None
  | String c r =>
      if is_digit c then int_digits r (10 * acc + digit_value c) true
      else if Ascii.eqb c "_" && after_digit then
        match r with
        | String c' _ => if is_digit c' then int_digits r acc false else None
        | EmptyString => None
        end
      else None
  end.

(** The longest numeral [int] converts by default
    ([sys.int_max_str_digits]); on a longer one it raises [ValueError].
    [int_of_str] leaves the limit out: statements that convert a text bound
    its length by it. *)
Definition int_max_str_digits : nat := 4300.

(** [int(s)] for a string: [None] is the [ValueError] *)
Definition int_of_str (s : string) : option Z :=
  match strip s with
  | String "-" r => option_map Z.opp (int_digits r 0 false)
  | String "+" r => int_digits r 0 false
  | t => int_digits t 0 false
  end.

(** The binary digits of a positive number, most significant first. *)
Fixpoint bin_digits (p : positive) : string :=
  match p with
  | xH => "1"
  | xO q => bin_digits q ++ "0"
  | xI q => bin_digits q ++ "1"
  end.

(** [format(n, '08b')]: sign, then zeros up to a width of eight, then the
    binary digits. *)
Definition format_08b (n : Z) : string :=
  let digits := match n with
                | Z0 => "0"%string
                | Zpos p | Zneg p => bin_digits p
                end in
  let sign := if n <? 0 then "-"%string else ""%string in
  let width := (String.length sign + String.length digits)%nat in
  (sign ++ concat "" (repeat "0"%string (8 - width)) ++ digits)%string.

(** The characters of [s] all differ from [e]: a predicate for
    [all_chars]. *)
Definition is_not (e : ascii) (c : ascii) : bool := negb (Ascii.eqb c e).


(** Text whose code points are all below 128, on which the methods above
    are Python's. *)
Definition is_ascii_char (c : ascii) : bool := Nat.ltb (nat_of_ascii c) 128.

Definition ascii_text (s : string) : bool := all_chars is_ascii_char s.

Definition nl : string := String "010" EmptyString.

(** The lines of a text, each ended by a line feed. *)
Fixpoint unlines (ls : list string) : string :=
  match ls with
  | [] => EmptyString
  | l :: r => (l ++ nl ++ unlines r)%string
  end.

(** ** Netmasks ([cidr_to_netmask], [netmask_to_cidr]) *)

(** [cidr_to_netmask]; [None] is the [ValueError] of a negative shift
    count. *)
Definition cidr_to_netmask (cidr : Z) : option string :=
  if 32 - cidr <? 0 then None
  else
    let mask := Z.shiftl (Z.shiftr 4294967295 (32 - cidr)) (32 - cidr) in
    Some (join "." (map (fun i => str (Z.land (Z.shiftr mask (8 * (3 - i))) 255))
                        [0; 1; 2; 3])).

(** [[f(x) for x in xs]] where [f] may raise *)
Fixpoint map_raising {A B} (f : A -> option B) (xs : list A) : option (list B) :=
  match xs with
  | [] => Some []
  | x :: r =>
      match f x with
      | Some y => option_map (cons y) (map_raising f r)
      | None => None
      end
  end.

(** [netmask_to_cidr]; [None] is the [ValueError] of [int(part)]. *)
Definition netmask_to_cidr (netmask : string) : option string :=
  let parts := split_on "." netmask in
  match map_raising (fun part => option_map format_08b (int_of_str part)) parts with
  | Some bits =>
      let binary := join "" bits in
      Some (str (Z.of_nat (String.length (rstrip_chars (Ascii.eqb "0") binary))))
  | None => None
  end.

(** Among the eight bits of an octet, counted from the most significant
    one, the position of the last bit that is set; 0 when none is.
    [trailing_zeros] counts the zero bits below the lowest bit set. *)
Fixpoint trailing_zeros (p : positive) : Z :=
  match p with
  | xO q => 1 + trailing_zeros q
  | _ => 0
  end.

Definition last_one (octet : Z) : Z :=
  match octet with
  | Zpos p => 8 - trailing_zeros p
  | _ => 0
  end.

(** The netmask [a.b.c.d] *)
Definition dotted (a b c d : Z) : string :=
  (str a ++ "." ++ str b ++ "." ++ str c ++ "." ++ str d)%string.

(** [len(binary.rstrip('0'))] *)
Definition significant_bits (binary : string) : nat :=
  String.length (rstrip_chars (Ascii.eqb "0") binary).

(** What the proofs need of one octet, checked on all 256 of them. *)
Definition octet_facts (x : Z) : bool :=
  all_chars (is_not ".") (str x)
  && match int_of_str (str x) with Some y => y =? x | None => false end
  && Nat.eqb (String.length (format_08b x)) 8
  && (Z.of_nat (significant_bits (format_08b x)) =? last_one x)
  && Bool.eqb (last_one x =? 0) (x =? 0).

(** The round trip of one prefix length, as a boolean. *)
Definition netmask_round_trips (cidr : Z) : bool :=
  match cidr_to_netmask cidr with
  | Some netmask =>
      match netmask_to_cidr netmask with
      | Some c => String.eqb c (str cidr)
      | None => false
      end
  | None => false
  end.

(** ** The encoder configuration file ([load_config], [save_config]) *)

(** The dictionary [load_config] returns. *)
Record config := mkConfig {
  cfg_server : string;
  cfg_port : string;
  cfg_password : string;
  cfg_mountPoint : string;
  cfg_bitrate : string;
  cfg_sampleRate : string;
  cfg_device : string;
  cfg_streamName : string;
  cfg_bufferSecs : string
}.

Definition default_config : config :=
  mkConfig "localhost" "8000" "" "/stream" "128" "44100" "hw:1,0" "Momento Stream" "10".

Definition set_server (v : string) (c : config) : config :=
  mkConfig v (cfg_port c) (cfg_password c) (cfg_mountPoint c) (cfg_bitrate c)
           (cfg_sampleRate c) (cfg_device c) (cfg_streamName c) (cfg_bufferSecs c).
Definition set_port (v : string) (c : config) : config :=
  mkConfig (cfg_server c) v (cfg_password c) (cfg_mountPoint c) (cfg_bitrate c)
           (cfg_sampleRate c) (cfg_device c) (cfg_streamName c) (cfg_bufferSecs c).
Definition set_password (v : string) (c : config) : config :=
  mkConfig (cfg_server c) (cfg_port c) v (cfg_mountPoint c) (cfg_bitrate c)
           (cfg_sampleRate c) (cfg_device c) (cfg_streamName c) (cfg_bufferSecs c).
Definition set_mountPoint (v : string) (c : config) : config :=
  mkConfig (cfg_server c) (cfg_port c) (cfg_password c) v (cfg_bitrate c)
           (cfg_sampleRate c) (cfg_device c) (cfg_streamName c) (cfg_bufferSecs c).
Definition set_bitrate (v : string) (c : config) : config :=
  mkConfig (cfg_server c) (cfg_port c) (cfg_password c) (cfg_mountPoint c) v
           (cfg_sampleRate c) (cfg_device c) (cfg_streamName c) (cfg_bufferSecs c).
Definition set_sampleRate (v : string) (c : config) : config :=
  mkConfig (cfg_server c) (cfg_port c) (cfg_password c) (cfg_mountPoint c) (cfg_bitrate c)
           v (cfg_device c) (cfg_streamName c) (cfg_bufferSecs c).
Definition set_device (v : string) (c : config) : config :=
  mkConfig (cfg_server c) (cfg_port c) (cfg_password c) (cfg_mountPoint c) (cfg_bitrate c)
           (cfg_sampleRate c) v (cfg_streamName c) (cfg_bufferSecs c).
Definition set_streamName (v : string) (c : config) : config :=
  mkConfig (cfg_server c) (cfg_port c) (cfg_password c) (cfg_mountPoint c) (cfg_bitrate c)
           (cfg_sampleRate c) (cfg_device c) v (cfg_bufferSecs c).
Definition set_bufferSecs (v : string) (c : config) : config :=
  mkConfig (cfg_server c) (cfg_port c) (cfg_password c) (cfg_mountPoint c) (cfg_bitrate c)
           (cfg_sampleRate c) (cfg_device c) (cfg_streamName c) v.

(** [line.split('=')[1].strip()], for a line that holds an equals sign *)
Definition value_of (line : string) : string :=
  strip (nth 1 (split_on "=" line) EmptyString).

(** Lines 812-830: one line of the file. *)
Definition load_line (c : config) (line : string) : config :=
  let line := strip line in
  if contains "server =" line then set_server (value_of line) c
  else if contains "port =" line then set_port (value_of line) c
  else if contains "password =" line then set_password (value_of line) c
  else if contains "mountPoint =" line then set_mountPoint (value_of line) c
  else if contains "bitrate =" line then set_bitrate (value_of line) c
  else if contains "sampleRate =" line then set_sampleRate (value_of line) c
  else if contains "device =" line then set_device (value_of line) c
  else if contains "name =" line then set_streamName (value_of line) c
  else if contains "bufferSecs =" line then set_bufferSecs (value_of line) c
  else c.

(** What [f.read()] returns for a file opened in text mode, as a function of
    what the file holds: universal newlines turn a carriage return, together
    with the line feed that follows it if there is one, into one line
    feed. *)
Fixpoint universal_newlines (s : string) : string :=
  match s with
  | EmptyString => EmptyString
  | String c r =>
      if Ascii.eqb c "013" then
        String "010"
          match r with
          | String c' r' => if Ascii.eqb c' "010" then universal_newlines r'
                            else universal_newlines r
          | EmptyString => EmptyString
          end
      else String c (universal_newlines r)
  end.

(** [load_config]; [file] is what darkice.conf holds, [None] when the file
    does not exist or cannot be read. *)
Definition load_config (file : option string) : config :=
  match file with
  | None => default_config
  | Some held =>
      let content := universal_newlines held in
      fold_left load_line (split_on "010" content) default_config
  end.

(** The JSON object posted to [/api/config]: each value as [str] shows it,
    [None] for a key that is absent. *)
Record config_request := mkConfigRequest {
  rq_server : option string;
  rq_port : option string;
  rq_password : option string;
  rq_mountPoint : option string;
  rq_bitrate : option string;
  rq_sampleRate : option string;
  rq_device : option string;
  rq_streamName : option string;
  rq_bufferSecs : option string
}.

(** Lines 841-845: the buffer size that is written; [None] is the
    [ValueError] of [int].  On ASCII text [isdigit] leaves [int] nothing to
    raise on but the length of the numeral, see [int_max_str_digits]. *)
Definition saved_buffer_secs (bufferSecs : option string) : option string :=
  let buffer_secs := strip (match bufferSecs with Some v => v | None => "10"%string end) in
  let buffer_secs := if negb (nonempty buffer_secs) || negb (isdigit buffer_secs)
                     then "5"%string else buffer_secs in
  option_map (fun n => str (Z.max 1 (Z.min 60 n))) (int_of_str buffer_secs).

(** Lines 847-873: the text of the file. *)
Definition config_content (buffer_secs device sampleRate bitrate server port password
                           mountPoint streamName : string) : string :=
  unlines
    ["[general]";
     "duration = 0";
     "bufferSecs = " ++ buffer_secs;
     "reconnect = yes";
     "reconnectDelay = 5";
     "logLevel = 2";
     "";
     "[input]";
     "device = " ++ device;
     "sampleRate = " ++ sampleRate;
     "bitsPerSample = 16";
     "channel = 2";
     "";
     "[icecast2-0]";
     "bitrateMode = cbr";
     "bitrate = " ++ bitrate;
     "format = mp3";
     "server = " ++ server;
     "port = " ++ port;
     "password = " ++ password;
     "mountPoint = " ++ mountPoint;
     "name = " ++ streamName;
     "description = Audio stream from Momento";
     "genre = Various";
     "url = http://" ++ server;
     "public = yes"]%string.

(** [save_config]: the text written to darkice.conf; [None] is the
    [KeyError] of a key the template reads with [config[...]], raised before
    the file is opened. *)
Definition save_config (config : config_request) : option string :=
  match saved_buffer_secs (rq_bufferSecs config),
        rq_device config, rq_sampleRate config, rq_bitrate config, rq_server config,
        rq_port config, rq_password config, rq_mountPoint config, rq_streamName config with
  | Some buffer_secs, Some device, Some sampleRate, Some bitrate, Some server,
    Some port, Some password, Some mountPoint, Some streamName =>
      Some (config_content buffer_secs device sampleRate bitrate server port password
                           mountPoint streamName)
  | _, _, _, _, _, _, _, _, _ => None
  end.

Definition request_of (c : config) : config_request :=
  mkConfigRequest (Some (cfg_server c)) (Some (cfg_port c)) (Some (cfg_password c))
                  (Some (cfg_mountPoint c)) (Some (cfg_bitrate c)) (Some (cfg_sampleRate c))
                  (Some (cfg_device c)) (Some (cfg_streamName c)) (Some (cfg_bufferSecs c)).

(** A value that survives the file: no equals sign, no line feed, no white
    space at either end. *)
Definition plain_char (c : ascii) : bool := negb (Ascii.eqb c "=") && negb (Ascii.eqb c "010").

Definition survives (v : string) : bool := all_chars plain_char v && String.eqb (strip v) v.


(** ASCII text without a carriage return, which reading the file in text
    mode would turn into a line feed. *)
Definition text_char (c : ascii) : bool := is_ascii_char c && negb (Ascii.eqb c "013").

Definition plain_text (v : string) : bool := all_chars text_char v.

(** A configuration that survives the file: the eight settings other than
    the buffer size are plain text and survive their line; the buffer size
    is ASCII text no longer than [int] converts. *)
Definition config_survives (c : config) : bool :=
  survives (cfg_server c) && survives (cfg_port c) && survives (cfg_password c)
  && survives (cfg_mountPoint c) && survives (cfg_bitrate c) && survives (cfg_sampleRate c)
  && survives (cfg_device c) && survives (cfg_streamName c)
  && forallb plain_text
       [cfg_server c; cfg_port c; cfg_password c; cfg_mountPoint c; cfg_bitrate c;
        cfg_sampleRate c; cfg_device c; cfg_streamName c]
  && ascii_text (cfg_bufferSecs c)
  && (String.length (cfg_bufferSecs c) <=? int_max_str_digits)%nat.

(** What [strip] leaves behind the equals sign of a line [key = value]. *)
Definition tail_of (v : string) : string :=
  if nonempty v then (" " ++ v)%string else ""%string.

(** Whether [load_line] finds one of its keys in the line. *)
Definition mentions_key (line : string) : bool :=
  let line := strip line in
  contains "server =" line || contains "port =" line || contains "password =" line
  || contains "mountPoint =" line || contains "bitrate =" line
  || contains "sampleRate =" line || contains "device =" line || contains "name =" line
  || contains "bufferSecs =" line.

(** ** Regular expressions

    The patterns of this program are sequences of single characters or
    character classes, each taken once or repeated, with at most one
    capture group.  Repetition is greedy and gives back characters when the
    rest of the pattern fails, as in Python's [re]. *)

Inductive quantifier := Once | OneOrMore | ZeroOrMore.

Inductive regex_item :=
| Chars (class : ascii -> bool) (q : quantifier)
| GroupOpen
| GroupClose.

(** Where capture group 1 opened and closed: the text that was left at
    either point. *)
Definition group := (option string * option string)%type.

(** [class*] followed by [rest], longest repetition first *)
Fixpoint repeat_then {R} (class : ascii -> bool) (rest : string -> option R) (s : string)
  : option R :=
  match s with
  | EmptyString => rest s
  | String c r =>
      if class c then
        match repeat_then class rest r with
        | Some m => Some m
        | None => rest s
        end
      else rest s
  end.

(** The pattern matched at the start of [s]: what is left of [s] behind the
    match, and the group. *)
Fixpoint match_here (pattern : list regex_item) (g : group) (s : string)
  : option (string * group) :=
  match pattern with
  | [] => Some (s, g)
  | Chars class Once :: pattern' =>
      match s with
      | String c r => if class c then match_here pattern' g r else None
      | EmptyString => None
      end
  | Chars class OneOrMore :: pattern' =>
      match s with
      | String c r => if class c then repeat_then class (match_here pattern' g) r else None
      | EmptyString => None
      end
  | Chars class ZeroOrMore :: pattern' => repeat_then class (match_here pattern' g) s
  | GroupOpen :: pattern' => match_here pattern' (Some s, snd g) s
  | GroupClose :: pattern' => match_here pattern' (fst g, Some s) s
  end.


(** [re.search(pattern, s)]: the leftmost match *)
Fixpoint re_search (pattern : list regex_item) (s : string) : option (string * group) :=
  match match_here pattern (None, None) s with
  | Some m => Some m
  | None =>
      match s with
      | EmptyString => None
      | String _ r => re_search pattern r
      end
  end.

(** [m.group(1)] *)
Definition group1 (m : string * group) : string :=
  match snd m with
  | (Some opened, Some closed) =>
      substring 0 (String.length opened - String.length closed) opened
  | _ => EmptyString
  end.

(** A literal character, and the same under [re.IGNORECASE]. *)
Definition lit_char (c : ascii) : ascii -> bool := Ascii.eqb c.
Definition lit_char_i (c : ascii) : ascii -> bool :=
  fun x => Ascii.eqb (lower_ascii x) (lower_ascii c).





(** ** Device detection ([_detect_default_devices]) *)

(** What [subprocess.run(..., capture_output=True, text=True)] returns. *)
Record completed := mkCompleted {
  returncode : Z;
  stdout : string
}.

(** The pattern [r'card\\s+(\\d+)'] under [re.IGNORECASE].  In a raw string
    the two backslashes stay two characters, which the pattern language
    reads as one literal backslash: the pattern is the letters c, a, r, d, a
    backslash, one or more s, and as group 1 a backslash and one or more
    d. *)
Definition card_re : list regex_item :=
  [Chars (lit_char_i "c") Once; Chars (lit_char_i "a") Once; Chars (lit_char_i "r") Once;
   Chars (lit_char_i "d") Once; Chars (lit_char "\") Once; Chars (lit_char_i "s") OneOrMore;
   GroupOpen; Chars (lit_char "\") Once; Chars (lit_char_i "d") OneOrMore; GroupClose].

(** The first loop over the lines: the first USB card line the pattern
    finds a card number in. *)
Fixpoint first_usb_card (lines : list string) : option string :=
  match lines with
  | [] => None
  | line :: rest =>
      let line_l := lower line in
      if String.prefix "card " (strip line_l) && contains "usb" line_l then
        match re_search card_re line with
        | Some m => Some (group1 m)
        | None => first_usb_card rest
        end
      else first_usb_card rest
  end.

(** The second loop: the first line the pattern finds a card number in. *)
Fixpoint first_card (lines : list string) : option string :=
  match lines with
  | [] => None
  | line :: rest =>
      match re_search card_re line with
      | Some m => Some (group1 m)
      | None => first_card rest
      end
  end.

(** The card number one listing yields. *)
Definition detected_card (listing : completed) : option string :=
  let lines := splitlines (stdout listing) in
  match first_usb_card lines with
  | Some card => Some card
  | None => first_card lines
  end.

Record default_devices := mkDefaults {
  default_input : string;
  default_output : string
}.

(** [_detect_default_devices]; [arecord_l] and [aplay_l] are what
    [arecord -l] and [aplay -l] answer, [None] when [subprocess.run]
    raises (the program is missing or exceeds its timeout). *)
Definition _detect_default_devices (arecord_l aplay_l : option completed) : default_devices :=
  let defaults := mkDefaults "hw:1,0" "default" in
  match arecord_l with
  | None => defaults
  | Some r =>
      let defaults :=
        if returncode r =? 0 then
          match detected_card r with
          | Some input_card =>
              mkDefaults ("hw:" ++ input_card ++ ",0") (default_output defaults)
          | None => defaults
          end
        else defaults in
      match aplay_l with
      | None => defaults
      | Some r =>
          if returncode r =? 0 then
            match detected_card r with
            | Some output_card =>
                mkDefaults (default_input defaults) ("plughw:" ++ output_card ++ ",0")
            | None => mkDefaults (default_input defaults) "default"
            end
          else defaults
      end
  end.


(** ** The output device of a start request ([choose_output_device_fallback]) *)






(** A listing that holds no backslash (or a program that did not
    answer). *)
Definition plain_listing (answer : option completed) : bool :=
  match answer with
  | Some r => all_chars (is_not "\") (stdout r)
  | None => true
  end.

(** ** Playlists ([parse_m3u_playlist]) *)

(** Lines 1138-1147: the first entry of the playlist. *)
Fixpoint first_playlist_entry (url : string) (lines : list string) : option string :=
  match lines with
  | [] => None
  | line :: rest =>
      let line := strip line in
      if nonempty line && negb (String.prefix "#" line) then
        if String.prefix "http://" line || String.prefix "https://" line then Some line
        else if String.prefix "http" url then
          let base_url := join "/" (removelast (split_on "/" url)) in
          Some (base_url ++ "/" ++ line)%string
        else first_playlist_entry url rest
      else first_playlist_entry url rest
  end.

(** [parse_m3u_playlist]; [fetched] is the decoded body of the playlist,
    [None] when opening or reading the URL raises. *)
Definition parse_m3u_playlist (url : string) (fetched : option string) : string :=
  match fetched with
  | None => url
  | Some content =>
      match first_playlist_entry url (split_on "010" content) with
      | Some stream => stream
      | None => url
      end
  end.

(** A line of the playlist that is blank or a comment. *)
Definition skipped_line (line : string) : bool :=
  negb (nonempty (strip line)) || String.prefix "#" (strip line).


(** ** The saved decoder configuration
       ([api_save_decoder_config], [api_get_decoder_config]) *)

(** The ['decoder'] object of status.json, each key present or absent.  A
    missing file, an unreadable one and one without the object all read as
    the empty object. *)
Record decoder_file := mkDecoderFile {
  df_url : option string;
  df_outputDevice : option string;
  df_volume : option jvalue;
  df_bufferSecs : option jvalue;
  df_playbackCacheSecs : option jvalue
}.

Definition empty_decoder_file : decoder_file := mkDecoderFile None None None None None.

(** The JSON body posted to [/api/decoder/config]: [url] and
    [outputDevice] as [str] shows them, [None] for an absent key; the three
    numbers are [None] when absent or null. *)
Record decoder_payload := mkDecoderPayload {
  dp_url : option string;
  dp_outputDevice : option string;
  dp_volume : option jvalue;
  dp_bufferSecs : option jvalue;
  dp_playbackCacheSecs : option jvalue
}.

Inductive config_message := ConfigSaved | ConfigSaveFailed | ConfigError.

Record config_response := mkConfigResponse {
  cr_success : bool;
  cr_code : Z;
  cr_message : config_message
}.

(** [int(v)] where [v is not None]: [Some None] for a value that is not
    given, [None] when [int] raises. *)
Definition int_if_given (v : option jvalue) : option (option Z) :=
  match v with
  | None => Some None
  | Some j => option_map Some (int_of_jvalue j)
  end.

Definition or_empty (v : option string) : string :=
  match v with Some s => s | None => EmptyString end.

(** [api_save_decoder_config]: the response and the object that
    status.json holds afterwards; [writable] is whether [save_status]
    succeeds. *)
Definition api_save_decoder_config (payload : decoder_payload) (writable : bool)
    (st : decoder_file) : config_response * decoder_file :=
  let url_val := strip (or_empty (dp_url payload)) in
  let out_dev := strip (or_empty (dp_outputDevice payload)) in
  match int_if_given (dp_volume payload),
        int_if_given (dp_bufferSecs payload),
        int_if_given (dp_playbackCacheSecs payload) with
  | Some volume_val, Some buffer_secs_val, Some playback_cache_secs_val =>
      let st' :=
        mkDecoderFile
          (if nonempty url_val then Some url_val else df_url st)
          (if nonempty out_dev then Some out_dev else df_outputDevice st)
          (match volume_val with
           | Some v => Some (JInt v)
           | None => df_volume st
           end)
          (match buffer_secs_val with
           | Some b => Some (JInt (Z.max 5 (Z.min 120 b)))
           | None => df_bufferSecs st
           end)
          (match playback_cache_secs_val with
           | Some c => Some (JInt (Z.max 0 (Z.min 30 c)))
           | None => df_playbackCacheSecs st
           end) in
      if writable then (mkConfigResponse true 200 ConfigSaved, st')
      else (mkConfigResponse false 500 ConfigSaveFailed, st)
  | _, _, _ => (mkConfigResponse false 500 ConfigError, st)
  end.



(** The saved object as the start endpoint and the supervisor loop read it:
    [dec.get('url', '')], [dec.get('outputDevice', '')] and the two buffer
    settings. *)
Definition settings_of (st : decoder_file) : decoder_settings :=
  mkSettings (or_empty (df_url st)) (or_empty (df_outputDevice st))
             (df_bufferSecs st) (df_playbackCacheSecs st).

(** ** Further properties of traces and runs *)

(** Every value [m] returns satisfies [P]. *)
Definition returns {A} (P : A -> Prop) (m : M A) : Prop :=
  forall w a w', m w = (Val a, w') -> P a.

(** The values the supervisor's backoff takes: 1.0, 1.5, 2.25, 3.375,
    5.0625, 7.59375 and 10.0. *)
Definition backoff_values : list float :=
  [lit 10 1; lit 15 1; lit 225 2; lit 3375 3; lit 50625 4; lit 759375 5; lit 100 1].

(** A launcher is called with a buffer of 1 to 60 seconds and a playback
    cache of 0 to 10 seconds. *)
Definition bounded_launch_event (e : event) : bool :=
  match e with
  | Called _ _ buffer_secs playback_cache_secs =>
      (1 <=? buffer_secs) && (buffer_secs <=? 60)
      && (0 <=? playback_cache_secs) && (playback_cache_secs <=? 10)
  | _ => true
  end.

(** The bytes the pump wrote to the output stage, in order. *)
Definition written (evs : list pump_event) : list byte :=
  flat_map (fun e => match e with Wrote data => data | _ => [] end) evs.

(** Every write of the pump carries between 1 and [chunk_size] bytes. *)
Definition chunk_sized (e : pump_event) : bool :=
  match e with
  | Wrote data =>
      (0 <? Z.of_nat (List.length data)) && (Z.of_nat (List.length data) <=? chunk_size)
  | _ => true
  end.

(** What the pump reads from the decoder in a pass that finds the cache
    empty. *)
Definition fresh_chunk (o : pump_obs) : list byte := take chunk_size (obs_read o).

(** The passes the pump needs to play a cache: one for every [chunk_size]
    bytes, the last one possibly shorter. *)
Definition cache_passes (cache_buffer : list byte) : nat :=
  Z.to_nat ((Z.of_nat (List.length cache_buffer) + chunk_size - 1) / chunk_size).

(** The fallback device of a pass of the meter is what
    [_detect_default_devices] finds in listings without a backslash. *)
Definition detects_from_plain_listings (o : meter_obs) : Prop :=
  exists arecord_l aplay_l,
    plain_listing arecord_l = true /\ plain_listing aplay_l = true
    /\ obs_fallback_input o = default_input (_detect_default_devices arecord_l aplay_l).

(** The tracked pipeline is up: the decoding process is running, and so is
    the output stage when there is one (the test of lines 257-271 and of
    [get_decoder_status]). *)
Definition pipeline_up (w : world) : bool :=
  match decoder_process w with
  | Some h =>
      is_alive w h
      && match decoder_aplay_process w with
         | Some a => is_alive w a
         | None => true
         end
  | None => false
  end.

(** When [m] returns true, the world it leaves satisfies [Q]. *)
Definition on_success (Q : world -> bool) (m : M bool) : Prop :=
  forall w w', m w = (Val true, w') -> Q w' = true.

(** Half of [seconds], as a float. *)
Definition half_of (seconds : Z) : float := fmul (float_of_int seconds) f0_5.

(** [buffer_wait_time] of line 411, as [_start_vlc_player] computes it. *)
Definition buffer_wait_time (buffer_secs playback_cache_secs : Z) : float :=
  let live_cache_ms :=
    Z.max 10000 (Z.min 120000 ((buffer_secs + playback_cache_secs) * 1000)) in
  py_max f5_0 (fmul (fdiv (float_of_int live_cache_ms) f1000_0) f0_5).

(** The same float, bit for bit. *)
Definition float_same (x y : float) : bool :=
  match x, y with
  | S754_zero s, S754_zero t => Bool.eqb s t
  | S754_infinity s, S754_infinity t => Bool.eqb s t
  | S754_nan, S754_nan => true
  | S754_finite s m e, S754_finite t n f => Bool.eqb s t && Pos.eqb m n && Z.eqb e f
  | _, _ => false
  end.

(** What the proofs need of the wait for one sum of buffer and cache
    seconds. *)
Definition wait_facts (total : Z) : bool :=
  float_same
    (py_max f5_0
       (fmul (fdiv (float_of_int (Z.max 10000 (Z.min 120000 (total * 1000)))) f1000_0) f0_5))
    (half_of (Z.max 10 total))
  && fle f5_0 (half_of (Z.max 10 total))
  && fle (half_of (Z.max 10 total)) (float_of_int 35).

(* ===================================================================== *)
(** * Part II: theorems                                                   *)
(* ===================================================================== *)

(** ** Checking a boolean property on an interval of [Z] *)

Lemma forallb_range_Z (P : Z -> bool) (lo : Z) (n : nat) :
  forallb P (range_Z lo n) = true ->
  forall v, lo <= v < lo + Z.of_nat n -> P v = true.
Proof.
  intros Hall v Hv.
  rewrite forallb_forall in Hall. apply Hall.
  unfold range_Z. apply in_map_iff.
  exists (Z.to_nat (v - lo)). split; [lia|].
  apply in_seq. lia.
Qed.

(** ** C3: native player volume *)

(** C3 (claim as stated, refuted): at volume 1 the code passes
    [int(2.56) = 2] to the player, whereas [round(2.56) = 3]. *)
Lemma C3_counterexample :
  0 <= 1 <= 100 /\ vlc_volume 1 = Some 2 /\ native_volume_spec 1 = Some 3
  /\ vlc_volume 1 <> native_volume_spec 1.
Proof.
  repeat split; try lia; try (vm_compute; congruence).
Qed.

(** C3 (amended): for every volume in [0,100] the native volume passed to
    the managed player is [volume * 2.56] truncated toward zero, that is
    [floor(256 * volume / 100)], and it lies in [0,256]. *)
Theorem C3_vlc_volume_truncates (volume : Z) :
  0 <= volume <= 100 ->
  vlc_volume volume = Some (256 * volume / 100)
  /\ 0 <= 256 * volume / 100 <= 256.
Proof.
  intros Hv. split.
  - pose (P := fun v => match vlc_volume v with
                        | Some n => n =? 256 * v / 100
                        | None => false
                        end).
    assert (HP : P volume = true).
    { apply (forallb_range_Z P 0 101); [vm_compute; reflexivity | lia]. }
    unfold P in HP. destruct (vlc_volume volume); [|discriminate].
    apply Z.eqb_eq in HP. congruence.
  - split.
    + apply Z.div_pos; lia.
    + apply Z.div_le_upper_bound; lia.
Qed.

Lemma C3_vlc_volume_truncates_witness :
  0 <= 99 <= 100 /\ vlc_volume 99 = Some 253 /\ 0 <= 256 * 99 / 100 <= 256.
Proof.
  split; [lia|]. apply (C3_vlc_volume_truncates 99). lia.
Defined.

(** ** Reasoning about traces *)

Section OnlyRules.
Variable P : event -> bool.

Lemma only_ret {A} (a : A) : only P (ret a).
Proof. intros w. exists []. split; reflexivity. Qed.

Lemma only_raise {A} : only P (@raise A).
Proof. intros w. exists []. split; reflexivity. Qed.

Lemma only_get {A} (f : world -> A) : only P (get f).
Proof. intros w. exists []. split; reflexivity. Qed.

Lemma only_modify (f : world -> world) :
  (forall w, trace (f w) = trace w) -> only P (modify f).
Proof. intros H w. exists []. split; [cbn; apply H | reflexivity]. Qed.

Lemma only_emit (e : event) : P e = true -> only P (emit e).
Proof. intros H w. exists [e]. split; [reflexivity | cbn; now rewrite H]. Qed.

Lemma only_bind {A B} (m : M A) (k : A -> M B) :
  only P m -> (forall a, only P (k a)) -> only P (bind m k).
Proof.
  intros Hm Hk w. unfold bind.
  destruct (Hm w) as [n1 [E1 F1]].
  destruct (m w) as [[a|] w1]; cbn in E1.
  - destruct (Hk a w1) as [n2 [E2 F2]].
    exists (n2 ++ n1). split.
    + rewrite E2, E1. now rewrite app_assoc.
    + rewrite forallb_app. now rewrite F1, F2.
  - exists n1. split; assumption.
Qed.

Lemma only_try {A} (m h : M A) : only P m -> only P h -> only P (try_except m h).
Proof.
  intros Hm Hh w. unfold try_except.
  destruct (Hm w) as [n1 [E1 F1]].
  destruct (m w) as [[a|] w1]; cbn in E1.
  - exists n1. split; assumption.
  - destruct (Hh w1) as [n2 [E2 F2]].
    exists (n2 ++ n1). split.
    + rewrite E2, E1. now rewrite app_assoc.
    + rewrite forallb_app. now rewrite F1, F2.
Qed.

Lemma only_of_option {A B} (o : option A) (k : A -> M B) :
  (forall a, o = Some a -> only P (k a)) -> only P (bind (of_option o) k).
Proof.
  intros H. destruct o as [a|].
  - intros w. apply (H a eq_refl w).
  - intros w. exists []. split; reflexivity.
Qed.

Lemma only_popen env p argv :
  (forall pid, P (Spawned pid p argv) = true) -> only P (popen env p argv).
Proof.
  intros H w. unfold popen. destruct (exe_exists env p).
  - exists [Spawned (List.length (procs w)) p argv]. split; [reflexivity|].
    cbn. now rewrite H.
  - exists []. split; reflexivity.
Qed.
End OnlyRules.

Ltac only_side :=
  first [ reflexivity
        | intros; reflexivity
        | intros; assumption
        | intros; cbn; rewrite ?orb_true_r; reflexivity
        | intros; apply String.eqb_refl
        | intros; cbn; assumption ].

(** One step through the syntax of a computation. *)
Ltac only_step :=
  match goal with
  | |- only _ (ret _) => apply only_ret
  | |- only _ raise => apply only_raise
  | |- only _ (get _) => apply only_get
  | |- only _ (poll _) => apply only_get
  | |- only _ (modify _) => apply only_modify; only_side
  | |- only _ (set_decoder_process _) => apply only_modify; only_side
  | |- only _ (set_decoder_aplay_process _) => apply only_modify; only_side
  | |- only _ (set_decoder_should_run _) => apply only_modify; only_side
  | |- only _ (set_decoder_current_volume _) => apply only_modify; only_side
  | |- only _ (persist_request _ _) => apply only_modify; only_side
  | |- only _ (emit _) => apply only_emit; only_side
  | |- only _ (sleep _) => apply only_emit; only_side
  | |- only _ (popen _ _ _) => apply only_popen; only_side
  | |- only _ (bind (of_option _) _) =>
      apply only_of_option;
      let a := fresh "a" in
      let Ha := fresh "Ha" in
      intros a Ha;
      lazymatch type of Ha with
      | vlc_volume 100 = _ => vm_compute in Ha; injection Ha as <-
      | _ => idtac
      end
  | |- only _ (bind _ _) => apply only_bind; [| intros ?]
  | |- only _ (try_except _ _) => apply only_try
  | |- only _ (if ?b then _ else _) => destruct b
  | |- only _ (match ?x with _ => _ end) => destruct x
  | |- only _ (terminate _) => unfold terminate
  | |- only _ (pkill _ _ _) => unfold pkill
  | |- only _ (handle_running _) => unfold handle_running
  | |- only _ (terminate_if_running _) => unfold terminate_if_running
  | |- only _ (attempt _) => unfold attempt
  | |- only _ (call _ _ _ _ _) => unfold call
  | |- only _ _ => progress cbv zeta
  end.

Lemma total_ret {A} (a : A) : total (ret a).
Proof. intros w. now exists a, w. Qed.

Lemma total_get {A} (f : world -> A) : total (get f).
Proof. intros w. now exists (f w), w. Qed.

Lemma total_modify (f : world -> world) : total (modify f).
Proof. intros w. now exists tt, (f w). Qed.

Lemma total_bind {A B} (m : M A) (k : A -> M B) :
  total m -> (forall a, total (k a)) -> total (bind m k).
Proof.
  intros Hm Hk w. unfold bind.
  destruct (Hm w) as [a [w1 E]]. rewrite E. apply Hk.
Qed.

Lemma total_try {A} (m h : M A) : total h -> total (try_except m h).
Proof.
  intros Hh w. unfold try_except.
  destruct (m w) as [[a|] w1].
  - now exists a, w1.
  - apply Hh.
Qed.

Ltac total_step :=
  match goal with
  | |- total (ret _) => apply total_ret
  | |- total (get _) => apply total_get
  | |- total (poll _) => apply total_get
  | |- total (modify _) => apply total_modify
  | |- total (set_decoder_process _) => apply total_modify
  | |- total (set_decoder_aplay_process _) => apply total_modify
  | |- total (set_decoder_should_run _) => apply total_modify
  | |- total (set_decoder_current_volume _) => apply total_modify
  | |- total (persist_request _ _) => apply total_modify
  | |- total (emit _) => apply total_modify
  | |- total (sleep _) => apply total_modify
  | |- total (try_except _ _) => apply total_try
  | |- total (bind _ _) => apply total_bind; [| intros ?]
  | |- total (if ?b then _ else _) => destruct b
  | |- total (match ?x with _ => _ end) => destruct x
  | |- total (handle_running _) => unfold handle_running
  | |- total _ => progress cbv zeta
  end.

Lemma attempts_app (a b : list event) : attempts (a ++ b) = attempts b ++ attempts a.
Proof. unfold attempts. now rewrite flat_map_app, rev_app_distr. Qed.

Lemma attempts_plain (l : list event) : forallb plain_event l = true -> attempts l = [].
Proof.
  unfold attempts. induction l as [|e l IH]; [reflexivity|].
  cbn [forallb flat_map]. intros H. apply andb_prop in H as [He Hl].
  destruct e; try discriminate; cbn; now apply IH.
Qed.

Lemma call_launches f v b p (body : M bool) :
  only plain_event body -> total body -> launches f (call f v b p body).
Proof.
  intros Hp Ht w. unfold call, bind, emit, modify.
  set (w1 := with_trace (Called f v b p :: trace w) w).
  destruct (Ht w1) as [r [w2 E]]. destruct (Hp w1) as [new [Etr Hnew]].
  rewrite E in *. cbn in Etr.
  exists r, (with_trace (Returned f r :: trace w2) w2),
         (Returned f r :: new ++ [Called f v b p]).
  split; [reflexivity|]. split.
  - cbn. rewrite Etr. cbn. now rewrite <- app_assoc.
  - change (Returned f r :: new ++ [Called f v b p])
      with ([Returned f r] ++ new ++ [Called f v b p]).
    rewrite !attempts_app, (attempts_plain new Hnew). reflexivity.
Qed.

Section PostRules.
Context {A : Type}.
Variable Q : outcome A -> list (launcher * bool) -> bool.

Lemma post_ret (a : A) : Q (Val a) [] = true -> post (ret a) Q.
Proof. intros H w. exists []. split; [reflexivity | exact H]. Qed.

Lemma post_quiet (m : M A) :
  only plain_event m -> (forall o, Q o [] = true) -> post m Q.
Proof.
  intros Hm HQ w. destruct (Hm w) as [new [E F]].
  exists new. split; [exact E|]. rewrite (attempts_plain new F). apply HQ.
Qed.

Lemma post_any (m : M A) :
  only any_event m -> (forall o l, Q o l = true) -> post m Q.
Proof.
  intros Hm HQ w. destruct (Hm w) as [new [E F]].
  exists new. split; [exact E | apply HQ].
Qed.

Lemma post_quiet_bind {B} (m : M B) (k : B -> M A) :
  only plain_event m -> Q Raised [] = true ->
  (forall b, post (k b) Q) -> post (bind m k) Q.
Proof.
  intros Hm HR Hk w. unfold bind.
  destruct (Hm w) as [n1 [E1 F1]].
  destruct (m w) as [[b|] w1]; cbn in E1.
  - destruct (Hk b w1) as [n2 [E2 Q2]].
    exists (n2 ++ n1). split.
    + rewrite E2, E1. now rewrite app_assoc.
    + rewrite attempts_app, (attempts_plain n1 F1). exact Q2.
  - exists n1. split; [exact E1|].
    rewrite (attempts_plain n1 F1). exact HR.
Qed.

Lemma post_total_bind {B} (m : M B) (k : B -> M A) :
  only plain_event m -> total m ->
  (forall b, post (k b) Q) -> post (bind m k) Q.
Proof.
  intros Hm Ht Hk w. unfold bind.
  destruct (Hm w) as [n1 [E1 F1]]. destruct (Ht w) as [b [w1 Eb]].
  rewrite Eb in *. cbn in E1.
  destruct (Hk b w1) as [n2 [E2 Q2]].
  exists (n2 ++ n1). split.
  - rewrite E2, E1. now rewrite app_assoc.
  - rewrite attempts_app, (attempts_plain n1 F1). exact Q2.
Qed.

Lemma post_try (m h : M A) :
  post m Q -> only plain_event h ->
  (forall o l, Q Raised l = true -> Q o l = true) ->
  post (try_except m h) Q.
Proof.
  intros Hm Hh HQ w. unfold try_except.
  destruct (Hm w) as [n1 [E1 Q1]].
  destruct (m w) as [[a|] w1]; cbn in E1, Q1.
  - exists n1. split; assumption.
  - destruct (Hh w1) as [n2 [E2 F2]].
    exists (n2 ++ n1). split.
    + rewrite E2, E1. now rewrite app_assoc.
    + rewrite attempts_app, (attempts_plain n2 F2), app_nil_r.
      now apply HQ.
Qed.
End PostRules.

Lemma post_launch_bind {A} (Q : outcome A -> list (launcher * bool) -> bool)
    (f : launcher) (m : M bool) (k : bool -> M A) :
  launches f m ->
  (forall r, post (k r) (fun o l => Q o ((f, r) :: l))) ->
  post (bind m k) Q.
Proof.
  intros Hm Hk w. unfold bind.
  destruct (Hm w) as [r [w1 [n1 [E1 [T1 A1]]]]]. rewrite E1.
  destruct (Hk r w1) as [n2 [E2 Q2]].
  exists (n2 ++ n1). split.
  - rewrite E2, T1. now rewrite app_assoc.
  - rewrite attempts_app, A1. exact Q2.
Qed.

(** ** The launchers: what they log *)

Lemma vlc_launches env url dev v b p :
  launches StartVlc (_start_vlc_player env url dev v b p).
Proof.
  apply call_launches; unfold _start_vlc_player.
  - repeat only_step.
  - repeat total_step.
Qed.

Lemma ffmpeg_launches env url dev v b p :
  launches StartFfmpeg (_start_ffmpeg_pipeline env url dev v b p).
Proof.
  apply call_launches.
  - repeat only_step.
  - repeat total_step.
Qed.

Lemma mpg123_launches env url dev v b p :
  launches StartMpg123 (_start_decoder_process env url dev v b p).
Proof.
  apply call_launches.
  - repeat only_step.
  - repeat total_step.
Qed.

Lemma vlc_full_volume env url dev b p :
  only max_volume_event (_start_vlc_player env url dev 100 b p).
Proof. unfold _start_vlc_player. repeat only_step. Qed.

Lemma ffmpeg_full_volume env url dev b p :
  only max_volume_event (_start_ffmpeg_pipeline env url dev 100 b p).
Proof. unfold _start_ffmpeg_pipeline. repeat only_step. Qed.

Lemma volume_factor_100 : flt (fdiv (float_of_int 100) (float_of_int 100)) f1_0 = false.
Proof. vm_compute. reflexivity. Qed.

Lemma mpg123_full_volume env url dev b p :
  only max_volume_event (_start_decoder_process env url dev 100 b p).
Proof.
  unfold _start_decoder_process.
  rewrite volume_factor_100, andb_false_r.
  repeat only_step.
Qed.

Lemma mpg123_gain_stage env url dev volume b p :
  only (gain_stage_allowed volume) (_start_decoder_process env url dev volume b p).
Proof.
  unfold _start_decoder_process.
  destruct (flt (fdiv (float_of_int volume) (float_of_int 100)) f1_0) eqn:Hf.
  - repeat only_step.
  - rewrite andb_false_r. repeat only_step.
Qed.

Ltac only_launchers :=
  first [ apply vlc_full_volume | apply ffmpeg_full_volume | apply mpg123_full_volume ].

Lemma launch_chain_full_volume env url dev b p :
  only max_volume_event (launch_chain env url dev 100 b p).
Proof. unfold launch_chain. repeat first [ only_launchers | only_step ]. Qed.

Lemma legacy_full_volume env url dev b p :
  only max_volume_event (legacy_fallbacks env url dev 100 b p).
Proof.
  unfold legacy_fallbacks, piping_fallback, inline_cvlc, pulse_fallback.
  repeat first [ only_launchers | only_step ].
Qed.

Lemma start_full_volume env req : only max_volume_event (api_decoder_start env req).
Proof.
  unfold api_decoder_start, start_after_teardown, start_teardown, restart_meter_for,
    start_finish.
  repeat first [ apply legacy_full_volume | only_launchers | only_step ].
Qed.

Lemma supervisor_full_volume env s : only max_volume_event (supervisor_iteration env s).
Proof.
  unfold supervisor_iteration, process_running_check, drop_stale_handles, after_relaunch.
  repeat first [ apply launch_chain_full_volume | only_step ].
Qed.

(** ** C4: mpg123 buffer budget *)

Lemma mpg123_spawned_with_budget env url dev v b p :
  only (mpg123_budget_event (mpg123_buffer_bytes b))
       (_start_decoder_process env url dev v b p).
Proof. unfold _start_decoder_process. repeat only_step. Qed.

(** C4: for every [bufferSecs] in [1,60] the byte budget of the direct MP3
    decoder is [clamp(bufferSecs*176400, 4096, 1048576)]: it is the [-b]
    argument of the command line that [_start_decoder_process] and the
    piping fallback of the start endpoint build, and of every mpg123 process
    [_start_decoder_process] spawns. *)
Theorem C4_mpg123_buffer_budget (path url : string) (buffer_secs : Z) :
  1 <= buffer_secs <= 60 ->
  mpg123_buffer_bytes buffer_secs = clamp (buffer_secs * 176400) 4096 1048576
  /\ nth_error (mpg123_stdout_cmd path buffer_secs url) 3 = Some "-b"%string
  /\ nth_error (mpg123_stdout_cmd path buffer_secs url) 4
     = Some (str (clamp (buffer_secs * 176400) 4096 1048576))
  /\ (forall env dev v p w, exists new,
        trace (snd (_start_decoder_process env url dev v buffer_secs p w)) = new ++ trace w
        /\ forallb (mpg123_budget_event (clamp (buffer_secs * 176400) 4096 1048576)) new
           = true).
Proof.
  intros Hb.
  assert (E : mpg123_buffer_bytes buffer_secs = clamp (buffer_secs * 176400) 4096 1048576).
  { unfold mpg123_buffer_bytes, clamp. lia. }
  split; [exact E|]. split; [reflexivity|]. split.
  - unfold mpg123_stdout_cmd. cbn [nth_error]. now rewrite E.
  - intros env dev v p w. rewrite <- E. apply mpg123_spawned_with_budget.
Qed.

Lemma C4_mpg123_buffer_budget_witness :
  1 <= 5 <= 60
  /\ mpg123_buffer_bytes 5 = clamp (5 * 176400) 4096 1048576
  /\ nth_error (mpg123_stdout_cmd "/usr/bin/mpg123" 5 "http://x/stream.mp3") 4
     = Some "882000"%string.
Proof.
  split; [lia|].
  destruct (C4_mpg123_buffer_budget "/usr/bin/mpg123" "http://x/stream.mp3" 5)
    as [E [_ [A _]]]; [lia|].
  split; [exact E | exact A].
Defined.

(** ** C9: status while supervised *)

(** C9: whenever [decoder_should_run] is true, [get_decoder_status()]
    returns true, and with it the status endpoint reports the decoder as
    running, whatever the process table holds. *)
Theorem C9_status_true_while_supervised (w : world) :
  decoder_should_run w = true ->
  get_decoder_status w = true /\ report_decoder (api_status w) = true.
Proof.
  intros H. unfold api_status, get_decoder_status. cbn. rewrite H. split; reflexivity.
Qed.

Lemma C9_status_true_while_supervised_witness :
  decoder_should_run world_supervised = true
  /\ active_pipelines world_supervised = 0%nat
  /\ get_decoder_status world_supervised = true
  /\ report_decoder (api_status world_supervised) = true.
Proof.
  split; [reflexivity|]. split; [reflexivity|].
  apply (C9_status_true_while_supervised world_supervised). reflexivity.
Defined.

(** ** C10: launches at full volume *)

(** C10: every launch made by the start endpoint or by a pass of the
    supervisor loop calls the backend launch functions with [volume = 100],
    spawns no gain stage and gives the managed player [--volume 256]; and
    the direct MP3 path spawns a gain stage only when
    [volume / 100.0 < 1.0]. *)
Theorem C10_launches_at_full_volume (env : environment) (w : world) :
  (forall req, exists new,
      trace (snd (api_decoder_start env req w)) = new ++ trace w
      /\ forallb max_volume_event new = true)
  /\ (forall s, exists new,
      trace (snd (supervisor_iteration env s w)) = new ++ trace w
      /\ forallb max_volume_event new = true)
  /\ (forall url dev volume b p, exists new,
      trace (snd (_start_decoder_process env url dev volume b p w)) = new ++ trace w
      /\ forallb (gain_stage_allowed volume) new = true).
Proof.
  split; [|split].
  - intros req. apply start_full_volume.
  - intros s. apply supervisor_full_volume.
  - intros url dev volume b p. apply mpg123_gain_stage.
Qed.

(** ** C6: the order of the backend strategies *)

Lemma launch_chain_priority env url dev v b p w :
  exists r w' new,
    launch_chain env url dev v b p w = (Val r, w')
    /\ trace w' = new ++ trace w
    /\ follows_priority priority (attempts new) = true
    /\ r = existsb snd (attempts new).
Proof.
  unfold launch_chain, bind.
  destruct (vlc_launches env url dev v b p w) as [r1 [w1 [n1 [E1 [T1 A1]]]]].
  rewrite E1. destruct r1.
  { exists true, w1, n1. rewrite A1. repeat split; assumption. }
  destruct (ffmpeg_launches env url dev v b p w1) as [r2 [w2 [n2 [E2 [T2 A2]]]]].
  rewrite E2. destruct r2.
  { exists true, w2, (n2 ++ n1). rewrite attempts_app, A1, A2.
    repeat split; try assumption. rewrite T2, T1. now rewrite app_assoc. }
  destruct (mpg123_launches env url dev v b p w2) as [r3 [w3 [n3 [E3 [T3 A3]]]]].
  rewrite E3.
  exists r3, w3, (n3 ++ n2 ++ n1). rewrite !attempts_app, A1, A2, A3.
  destruct r3; (split; [reflexivity|]);
    (split; [rewrite T3, T2, T1; now rewrite !app_assoc|]); split; reflexivity.
Qed.

Lemma after_relaunch_plain s ok : only plain_event (after_relaunch s ok).
Proof. unfold after_relaunch. repeat only_step. Qed.

Lemma relaunch_then_react env url dev v b p s :
  post (success <- launch_chain env url dev v b p ;; after_relaunch s success)
       relaunch_in_order.
Proof.
  intros w. unfold bind.
  destruct (launch_chain_priority env url dev v b p w) as [r [w1 [n1 [E1 [T1 [F1 _]]]]]].
  rewrite E1.
  destruct (after_relaunch_plain s r w1) as [n2 [T2 F2]].
  exists (n2 ++ n1). split.
  - rewrite T2, T1. now rewrite app_assoc.
  - rewrite attempts_app, (attempts_plain n2 F2), app_nil_r.
    unfold relaunch_in_order. destruct (attempts n1); [reflexivity | exact F1].
Qed.

Lemma post_of_option {A B} (Q : outcome B -> list (launcher * bool) -> bool)
    (o : option A) (k : A -> M B) :
  Q Raised [] = true -> (forall a, post (k a) Q) -> post (bind (of_option o) k) Q.
Proof.
  intros HR Hk. destruct o as [a|].
  - intros w. apply (Hk a w).
  - intros w. exists []. split; [reflexivity | exact HR].
Qed.

Lemma supervisor_in_order env s : post (supervisor_iteration env s) relaunch_in_order.
Proof.
  unfold supervisor_iteration.
  apply post_try; [| repeat only_step | intros o l H; exact H].
  apply post_quiet_bind; [repeat only_step | reflexivity | intros dec].
  cbv zeta.
  destruct (negb (nonempty (st_url dec))).
  { apply post_quiet; [repeat only_step | reflexivity]. }
  apply post_quiet_bind;
    [unfold process_running_check; repeat only_step | reflexivity | intros running].
  destruct (negb running).
  - apply post_quiet_bind;
      [unfold drop_stale_handles; repeat only_step | reflexivity | intros _].
    apply post_of_option; [reflexivity | intros bs].
    apply post_of_option; [reflexivity | intros pcs].
    apply relaunch_then_react.
  - apply post_quiet; [repeat only_step | reflexivity].
Qed.

Lemma start_teardown_plain env : only plain_event (start_teardown env).
Proof. unfold start_teardown. repeat only_step. Qed.

Lemma start_finish_plain : only plain_event start_finish.
Proof. unfold start_finish. repeat only_step. Qed.

Lemma vlc_any env url dev v b p : only any_event (_start_vlc_player env url dev v b p).
Proof. unfold _start_vlc_player. repeat only_step. Qed.

Lemma ffmpeg_any env url dev v b p : only any_event (_start_ffmpeg_pipeline env url dev v b p).
Proof. unfold _start_ffmpeg_pipeline. repeat only_step. Qed.

Lemma legacy_any env url dev v b p : only any_event (legacy_fallbacks env url dev v b p).
Proof.
  unfold legacy_fallbacks, piping_fallback, inline_cvlc, pulse_fallback.
  repeat first [ apply vlc_any | apply ffmpeg_any | only_step ].
Qed.

Lemma start_vlc_first env req : post (api_decoder_start env req) vlc_first_or_error.
Proof.
  unfold api_decoder_start, start_after_teardown. cbv zeta.
  apply post_quiet_bind; [apply start_teardown_plain | reflexivity | intros _].
  destruct (negb (nonempty (req_url req))).
  { apply post_ret. reflexivity. }
  apply post_quiet_bind; [repeat only_step | reflexivity | intros _].
  apply post_quiet_bind; [repeat only_step | reflexivity | intros _].
  apply post_quiet_bind; [repeat only_step | reflexivity | intros dec_config].
  apply post_try; [| repeat only_step |].
  2:{ intros o l. destruct l as [|[f ok] rest]; [reflexivity|].
      cbn. destruct (launcher_eqb f StartVlc), ok; cbn; try reflexivity;
        try discriminate.
      destruct rest; discriminate. }
  apply post_quiet_bind; [repeat only_step | reflexivity | intros _].
  apply post_quiet_bind; [repeat only_step | reflexivity | intros _].
  apply post_quiet_bind;
    [unfold restart_meter_for; repeat only_step | reflexivity | intros _].
  apply post_quiet_bind; [repeat only_step | reflexivity | intros dp].
  destruct dp as [h|].
  { apply post_quiet; [apply start_finish_plain | reflexivity]. }
  apply (post_launch_bind _ StartVlc); [apply vlc_launches | intros ok].
  destruct ok.
  - apply post_any; [| reflexivity].
    repeat first [ apply legacy_any | only_step ].
    unfold start_finish. repeat only_step.
  - apply post_total_bind; [repeat only_step | repeat total_step | intros _].
    apply post_ret. reflexivity.
Qed.

(** C6 (claim as stated, refuted): on a host without the managed player
    but with ffmpeg and aplay, the supervisor's relaunch falls through to
    the transcode pipeline and succeeds, whereas the start endpoint stops
    after the failed managed player and answers with an error: its launches
    do not follow the priority order to the first success. *)
Lemma C6_counterexample :
  attempts (trace (snd (launch_chain env_no_vlc "http://x/stream.mp3" "plughw:1,0"
                                     100 5 10 world_idle)))
    = [(StartVlc, false); (StartFfmpeg, true)]
  /\ attempts (trace (snd (api_decoder_start env_no_vlc request_mp3 world_idle)))
    = [(StartVlc, false)]
  /\ fst (api_decoder_start env_no_vlc request_mp3 world_idle)
    = Val (mkResponse false 500 MsgVlcRequired)
  /\ follows_priority priority
       (attempts (trace (snd (api_decoder_start env_no_vlc request_mp3 world_idle))))
    = false.
Proof. repeat split; vm_compute; reflexivity. Qed.

(** C6 (amended): every relaunch of the supervisor loop tries the managed
    player, then the transcode pipeline, then the direct MP3 decoder, stops
    at the first that succeeds and launches a later one only after every
    earlier one failed.  The start endpoint launches the managed player
    first and, when that launch fails, answers with an error (HTTP 500)
    without trying another strategy. *)
Theorem C6_strategy_order (env : environment) (w : world) :
  (forall s, exists new,
      trace (snd (supervisor_iteration env s w)) = new ++ trace w
      /\ relaunch_in_order (fst (supervisor_iteration env s w)) (attempts new) = true)
  /\ (forall url dev v b p, exists new,
      trace (snd (launch_chain env url dev v b p w)) = new ++ trace w
      /\ follows_priority priority (attempts new) = true
      /\ fst (launch_chain env url dev v b p w) = Val (existsb snd (attempts new)))
  /\ (forall req, exists new,
      trace (snd (api_decoder_start env req w)) = new ++ trace w
      /\ vlc_first_or_error (fst (api_decoder_start env req w)) (attempts new) = true).
Proof.
  split; [|split].
  - intros s. apply supervisor_in_order.
  - intros url dev v b p.
    destruct (launch_chain_priority env url dev v b p w) as [r [w' [new [E [T [F R]]]]]].
    exists new. rewrite E. cbn. repeat split; try assumption. now rewrite R.
  - intros req. apply start_vlc_first.
Qed.

(** ** C1: backoff of the supervisor loop *)

Lemma process_running_check_reads (w : world) :
  exists b, process_running_check w = (Val b, w).
Proof.
  unfold process_running_check, bind, get, handle_running, poll, ret.
  destruct (decoder_process w) as [h|]; cbn.
  - destruct (is_alive w h); cbn.
    + destruct (decoder_aplay_process w); cbn; eexists; reflexivity.
    + eexists; reflexivity.
  - eexists; reflexivity.
Qed.

Lemma drop_stale_handles_total : total drop_stale_handles.
Proof. unfold drop_stale_handles. repeat total_step. Qed.

(** A pass of the loop that relaunches, in terms of the relaunch's outcome. *)
Lemma supervisor_iteration_relaunch (env : environment) (s : supervisor_state)
    (w w2 : world) (bs pcs : Z) (ok : bool) :
  nonempty (st_url (status_decoder w)) = true ->
  fst (process_running_check w) = Val false ->
  get_int (st_bufferSecs (status_decoder w)) 10 = Some bs ->
  get_int (st_playbackCacheSecs (status_decoder w)) 3 = Some pcs ->
  launch_chain env (st_url (status_decoder w))
    (if nonempty (st_outputDevice (status_decoder w))
     then st_outputDevice (status_decoder w) else detected_output env)
    100 (Z.max 1 (Z.min 60 bs)) (Z.max 0 (Z.min 10 pcs))
    (snd (drop_stale_handles w)) = (Val ok, w2) ->
  supervisor_iteration env s w = after_relaunch s ok w2.
Proof.
  intros Hurl Hrun Hbs Hpcs Hlaunch.
  destruct (process_running_check_reads w) as [b Eb].
  rewrite Eb in Hrun. cbn in Hrun. injection Hrun as ->.
  destruct (drop_stale_handles_total w) as [[] [w1 Ed]].
  rewrite Ed in Hlaunch. cbn [snd] in Hlaunch.
  unfold supervisor_iteration, try_except.
  unfold bind at 1. unfold get at 1. cbv zeta. rewrite Hurl. cbn [negb].
  unfold bind at 1. rewrite Eb. cbn [negb].
  unfold bind at 1. rewrite Ed.
  unfold bind at 1. rewrite Hbs. cbn [of_option]. unfold ret at 1.
  unfold bind at 1. rewrite Hpcs. cbn [of_option]. unfold ret at 1.
  unfold bind at 1. rewrite Hlaunch.
  unfold after_relaunch. destruct ok; reflexivity.
Qed.

(** A pass of the loop that raises (here: a saved buffer size on which
    [int] raises) takes the [except] branch, which updates the backoff in
    the same way. *)
Lemma supervisor_iteration_raises (env : environment) (s : supervisor_state) :
  supervisor_iteration env s world_bad_settings
  = (Val (mkSup (next_backoff (backoff s)) (consecutive_failures s + 1)),
     with_trace [Slept (next_backoff (backoff s))] world_bad_settings).
Proof. reflexivity. Qed.

(** C1 (claim as stated, refuted): with no backend installed every relaunch
    fails; the first sleep is 1.5 s, not 1.0 s, and the seven sleeps are not
    the claimed sequence. *)
Lemma C1_counterexample :
  nth_error
    (sleeps (trace (snd (_decoder_supervisor_loop env_nothing_installed 7
                           supervisor_init world_supervised)))) 0
    = Some (lit 15 1)
  /\ nth_error claimed_backoff_sequence 0 = Some (lit 10 1)
  /\ sleeps (trace (snd (_decoder_supervisor_loop env_nothing_installed 7
                            supervisor_init world_supervised)))
     <> claimed_backoff_sequence.
Proof.
  split; [vm_compute; reflexivity|]. split; [vm_compute; reflexivity|].
  vm_compute. discriminate.
Qed.

(** C1 (amended): a pass of the supervisor loop whose relaunch fails
    increments [consecutive_failures], sets
    [backoff = min(backoff * 1.5, 10.0)] and then sleeps for the new value;
    one whose relaunch succeeds resets [backoff] to 1.0 and
    [consecutive_failures] to 0.  Starting from [backoff = 1.0] the sleeps
    after consecutive failures 1 to 7 are 1.5, 2.25, 3.375, 5.0625, 7.59375,
    10.0 and 10.0 seconds. *)
Theorem C1_backoff_on_failure (env : environment) (s : supervisor_state)
    (w w2 : world) (bs pcs : Z) (ok : bool) :
  nonempty (st_url (status_decoder w)) = true ->
  fst (process_running_check w) = Val false ->
  get_int (st_bufferSecs (status_decoder w)) 10 = Some bs ->
  get_int (st_playbackCacheSecs (status_decoder w)) 3 = Some pcs ->
  launch_chain env (st_url (status_decoder w))
    (if nonempty (st_outputDevice (status_decoder w))
     then st_outputDevice (status_decoder w) else detected_output env)
    100 (Z.max 1 (Z.min 60 bs)) (Z.max 0 (Z.min 10 pcs))
    (snd (drop_stale_handles w)) = (Val ok, w2) ->
  supervisor_iteration env s w =
    (if ok
     then (Val (mkSup f1_0 0), with_trace (Slept f0_5 :: trace w2) w2)
     else (Val (mkSup (next_backoff (backoff s)) (consecutive_failures s + 1)),
           with_trace (Slept (next_backoff (backoff s)) :: trace w2) w2))
  /\ next_backoff (backoff s) = py_min (fmul (backoff s) (lit 15 1)) (lit 100 1)
  /\ backoffs 7 (lit 10 1) = backoff_sequence
  /\ sleeps (trace (snd (_decoder_supervisor_loop env_nothing_installed 7
                            supervisor_init world_supervised)))
     = backoff_sequence
  /\ fst (_decoder_supervisor_loop env_nothing_installed 7 supervisor_init
                                   world_supervised)
     = Val (mkSup (lit 100 1) 7).
Proof.
  intros Hurl Hrun Hbs Hpcs Hlaunch.
  split.
  - rewrite (supervisor_iteration_relaunch env s w w2 bs pcs ok Hurl Hrun Hbs Hpcs Hlaunch).
    unfold after_relaunch. destruct ok; reflexivity.
  - split; [reflexivity|]. repeat split; vm_compute; reflexivity.
Qed.

Lemma C1_backoff_on_failure_witness :
  exists w2,
    supervisor_iteration env_nothing_installed supervisor_init world_supervised
    = (Val (mkSup (next_backoff (lit 10 1)) 1),
       with_trace (Slept (next_backoff (lit 10 1)) :: trace w2) w2)
    /\ next_backoff (lit 10 1) = lit 15 1.
Proof.
  exists (snd (launch_chain env_nothing_installed "http://x/stream.mp3" "plughw:1,0"
                            100 5 3 world_supervised)).
  split; [| vm_compute; reflexivity].
  apply (C1_backoff_on_failure env_nothing_installed supervisor_init world_supervised
           (snd (launch_chain env_nothing_installed "http://x/stream.mp3" "plughw:1,0"
                              100 5 3 world_supervised))
           5 3 false);
    vm_compute; reflexivity.
Defined.

(** ** C2: what stop and teardown do *)

Ltac stop_case w0 :=
  cbv beta iota zeta delta
    [try_except bind terminate set_decoder_should_run set_decoder_process
     set_decoder_aplay_process sleep emit modify get ret
     with_decoder_should_run with_procs with_trace with_decoder_process
     with_decoder_aplay_process procs trace decoder_should_run
     decoder_process decoder_aplay_process decoder_current_volume
     audio_levels status_decoder fst snd negb];
  match goal with
  | |- context [get_decoder_status ?W] => change W with (stopped_world w0)
  end;
  destruct (get_decoder_status (stopped_world w0)); reflexivity.

Lemma stop_runs (env : environment) (w : world) :
  pkill_exists env = true ->
  api_decoder_stop env w
  = (Val (if get_decoder_status (stopped_world w)
          then mkResponse false 200 MsgFailedToStop
          else mkResponse true 200 MsgStopped),
     stopped_world w).
Proof.
  intros Hpk. unfold api_decoder_stop, pkill. rewrite Hpk.
  destruct w as [ps dp ap run vol lv st tr].
  destruct dp as [h|], ap as [a|].
  - stop_case (mkWorld ps (Some h) (Some a) run vol lv st tr).
  - stop_case (mkWorld ps (Some h) None run vol lv st tr).
  - stop_case (mkWorld ps None (Some a) run vol lv st tr).
  - stop_case (mkWorld ps None None run vol lv st tr).
Qed.

Lemma sweeps_per_process (sweeps : list (bool * string)) :
  forall ps,
    fold_left (fun ps sweep => map (swept_by sweep) ps) sweeps ps
    = map (fun p => fold_left (fun q sweep => swept_by sweep q) sweeps p) ps.
Proof.
  induction sweeps as [|sw sweeps IH]; intros ps; cbn [fold_left].
  - symmetry. apply map_id.
  - rewrite IH. apply map_map.
Qed.

Lemma stopped_procs (w : world) :
  procs (stopped_world w)
  = map sweep_all
        (kill_handle (decoder_aplay_process w) (kill_handle (decoder_process w) (procs w))).
Proof. unfold stopped_world. cbn [procs]. apply sweeps_per_process. Qed.

Lemma swept_by_alive (sweep : bool * string) (p : process) :
  swept_by sweep p
  = mkProcess (proc_prog p) (proc_argv p)
              (proc_alive p && negb (pkill_matches (fst sweep) (snd sweep) p)).
Proof.
  destruct p as [g argv al]. unfold swept_by, kill. cbn [proc_prog proc_argv proc_alive].
  destruct (pkill_matches (fst sweep) (snd sweep) (mkProcess g argv al)); cbn [negb].
  - now rewrite andb_false_r.
  - now rewrite andb_true_r.
Qed.

Lemma swept_ignores_alive (sweeps : list (bool * string)) (g : program)
    (argv : list string) (al1 al2 : bool) :
  swept sweeps (mkProcess g argv al1) = swept sweeps (mkProcess g argv al2).
Proof. reflexivity. Qed.

Lemma sweeps_alive (sweeps : list (bool * string)) :
  forall p,
    fold_left (fun q sweep => swept_by sweep q) sweeps p
    = mkProcess (proc_prog p) (proc_argv p) (proc_alive p && negb (swept sweeps p)).
Proof.
  induction sweeps as [|sw sweeps IH]; intros [g argv al].
  - cbn. now rewrite andb_true_r.
  - cbn [fold_left]. rewrite IH, swept_by_alive.
    cbn [proc_prog proc_argv proc_alive].
    rewrite (swept_ignores_alive sweeps g argv _ al).
    unfold swept at 2. cbn [existsb]. fold (swept sweeps (mkProcess g argv al)).
    f_equal. rewrite negb_orb. symmetry. apply andb_assoc.
Qed.

Lemma swept_players (p : process) :
  proc_prog p <> Sox -> swept stop_sweeps p = true.
Proof.
  destruct p as [g argv al]. cbn [proc_prog]. intros Hg.
  destruct g; try congruence; reflexivity.
Qed.

Lemma sweep_all_alive (g : program) (argv : list string) (al : bool) :
  sweep_all (mkProcess g argv al)
  = mkProcess g argv (al && negb (swept stop_sweeps (mkProcess g argv true))).
Proof. unfold sweep_all. now rewrite sweeps_alive. Qed.

(** After the sweeps no decoding or output process is alive, and a second
    round of sweeps changes nothing. *)
Lemma sweep_all_spec (p : process) :
  heads_pipeline (sweep_all p) = false
  /\ (forall g, g <> Sox ->
                program_eqb (proc_prog (sweep_all p)) g && proc_alive (sweep_all p) = false)
  /\ sweep_all (sweep_all p) = sweep_all p.
Proof.
  destruct p as [g argv al]. rewrite !sweep_all_alive.
  split; [|split].
  - unfold heads_pipeline. cbn [proc_prog proc_alive].
    destruct g; rewrite ?andb_false_r; try reflexivity;
      rewrite (swept_players (mkProcess _ argv true)) by discriminate;
      cbn [negb]; now rewrite andb_false_r.
  - intros g2 Hg2. cbn [proc_prog proc_alive].
    destruct (program_eqb g g2) eqn:E; [|reflexivity].
    assert (g = g2) by (destruct g, g2; congruence || discriminate). subst g2.
    rewrite (swept_players (mkProcess g argv true)) by exact Hg2.
    cbn [negb]. now rewrite andb_false_r.
  - f_equal. now destruct al, (swept stop_sweeps (mkProcess g argv true)).
Qed.

Lemma stopped_world_quiet (w : world) :
  active_pipelines (stopped_world w) = 0%nat
  /\ get_decoder_status (stopped_world w) = false.
Proof.
  assert (Hall : forall ps, filter heads_pipeline (map sweep_all ps) = []
                            /\ forall g, g <> Sox ->
                                 existsb (fun q => program_eqb (proc_prog q) g && proc_alive q)
                                         (map sweep_all ps) = false).
  { induction ps as [|p ps [IH1 IH2]]; [split; reflexivity|].
    destruct (sweep_all_spec p) as [Hh [Hg _]]. split.
    - cbn [map filter]. now rewrite Hh.
    - intros g Hne. cbn [map existsb]. now rewrite (Hg g Hne), (IH2 g Hne). }
  split.
  - unfold active_pipelines. rewrite stopped_procs.
    now rewrite (proj1 (Hall _)).
  - unfold get_decoder_status, system_probe, pgrep_x. rewrite stopped_procs.
    cbn [decoder_should_run decoder_process stopped_world].
    rewrite !(proj2 (Hall _)) by discriminate. reflexivity.
Qed.

(** [stop()] succeeds, and a second [stop()] succeeds again and leaves the
    process table and the tracked handles as the first one left them. *)
Lemma stop_twice (env : environment) (w : world) :
  pkill_exists env = true ->
  fst (api_decoder_stop env w) = Val (mkResponse true 200 MsgStopped)
  /\ active_pipelines (snd (api_decoder_stop env w)) = 0%nat
  /\ fst (api_decoder_stop env (snd (api_decoder_stop env w)))
     = Val (mkResponse true 200 MsgStopped)
  /\ procs (snd (api_decoder_stop env (snd (api_decoder_stop env w))))
     = procs (snd (api_decoder_stop env w))
  /\ decoder_process (snd (api_decoder_stop env (snd (api_decoder_stop env w)))) = None
  /\ decoder_aplay_process (snd (api_decoder_stop env (snd (api_decoder_stop env w)))) = None
  /\ decoder_should_run (snd (api_decoder_stop env (snd (api_decoder_stop env w)))) = false.
Proof.
  intros Hpk. rewrite (stop_runs env w Hpk). cbn [fst snd].
  rewrite (stop_runs env (stopped_world w) Hpk). cbn [fst snd].
  destruct (stopped_world_quiet w) as [Ha Hs].
  destruct (stopped_world_quiet (stopped_world w)) as [_ Hs2].
  rewrite Hs, Hs2. repeat split; try reflexivity; try assumption.
  rewrite (stopped_procs (stopped_world w)).
  cbn [decoder_process decoder_aplay_process stopped_world kill_handle].
  fold (procs (stopped_world w)). rewrite (stopped_procs w), map_map.
  apply map_ext. intros p. apply sweep_all_spec.
Qed.

Ltac teardown_case :=
  cbv beta iota zeta delta
    [try_except bind terminate set_decoder_should_run set_decoder_process
     set_decoder_aplay_process sleep emit modify get ret
     with_decoder_should_run with_procs with_trace with_decoder_process
     with_decoder_aplay_process procs trace decoder_should_run
     decoder_process decoder_aplay_process decoder_current_volume
     audio_levels status_decoder fst snd negb];
  reflexivity.

Lemma start_teardown_runs (env : environment) (w : world) :
  get_decoder_status w = true -> pkill_exists env = true ->
  start_teardown env w = (Val tt, torn_down_world w).
Proof.
  intros Hs Hpk. unfold start_teardown, pkill.
  unfold bind at 1. unfold get at 1. rewrite Hs, Hpk.
  destruct w as [ps dp ap run vol lv st tr].
  destruct dp as [h|], ap as [a|]; teardown_case.
Qed.

Lemma start_after_teardown_any env req : only any_event (start_after_teardown env req).
Proof.
  unfold start_after_teardown, restart_meter_for, start_finish.
  repeat first [ apply legacy_any | apply vlc_any | only_step ].
Qed.

(** A start request that finds a decoder running stops it before it
    launches anything: the tracked handles are terminated and dropped, cvlc
    is swept, the endpoint sleeps one second, and every event of the launch
    comes after these. *)
Lemma start_tears_down_first (env : environment) (req : start_request) (w : world) :
  get_decoder_status w = true -> pkill_exists env = true ->
  api_decoder_start env req w = start_after_teardown env req (torn_down_world w)
  /\ exists later,
       trace (snd (api_decoder_start env req w)) = later ++ trace (torn_down_world w).
Proof.
  intros Hs Hpk.
  assert (E : api_decoder_start env req w
              = start_after_teardown env req (torn_down_world w)).
  { unfold api_decoder_start, bind. now rewrite (start_teardown_runs env w Hs Hpk). }
  split; [exact E|]. rewrite E.
  destruct (start_after_teardown_any env req (torn_down_world w)) as [later [T _]].
  now exists later.
Qed.

(** ** C2: one pipeline at a time *)

(** C2 (the code at the failing input): one start request on an idle host
    where the managed player and mpg123 both start.  The block of legacy
    fallbacks runs after the successful VLC launch, starts mpg123 with direct
    ALSA output and tracks it in place of VLC: the endpoint reports success
    and two pipelines play.  Where mpg123 and aplay exit at once (output
    device busy), the same block launches VLC a second time and two VLC
    processes run. *)
Theorem C2_start_leaves_two_pipelines :
  fst (api_decoder_start env_all_ok request_mp3 world_idle)
    = Val (mkResponse true 200 MsgStarted)
  /\ attempts (trace (snd (api_decoder_start env_all_ok request_mp3 world_idle)))
    = [(StartVlc, true)]
  /\ map proc_prog
       (filter heads_pipeline (procs (snd (api_decoder_start env_all_ok request_mp3
                                                             world_idle))))
    = [Cvlc; Mpg123]
  /\ active_pipelines (snd (api_decoder_start env_all_ok request_mp3 world_idle)) = 2%nat
  /\ decoder_process (snd (api_decoder_start env_all_ok request_mp3 world_idle))
    = Some 1%nat
  /\ attempts (trace (snd (api_decoder_start env_device_busy request_mp3 world_idle)))
    = [(StartVlc, true); (StartVlc, true)]
  /\ map proc_prog
       (filter heads_pipeline (procs (snd (api_decoder_start env_device_busy request_mp3
                                                             world_idle))))
    = [Cvlc; Cvlc].
Proof. repeat split; vm_compute; reflexivity. Qed.

(** ** C7: the pump stops *)

Lemma prepend_prepend (a b : list pump_event) (r : list pump_event * pump_exit) :
  prepend a (prepend b r) = prepend (a ++ b) r.
Proof. unfold prepend. cbn. now rewrite app_assoc. Qed.

Lemma prepend_nil (r : list pump_event * pump_exit) : prepend [] r = r.
Proof. now destruct r. Qed.

Lemma prepend_continue (evs : list pump_event) (r : list pump_event * pump_exit)
    (rest : list pump_obs) :
  prepend evs (match snd r with
               | StillRelaying c' => prepend (fst r) (relay_loop c' rest)
               | _ => r
               end)
  = match snd (prepend evs r) with
    | StillRelaying c' => prepend (fst (prepend evs r)) (relay_loop c' rest)
    | _ => prepend evs r
    end.
Proof.
  destruct r as [ev ex]. destruct ex; cbn [fst snd prepend]; try reflexivity.
  apply prepend_prepend.
Qed.

(** Passes [before], then [rest]: the loop goes on with [rest] only if it
    is still relaying after [before]. *)
Lemma relay_loop_app (before rest : list pump_obs) :
  forall cache_buffer,
    relay_loop cache_buffer (before ++ rest) =
    match snd (relay_loop cache_buffer before) with
    | StillRelaying c' =>
        prepend (fst (relay_loop cache_buffer before)) (relay_loop c' rest)
    | _ => relay_loop cache_buffer before
    end.
Proof.
  induction before as [|o before IH]; intros cache_buffer.
  - cbn [app relay_loop fst snd]. now rewrite prepend_nil.
  - cbn [app relay_loop]. destruct (relay_condition o); [|reflexivity].
    cbv zeta.
    destruct (next_chunk cache_buffer (obs_read o)) as [|x data].
    + rewrite IH. apply prepend_continue.
    + destruct (obs_write o); [| reflexivity |]; rewrite IH; apply prepend_continue.
Qed.

(** C7: at every pass of the relay loop (after any passes [before] that
    left it relaying) the pump tests the should-run flag and the liveness of
    both processes; when the flag is false or a process is dead, or when the
    write to the output stage fails with a broken pipe, the loop ends there:
    the pump has written what the earlier passes wrote and nothing more,
    whatever is still cached or would arrive in later passes, and it closes
    the output stage's stdin. *)
Theorem C7_pump_stops (playback_cache_secs : Z) (pre : list prefill_obs)
    (before after : list pump_obs) (o : pump_obs) (c' : list byte) :
  snd (relay_loop (prefilled playback_cache_secs pre) before) = StillRelaying c' ->
  relay_condition o = false
  \/ (obs_write o = BrokenPipe /\ next_chunk c' (obs_read o) <> []) ->
  relay_condition o = obs_should_run o && obs_ffmpeg_running o && obs_aplay_running o
  /\ relay_loop (prefilled playback_cache_secs pre) (before ++ o :: after)
     = (fst (relay_loop (prefilled playback_cache_secs pre) before),
        if relay_condition o then BrokenPipeExit else ConditionFalse)
  /\ _pump_and_meter playback_cache_secs pre (before ++ o :: after)
     = (fst (relay_loop (prefilled playback_cache_secs pre) before) ++ [ClosedStdin],
        if relay_condition o then BrokenPipeExit else ConditionFalse).
Proof.
  intros Hbefore Hstop.
  split; [reflexivity|].
  assert (E : relay_loop (prefilled playback_cache_secs pre) (before ++ o :: after)
              = (fst (relay_loop (prefilled playback_cache_secs pre) before),
                 if relay_condition o then BrokenPipeExit else ConditionFalse)).
  { rewrite relay_loop_app, Hbefore. cbn [relay_loop].
    destruct (relay_condition o) eqn:Hc.
    - destruct Hstop as [Hf | [Hw Hdata]]; [discriminate|].
      cbv zeta. destruct (next_chunk c' (obs_read o)); [congruence|].
      rewrite Hw. unfold prepend. cbn. now rewrite app_nil_r.
    - unfold prepend. cbn. now rewrite app_nil_r. }
  split; [exact E|].
  unfold _pump_and_meter. cbv zeta. rewrite E. cbn [fst snd].
  destruct (relay_condition o); reflexivity.
Qed.

Lemma C7_pump_stops_witness :
  _pump_and_meter 0 []
    ([mkObs true true true ["001"%byte; "002"%byte] WriteOk]
       ++ mkObs false true true ["003"%byte] WriteOk
       :: [mkObs true true true ["004"%byte] WriteOk])
  = ([Wrote ["001"%byte; "002"%byte]; PumpSlept f0_001] ++ [ClosedStdin], ConditionFalse).
Proof.
  refine (proj2 (proj2 (C7_pump_stops 0 []
            [mkObs true true true ["001"%byte; "002"%byte] WriteOk]
            [mkObs true true true ["004"%byte] WriteOk]
            (mkObs false true true ["003"%byte] WriteOk) [] _ _))).
  - reflexivity.
  - left. reflexivity.
Defined.

(** ** Floats that are not NaN *)

Lemma shr_1_nonneg (mrs : shr_record) : 0 <= shr_m mrs -> 0 <= shr_m (shr_1 mrs).
Proof.
  destruct mrs as [m r s]. cbn [shr_m]. intros Hm.
  destruct m as [|p|p]; [cbn; lia | | lia].
  destruct p; cbn; lia.
Qed.

Lemma iter_pos_invariant {A} (P : A -> Prop) (f : A -> A) :
  (forall x, P x -> P (f x)) -> forall p x, P x -> P (iter_pos f p x).
Proof.
  intros Hf. induction p as [p IH|p IH|]; intros x Hx; cbn.
  - apply IH, IH, Hf, Hx.
  - apply IH, IH, Hx.
  - apply Hf, Hx.
Qed.

Lemma shr_fexp_nonneg (m e : Z) (l : location) :
  0 <= m -> 0 <= shr_m (fst (shr_fexp prec64 emax64 m e l)).
Proof.
  intros Hm. unfold shr_fexp, shr.
  assert (H0 : 0 <= shr_m (shr_record_of_loc m l)).
  { destruct l as [|[]]; cbn; exact Hm. }
  destruct (fexp prec64 emax64 (Zdigits2 m + e) - e) as [|p|p]; cbn [fst]; try exact H0.
  apply (iter_pos_invariant (fun r => 0 <= shr_m r)); [apply shr_1_nonneg | exact H0].
Qed.

Lemma round_nearest_even_nonneg (m : Z) (l : location) :
  0 <= m -> 0 <= round_nearest_even m l.
Proof.
  intros Hm. destruct l as [|[]]; cbn; try lia. destruct (Z.even m); lia.
Qed.

Lemma binary_round_aux_nonneg (mx ex : Z) (lx : location) :
  0 <= mx -> nonneg_float (binary_round_aux prec64 emax64 false mx ex lx) = true.
Proof.
  intros Hm. unfold binary_round_aux.
  pose proof (shr_fexp_nonneg mx ex lx Hm) as H1.
  destruct (shr_fexp prec64 emax64 mx ex lx) as [mrs' e'] eqn:E1. cbn [fst] in H1.
  pose proof (shr_fexp_nonneg (round_nearest_even (shr_m mrs') (loc_of_shr_record mrs')) e'
                loc_Exact (round_nearest_even_nonneg _ _ H1)) as H2.
  destruct (shr_fexp prec64 emax64 _ e' loc_Exact) as [mrs'' e''] eqn:E2. cbn [fst] in H2.
  destruct (shr_m mrs'') as [|p|p]; [reflexivity | | lia].
  destruct (e'' <=? emax64 - prec64); reflexivity.
Qed.

Lemma fdiv_nonneg (x : float) (my : positive) (ey : Z) :
  nonneg_float x = true -> nonneg_float (fdiv x (S754_finite false my ey)) = true.
Proof.
  intros Hx. destruct x as [s|s| |s mx ex]; cbn in Hx; try discriminate.
  - reflexivity.
  - destruct s; [discriminate | reflexivity].
  - destruct s; [discriminate|].
    unfold fdiv, SFdiv. cbn [xorb].
    unfold SFdiv_core_binary.
    set (e' := Z.min _ _).
    set (m' := match ex - ey - e' with Z0 => _ | Zpos _ => _ | Zneg _ => _ end).
    assert (Hm' : 0 <= m').
    { unfold m'. destruct (ex - ey - e'); try lia. apply Z.shiftl_nonneg. lia. }
    pose proof (Z.div_pos m' (Zpos my) Hm' eq_refl) as Hq.
    unfold Z.div in Hq. destruct (Z.div_eucl m' (Zpos my)) as [q r]. cbn [fst] in Hq.
    now apply binary_round_aux_nonneg.
Qed.

Lemma fsqrt_nonneg (x : float) : nonneg_float x = true -> nonneg_float (fsqrt x) = true.
Proof.
  intros Hx. destruct x as [s|s| |s mx ex]; cbn in Hx; try discriminate.
  - reflexivity.
  - destruct s; [discriminate | reflexivity].
  - destruct s; [discriminate|].
    unfold fsqrt, SFsqrt, SFsqrt_core_binary.
    set (e' := Z.min _ _).
    set (m' := match ex - 2 * e' with Z0 => _ | Zpos _ => _ | Zneg _ => _ end).
    pose proof (Z.sqrt_nonneg m') as Hq. rewrite <- Z.sqrtrem_sqrt in Hq.
    destruct (Z.sqrtrem m') as [q r]. cbn [fst] in Hq.
    now apply binary_round_aux_nonneg.
Qed.

Lemma int_truediv_nonneg (a b : Z) :
  0 <= a -> 0 < b -> exists x, int_truediv a b = Some x /\ nonneg_float x = true.
Proof.
  intros Ha Hb. destruct b as [|q|q]; try lia.
  destruct a as [|p|p]; try lia.
  - eexists. split; reflexivity.
  - eexists. split; [reflexivity|]. now apply fdiv_nonneg.
Qed.

(** [min(x, 1.0)] of a non-negative float lies between 0.0 and 1.0. *)
Lemma py_min_unit (x : float) :
  nonneg_float x = true ->
  fle f0_0 (py_min x f1_0) = true /\ fle (py_min x f1_0) f1_0 = true.
Proof.
  intros Hx. destruct x as [s|s| |s m e]; cbn in Hx; try discriminate.
  - split; reflexivity.
  - destruct s; [discriminate|]. split; reflexivity.
  - destruct s; [discriminate|].
    assert (He : (e ?= -52) = CompOpp (-52 ?= e)) by apply Z.compare_antisym.
    assert (Hm : Pos.compare_cont Eq m 4503599627370496
                 = CompOpp (Pos.compare_cont Eq 4503599627370496 m)) by apply ZC4.
    unfold py_min, flt, fle, SFltb, SFleb, f1_0, f0_0. cbn [SFcompare].
    destruct (-52 ?= e) eqn:E1; cbn [CompOpp] in He.
    + destruct (Pos.compare_cont Eq 4503599627370496 m) eqn:E2; cbn [CompOpp] in Hm;
        cbn [SFcompare]; rewrite ?He, ?Hm; split; reflexivity.
    + cbn [SFcompare]. split; reflexivity.
    + cbn [SFcompare]. rewrite He. split; reflexivity.
Qed.

Lemma sum_squares_nonneg (l : list Z) : 0 <= sum_squares l.
Proof.
  induction l as [|x l IH]; cbn; [lia|]. fold (sum_squares l). nia.
Qed.

Lemma channel_level_unit (channel : list Z) :
  exists x, channel_level channel = Some x
            /\ fle f0_0 x = true /\ fle x f1_0 = true.
Proof.
  destruct channel as [|a l].
  - exists f0_0. repeat split; reflexivity.
  - unfold channel_level, channel_rms.
    destruct (int_truediv_nonneg (sum_squares (a :: l)) (Z.of_nat (List.length (a :: l))))
      as [mean [E Hmean]].
    + apply sum_squares_nonneg.
    + cbn [List.length]. lia.
    + rewrite E. eexists. split; [reflexivity|].
      apply py_min_unit. unfold f32768_0. apply fdiv_nonneg.
      unfold pow_half. now apply fsqrt_nonneg.
Qed.

Lemma rms_of_chunk_unit (data : list byte) :
  match rms_of_chunk data with
  | RmsLevels l => levels_in_unit l
  | _ => true
  end = true.
Proof.
  unfold rms_of_chunk. destruct (decode_s16le data) as [samples|]; [|reflexivity].
  destruct (List.length samples <? 2)%nat; [reflexivity|]. cbv zeta.
  destruct (channel_level_unit (map Z.abs (evens samples))) as [l [El [Hl0 Hl1]]].
  destruct (channel_level_unit (map Z.abs (odds samples))) as [r [Er [Hr0 Hr1]]].
  rewrite El, Er. unfold levels_in_unit. cbn [left right].
  now rewrite Hl0, Hl1, Hr0, Hr1.
Qed.

Lemma meter_levels_unit (s : meter_state) (o : meter_obs) :
  levels_in_unit (meter_levels s) = true ->
  levels_in_unit (meter_levels (fst (meter_iteration s o))) = true.
Proof.
  intros Hs. unfold meter_iteration.
  destruct (obs_capture o) as [rc data|]; [|reflexivity].
  destruct (negb (rc =? 0) || (List.length data <? 4)%nat).
  - destruct ((10 <=? empty_count s + 1) || _); [|exact Hs].
    destruct (nonempty _ && _); exact Hs.
  - pose proof (rms_of_chunk_unit data) as H.
    destruct (rms_of_chunk data); cbn [fst meter_levels]; assumption.
Qed.

(** ** Exact quotients *)

Lemma digits2_pos_size (p : positive) : digits2_pos p = Pos.size p.
Proof. induction p as [p IH|p IH|]; cbn; now rewrite ?IH. Qed.

Lemma digits2_pos_bounds (p : positive) :
  2 ^ (Zpos (digits2_pos p) - 1) <= Zpos p < 2 ^ Zpos (digits2_pos p).
Proof.
  rewrite digits2_pos_size. split.
  - pose proof (Pos.size_le p) as H.
    apply Pos2Z.pos_le_pos in H. rewrite Pos2Z.inj_pow in H.
    change (Zpos p~0) with (2 * Zpos p) in H.
    replace (Zpos (Pos.size p)) with (Z.succ (Zpos (Pos.size p) - 1)) in H by lia.
    rewrite Z.pow_succ_r in H by lia. lia.
  - pose proof (Pos.size_gt p) as H.
    apply Pos2Z.pos_lt_pos in H. now rewrite Pos2Z.inj_pow in H.
Qed.

Lemma digits_of_multiple (n : positive) :
  Zpos (digits2_pos (n * full_scale_square)) - Zpos (digits2_pos n) = 29
  \/ Zpos (digits2_pos (n * full_scale_square)) - Zpos (digits2_pos n) = 30.
Proof.
  pose proof (digits2_pos_bounds n) as [Hn1 Hn2].
  pose proof (digits2_pos_bounds (n * full_scale_square)) as [Hm1 Hm2].
  set (d2 := Zpos (digits2_pos n)) in *.
  set (d1 := Zpos (digits2_pos (n * full_scale_square))) in *.
  rewrite Pos2Z.inj_mul in Hm1, Hm2.
  assert (Hk : 2 ^ 29 <= Zpos full_scale_square < 2 ^ 30) by (vm_compute; split; congruence).
  assert (Hlo : 2 ^ (d2 + 28) < 2 ^ d1).
  { apply Z.le_lt_trans with (Zpos n * Zpos full_scale_square); [|lia].
    replace (d2 + 28) with ((d2 - 1) + 29) by lia.
    rewrite Z.pow_add_r by (unfold d2; lia).
    apply Z.mul_le_mono_nonneg; try lia; apply Z.pow_nonneg; lia. }
  assert (Hhi : 2 ^ (d1 - 1) < 2 ^ (d2 + 30)).
  { apply Z.le_lt_trans with (Zpos n * Zpos full_scale_square); [lia|].
    rewrite Z.pow_add_r by (unfold d2; lia).
    apply Z.mul_lt_mono_nonneg; lia. }
  apply Z.pow_lt_mono_r_iff in Hlo; [| lia | unfold d1; lia].
  apply Z.pow_lt_mono_r_iff in Hhi; [| lia | unfold d2; lia].
  lia.
Qed.

Lemma div_eucl_multiple (n : positive) (c : Z) :
  Z.div_eucl (Zpos n * c) (Zpos n) = (c, 0).
Proof.
  assert (Hq : Zpos n * c / Zpos n = c) by (rewrite Z.mul_comm; apply Z.div_mul; lia).
  assert (Hr : (Zpos n * c) mod Zpos n = 0) by (rewrite Z.mul_comm; apply Z.mod_mul; lia).
  unfold Z.div in Hq. unfold Z.modulo in Hr.
  destruct (Z.div_eucl (Zpos n * c) (Zpos n)) as [q r]. cbn in Hq, Hr. now subst.
Qed.

Lemma new_location_zero (n : positive) : new_location (Zpos n) 0 = loc_Exact.
Proof.
  unfold new_location. destruct (Z.even (Zpos n)); reflexivity.
Qed.

Lemma int_truediv_multiple (n : positive) :
  int_truediv (Zpos n * Zpos full_scale_square) (Zpos n)
  = Some (float_of_int (Zpos full_scale_square)).
Proof.
  change (Zpos n * Zpos full_scale_square) with (Zpos (n * full_scale_square)).
  unfold int_truediv, fdiv, SFdiv. f_equal. cbn [xorb].
  unfold SFdiv_core_binary. cbn [Zdigits2].
  replace (Zpos (digits2_pos (n * full_scale_square)) + 0 - (Zpos (digits2_pos n) + 0))
    with (Zpos (digits2_pos (n * full_scale_square)) - Zpos (digits2_pos n)) by lia.
  destruct (digits_of_multiple n) as [H | H]; rewrite H.
  - change (Z.min (fexp prec64 emax64 29) (0 - 0)) with (-24).
    change (0 - 0 - -24) with 24.
    cbv iota beta.
    rewrite Z.shiftl_mul_pow2 by lia. rewrite Pos2Z.inj_mul, <- Z.mul_assoc.
    rewrite div_eucl_multiple, new_location_zero. vm_compute. reflexivity.
  - change (Z.min (fexp prec64 emax64 30) (0 - 0)) with (-23).
    change (0 - 0 - -23) with 23.
    cbv iota beta.
    rewrite Z.shiftl_mul_pow2 by lia. rewrite Pos2Z.inj_mul, <- Z.mul_assoc.
    rewrite div_eucl_multiple, new_location_zero. vm_compute. reflexivity.
Qed.

(** ** Channels *)

Lemma evens_Forall (P : Z -> Prop) (samples : list Z) :
  Forall P samples -> Forall P (evens samples) /\ Forall P (odds samples).
Proof.
  assert (H : forall l, Forall P l -> Forall P (evens l) /\ Forall P (evens (tl l))).
  { induction l as [|x l IH]; intros Hl.
    - split; constructor.
    - inversion Hl as [|? ? Hx Hl']; subst. destruct (IH Hl') as [He Ho].
      split; [|exact He].
      destruct l as [|y l]; [repeat constructor; exact Hx|].
      cbn [evens]. constructor; [exact Hx | exact Ho]. }
  exact (H samples).
Qed.

Lemma evens_nonempty (samples : list Z) :
  (2 <= List.length samples)%nat -> evens samples <> [] /\ odds samples <> [].
Proof.
  destruct samples as [|x [|y l]]; cbn [List.length]; try lia.
  intros _. unfold odds. cbn [tl]. split.
  - cbn [evens]. discriminate.
  - destruct l as [|z l]; cbn [evens]; discriminate.
Qed.

Lemma sum_squares_constant (c : Z) (channel : list Z) :
  Forall (fun x => x = c) channel ->
  sum_squares channel = Z.of_nat (List.length channel) * (c * c).
Proof.
  induction 1 as [|x l Hx Hl IH]; [reflexivity|].
  cbn [sum_squares fold_right List.length]. fold (sum_squares l).
  rewrite IH, Hx. lia.
Qed.

Lemma channel_level_full_scale (channel : list Z) :
  channel <> [] -> Forall (fun x => x = 32767) channel ->
  channel_level channel = Some full_scale_level.
Proof.
  intros Hne Hall. destruct channel as [|a l]; [congruence|].
  unfold channel_level, channel_rms.
  rewrite (sum_squares_constant 32767 (a :: l) Hall).
  cbn [List.length]. rewrite Nat2Z.inj_succ, <- Zpos_P_of_succ_nat.
  change (32767 * 32767) with (Zpos full_scale_square).
  rewrite int_truediv_multiple. vm_compute. reflexivity.
Qed.

Lemma channel_level_silence (channel : list Z) :
  Forall (fun x => x = 0) channel -> channel_level channel = Some f0_0.
Proof.
  intros Hall. destruct channel as [|a l]; [reflexivity|].
  unfold channel_level, channel_rms.
  rewrite (sum_squares_constant 0 (a :: l) Hall).
  cbn [List.length]. rewrite Nat2Z.inj_succ, <- Zpos_P_of_succ_nat.
  rewrite Z.mul_0_r. reflexivity.
Qed.

Lemma Forall_map_abs (c : Z) (l : list Z) :
  Forall (fun x => x = c \/ x = - c) l -> Forall (fun x => x = Z.abs c) (map Z.abs l).
Proof.
  induction 1 as [|x l Hx Hl IH]; [constructor|].
  cbn [map]. constructor; [|exact IH]. destruct Hx as [-> | ->]; [reflexivity|].
  apply Z.abs_opp.
Qed.

Lemma decode_zeros (data : list byte) :
  Forall (fun b => b = x00) data ->
  match decode_s16le data with
  | Some samples => Forall (fun x => x = 0) samples
                    /\ List.length data = (2 * List.length samples)%nat
  | None => True
  end.
Proof.
  assert (H : forall n data, (List.length data <= n)%nat ->
                Forall (fun b => b = x00) data ->
                match decode_s16le data with
                | Some samples => Forall (fun x => x = 0) samples
                                  /\ List.length data = (2 * List.length samples)%nat
                | None => True
                end).
  { induction n as [|n IH]; intros d Hlen Hall.
    - destruct d; [|cbn in Hlen; lia]. cbn. split; [constructor | reflexivity].
    - destruct d as [|lo [|hi rest]]; [cbn; split; [constructor | reflexivity] | exact I |].
      inversion Hall as [|? ? Hlo Hall']; subst.
      inversion Hall' as [|? ? Hhi Hrest]; subst.
      cbn [decode_s16le].
      assert (Hr : (List.length rest <= n)%nat) by (cbn in Hlen; lia).
      specialize (IH rest Hr Hrest).
      destruct (decode_s16le rest) as [samples|]; [|exact I].
      destruct IH as [Hs Hl]. split.
      + constructor; [reflexivity | exact Hs].
      + cbn [List.length]. lia. }
  intros Hall. exact (H (List.length data) data (le_n _) Hall).
Qed.

Lemma decode_encode (samples : list Z) :
  Forall (fun x => x = 32767 \/ x = - 32767) samples ->
  decode_s16le (encode_s16le samples) = Some samples
  /\ List.length (encode_s16le samples) = (2 * List.length samples)%nat.
Proof.
  induction 1 as [|x l Hx Hl [IHd IHl]]; [split; reflexivity|].
  unfold encode_s16le. cbn [flat_map]. fold (encode_s16le l).
  set (rest := encode_s16le l) in *.
  destruct Hx as [-> | ->];
    match goal with
    | |- context [?h ++ rest] => let v := eval vm_compute in h in change h with v
    end;
    cbn [app decode_s16le List.length]; rewrite IHd, IHl;
    (split; [reflexivity | lia]).
Qed.

(** ** C5: the level meter's RMS *)

Lemma sum_squares_abs (channel : list Z) :
  sum_squares (map Z.abs channel) = sum_squares channel.
Proof.
  induction channel as [|x l IH]; [reflexivity|].
  cbn [map sum_squares fold_right]. fold (sum_squares (map Z.abs l)). fold (sum_squares l).
  rewrite IH. f_equal. lia.
Qed.

Lemma meter_levels_silence (s : meter_state) (fb : string) (data : list byte) :
  Forall (fun b => b = x00) data -> (4 <= List.length data)%nat ->
  meter_levels (fst (meter_iteration s (mkMeterObs (Captured 0 data) fb))) = zero_levels.
Proof.
  intros Hall Hlen. unfold meter_iteration. cbn [obs_capture].
  replace (List.length data <? 4)%nat with false
    by (symmetry; apply Nat.ltb_ge; exact Hlen).
  cbn [Z.eqb negb orb].
  unfold rms_of_chunk. pose proof (decode_zeros data Hall) as Hd.
  destruct (decode_s16le data) as [samples|]; [|reflexivity].
  destruct Hd as [Hz Hl].
  replace (List.length samples <? 2)%nat with false
    by (symmetry; apply Nat.ltb_ge; lia).
  cbv zeta.
  destruct (evens_Forall _ samples Hz) as [He Ho].
  rewrite (channel_level_silence (map Z.abs (evens samples))),
          (channel_level_silence (map Z.abs (odds samples))).
  - reflexivity.
  - apply (Forall_map_abs 0). eapply Forall_impl; [|exact Ho]. intros x ->. now left.
  - apply (Forall_map_abs 0). eapply Forall_impl; [|exact He]. intros x ->. now left.
Qed.

Lemma meter_levels_full_scale (s : meter_state) (fb : string) (samples : list Z) :
  Forall (fun x => x = 32767 \/ x = - 32767) samples -> (2 <= List.length samples)%nat ->
  meter_levels (fst (meter_iteration s (mkMeterObs (Captured 0 (encode_s16le samples)) fb)))
  = mkLevels full_scale_level full_scale_level.
Proof.
  intros Hall Hlen. unfold meter_iteration. cbn [obs_capture].
  destruct (decode_encode samples Hall) as [Hd Hl].
  replace (List.length (encode_s16le samples) <? 4)%nat with false
    by (symmetry; apply Nat.ltb_ge; lia).
  cbn [Z.eqb negb orb].
  unfold rms_of_chunk. rewrite Hd.
  replace (List.length samples <? 2)%nat with false
    by (symmetry; apply Nat.ltb_ge; lia).
  cbv zeta.
  destruct (evens_Forall _ samples Hall) as [He Ho].
  destruct (evens_nonempty samples Hlen) as [Hne Hno].
  rewrite (channel_level_full_scale (map Z.abs (evens samples))),
          (channel_level_full_scale (map Z.abs (odds samples))).
  - reflexivity.
  - destruct (odds samples); [congruence | discriminate].
  - apply (Forall_map_abs 32767), Ho.
  - destruct (evens samples); [congruence | discriminate].
  - apply (Forall_map_abs 32767), He.
Qed.

(** *** Stereo frames: which samples make which channel *)

Lemma byte_of_N_small (n : N) :
  (n < 256)%N -> exists b, Byte.of_N n = Some b /\ Byte.to_N b = n.
Proof.
  intros H. destruct (Byte.of_N n) as [b|] eqn:E.
  - exists b. split; [reflexivity|]. now apply Byte.to_of_N.
  - apply Byte.of_N_None_iff in E. lia.
Qed.

Lemma packs_range (x : Z) : -32768 <= x <= 32767 -> packs x = true.
Proof.
  intros H. unfold packs, encode_s16le. cbn [flat_map]. cbv zeta.
  set (u := x mod 65536).
  assert (Hu : 0 <= u < 65536) by (apply Z.mod_pos_bound; lia).
  assert (Hlo : 0 <= u mod 256 < 256) by (apply Z.mod_pos_bound; lia).
  assert (Hhi : 0 <= u / 256 < 256).
  { split; [apply Z.div_pos; lia | apply Z.div_lt_upper_bound; lia]. }
  destruct (byte_of_N_small (Z.to_N (u mod 256)) ltac:(lia)) as [lo [Elo Tlo]].
  destruct (byte_of_N_small (Z.to_N (u / 256)) ltac:(lia)) as [hi [Ehi Thi]].
  rewrite Elo, Ehi. cbn [app]. unfold s16le. rewrite Tlo, Thi, !Z2N.id by lia.
  replace (u mod 256 + 256 * (u / 256)) with u
    by (rewrite (Z.div_mod u 256) at 1; lia).
  apply Z.eqb_eq.
  destruct (Z.ltb_spec u 32768) as [Hs|Hs].
  - destruct (Z.le_gt_cases 0 x) as [Hx|Hx].
    + unfold u. apply Z.mod_small. lia.
    + exfalso. assert (u = x + 65536); [|lia].
      unfold u. symmetry. apply (Z.mod_unique_pos x 65536 (-1)); lia.
  - destruct (Z.le_gt_cases 0 x) as [Hx|Hx].
    + exfalso. assert (u = x); [|lia]. unfold u. apply Z.mod_small. lia.
    + assert (u = x + 65536); [|lia].
      unfold u. symmetry. apply (Z.mod_unique_pos x 65536 (-1)); lia.
Qed.

Lemma decode_encode_range (samples : list Z) :
  Forall (fun x => -32768 <= x <= 32767) samples ->
  decode_s16le (encode_s16le samples) = Some samples
  /\ List.length (encode_s16le samples) = (2 * List.length samples)%nat.
Proof.
  induction 1 as [|x l Hx Hl [IHd IHl]]; [split; reflexivity|].
  pose proof (packs_range x Hx) as Hp. unfold packs in Hp.
  unfold encode_s16le in *. cbn [flat_map] in *. rewrite app_nil_r in Hp.
  set (rest := flat_map _ l) in *.
  destruct (match Byte.of_N (Z.to_N ((x mod 65536) mod 256)),
                  Byte.of_N (Z.to_N ((x mod 65536) / 256)) with
            | Some lo, Some hi => [lo; hi]
            | _, _ => []
            end) as [|lo [|hi [|]]]; try discriminate Hp.
  apply Z.eqb_eq in Hp.
  cbn [app decode_s16le List.length]. rewrite IHd, IHl, Hp. split; [reflexivity | lia].
Qed.

Lemma evens_stereo (frames : list (Z * Z)) :
  evens (stereo frames) = map fst frames
  /\ forall x, evens (x :: stereo frames) = x :: map snd frames.
Proof.
  induction frames as [|[l r] fs [IH1 IH2]]; [split; reflexivity|].
  unfold stereo in *. cbn [flat_map app fst snd map].
  set (rest := flat_map (fun frame : Z * Z => [fst frame; snd frame]) fs) in *. split.
  - change (evens (l :: r :: rest)) with (l :: evens rest). now rewrite IH1.
  - intros x. change (evens (x :: l :: r :: rest)) with (x :: evens (r :: rest)).
    now rewrite IH2.
Qed.

Lemma odds_stereo (frames : list (Z * Z)) : odds (stereo frames) = map snd frames.
Proof.
  destruct frames as [|[l r] fs]; [reflexivity|].
  unfold odds, stereo. cbn [flat_map app fst snd tl map].
  exact (proj2 (evens_stereo fs) r).
Qed.

Lemma evens_nth_error (samples : list Z) (i : nat) :
  nth_error (evens samples) i = nth_error samples (2 * i).
Proof.
  assert (H : forall n l, (List.length l <= n)%nat ->
                forall j, nth_error (evens l) j = nth_error l (2 * j)).
  { induction n as [|n IH]; intros l Hl j.
    - destruct l; [|cbn in Hl; lia]. now destruct j.
    - destruct l as [|x [|y rest]].
      + now destruct j.
      + destruct j as [|j]; [reflexivity|].
        cbn [evens]. replace (2 * S j)%nat with (S (S (2 * j))) by lia.
        cbn [nth_error]. now destruct j.
      + change (evens (x :: y :: rest)) with (x :: evens rest).
        destruct j as [|j]; [reflexivity|].
        replace (2 * S j)%nat with (S (S (2 * j))) by lia.
        cbn [nth_error]. apply IH. cbn [List.length] in Hl. lia. }
  exact (H (List.length samples) samples (le_n _) i).
Qed.

Lemma odds_nth_error (samples : list Z) (i : nat) :
  nth_error (odds samples) i = nth_error samples (2 * i + 1).
Proof.
  unfold odds. rewrite evens_nth_error.
  replace (2 * i + 1)%nat with (S (2 * i)) by lia.
  destruct samples; [now destruct (2 * i)%nat | reflexivity].
Qed.

Lemma stereo_length (frames : list (Z * Z)) :
  List.length (stereo frames) = (2 * List.length frames)%nat.
Proof.
  induction frames as [|f fs IH]; [reflexivity|].
  unfold stereo in *. cbn [flat_map app List.length]. rewrite IH. lia.
Qed.

Lemma stereo_range (frames : list (Z * Z)) :
  Forall (fun f => -32768 <= fst f <= 32767 /\ -32768 <= snd f <= 32767) frames ->
  Forall (fun x => -32768 <= x <= 32767) (stereo frames).
Proof.
  induction 1 as [|f fs [Hl Hr] _ IH]; [constructor|].
  unfold stereo in *. cbn [flat_map app]. now repeat constructor.
Qed.

(** The capture meter on a chunk of whole stereo frames: the left level is
    that of the first sample of every frame, the right level that of the
    second. *)
Lemma meter_levels_stereo (s : meter_state) (fb : string) (frames : list (Z * Z))
    (l r : float) :
  frames <> [] ->
  Forall (fun f => -32768 <= fst f <= 32767 /\ -32768 <= snd f <= 32767) frames ->
  channel_level (map Z.abs (map fst frames)) = Some l ->
  channel_level (map Z.abs (map snd frames)) = Some r ->
  meter_levels
    (fst (meter_iteration s (mkMeterObs (Captured 0 (encode_s16le (stereo frames))) fb)))
  = mkLevels l r.
Proof.
  intros Hne Hrange Hl Hr. unfold meter_iteration. cbn [obs_capture].
  destruct (decode_encode_range _ (stereo_range frames Hrange)) as [Hd Hlen].
  rewrite stereo_length in Hlen.
  assert (Hf : (1 <= List.length frames)%nat).
  { destruct frames; [congruence | cbn [List.length]; lia]. }
  replace (List.length (encode_s16le (stereo frames)) <? 4)%nat with false
    by (symmetry; apply Nat.ltb_ge; lia).
  cbn [Z.eqb negb orb].
  unfold rms_of_chunk. rewrite Hd, stereo_length.
  replace (2 * List.length frames <? 2)%nat with false
    by (symmetry; apply Nat.ltb_ge; lia).
  cbv zeta. rewrite (proj1 (evens_stereo frames)), odds_stereo, Hl, Hr. reflexivity.
Qed.

Lemma Forall_map_channel (P : Z * Z -> Prop) (Q : Z -> Prop) (g : Z * Z -> Z)
    (frames : list (Z * Z)) :
  (forall f, P f -> Q (g f)) -> Forall P frames -> Forall Q (map g frames).
Proof.
  intros HPQ. induction 1 as [|f fs Hf _ IH]; [constructor|].
  cbn [map]. constructor; [now apply HPQ | exact IH].
Qed.

Lemma meter_levels_left_only (s : meter_state) (fb : string) (frames : list (Z * Z)) :
  frames <> [] ->
  Forall (fun f => (fst f = 32767 \/ fst f = - 32767) /\ snd f = 0) frames ->
  meter_levels
    (fst (meter_iteration s (mkMeterObs (Captured 0 (encode_s16le (stereo frames))) fb)))
  = mkLevels full_scale_level f0_0.
Proof.
  intros Hne Hall. apply meter_levels_stereo; [exact Hne | | |].
  - eapply Forall_impl; [|exact Hall]. intros f [[H|H] H0]; lia.
  - apply channel_level_full_scale.
    + destruct frames; [congruence | discriminate].
    + apply (Forall_map_abs 32767).
      eapply Forall_map_channel; [|exact Hall]. now intros f [H _].
  - apply channel_level_silence. apply (Forall_map_abs 0).
    eapply Forall_map_channel; [|exact Hall]. intros f [_ H]. now left.
Qed.

Lemma meter_levels_right_only (s : meter_state) (fb : string) (frames : list (Z * Z)) :
  frames <> [] ->
  Forall (fun f => fst f = 0 /\ (snd f = 32767 \/ snd f = - 32767)) frames ->
  meter_levels
    (fst (meter_iteration s (mkMeterObs (Captured 0 (encode_s16le (stereo frames))) fb)))
  = mkLevels f0_0 full_scale_level.
Proof.
  intros Hne Hall. apply meter_levels_stereo; [exact Hne | | |].
  - eapply Forall_impl; [|exact Hall]. intros f [H0 [H|H]]; lia.
  - apply channel_level_silence. apply (Forall_map_abs 0).
    eapply Forall_map_channel; [|exact Hall]. intros f [H _]. now left.
  - apply channel_level_full_scale.
    + destruct frames; [congruence | discriminate].
    + apply (Forall_map_abs 32767).
      eapply Forall_map_channel; [|exact Hall]. now intros f [_ H].
Qed.

(** *** The pump's inline computation *)

Lemma pump_mean_full_scale (channel : list Z) :
  channel <> [] -> Forall (fun x => x = 32767 \/ x = - 32767) channel ->
  int_truediv (sum_squares channel) (Z.max 1 (Z.of_nat (List.length channel)))
  = Some (float_of_int (Zpos full_scale_square)).
Proof.
  intros Hne Hall. destruct channel as [|a l]; [congruence|].
  rewrite <- sum_squares_abs.
  rewrite (sum_squares_constant 32767 _ (Forall_map_abs 32767 _ Hall)), length_map.
  cbn [List.length]. rewrite Nat2Z.inj_succ, <- Zpos_P_of_succ_nat.
  rewrite Z.max_r by lia.
  change (32767 * 32767) with (Zpos full_scale_square).
  apply int_truediv_multiple.
Qed.

Lemma pump_mean_silence (channel : list Z) :
  channel <> [] -> Forall (fun x => x = 0) channel ->
  int_truediv (sum_squares channel) (Z.max 1 (Z.of_nat (List.length channel)))
  = Some f0_0.
Proof.
  intros Hne Hall. destruct channel as [|a l]; [congruence|].
  rewrite (sum_squares_constant 0 _ Hall).
  cbn [List.length]. rewrite Nat2Z.inj_succ, <- Zpos_P_of_succ_nat.
  rewrite Z.max_r by lia. rewrite Z.mul_0_r. reflexivity.
Qed.

Lemma pump_rms_full_scale (samples : list Z) :
  Forall (fun x => x = 32767 \/ x = - 32767) samples -> (2 <= List.length samples)%nat ->
  pump_rms (encode_s16le samples) = Some (float_of_int 32767, float_of_int 32767).
Proof.
  intros Hall Hlen. unfold pump_rms.
  destruct (decode_encode samples Hall) as [Hd _]. rewrite Hd.
  replace (2 <=? List.length samples)%nat with true by (symmetry; now apply Nat.leb_le).
  cbv zeta.
  destruct (evens_Forall _ samples Hall) as [He Ho].
  destruct (evens_nonempty samples Hlen) as [Hne Hno].
  rewrite (pump_mean_full_scale _ Hne He), (pump_mean_full_scale _ Hno Ho).
  vm_compute. reflexivity.
Qed.

Lemma pump_rms_silence (samples : list Z) :
  Forall (fun x => x = 0) samples -> (2 <= List.length samples)%nat ->
  pump_rms (encode_s16le samples) = Some (f0_0, f0_0).
Proof.
  intros Hall Hlen. unfold pump_rms.
  assert (Hr : Forall (fun x => -32768 <= x <= 32767) samples).
  { eapply Forall_impl; [|exact Hall]. intros x ->. lia. }
  destruct (decode_encode_range samples Hr) as [Hd _]. rewrite Hd.
  replace (2 <=? List.length samples)%nat with true by (symmetry; now apply Nat.leb_le).
  cbv zeta.
  destruct (evens_Forall _ samples Hall) as [He Ho].
  destruct (evens_nonempty samples Hlen) as [Hne Hno].
  rewrite (pump_mean_silence _ Hne He), (pump_mean_silence _ Hno Ho).
  vm_compute. reflexivity.
Qed.

Lemma pump_rms_left_only (frames : list (Z * Z)) :
  frames <> [] ->
  Forall (fun f => (fst f = 32767 \/ fst f = - 32767) /\ snd f = 0) frames ->
  pump_rms (encode_s16le (stereo frames)) = Some (float_of_int 32767, f0_0).
Proof.
  intros Hne Hall. unfold pump_rms.
  assert (Hr : Forall (fun f => -32768 <= fst f <= 32767 /\ -32768 <= snd f <= 32767)
                      frames).
  { eapply Forall_impl; [|exact Hall]. intros f [[H|H] H0]; lia. }
  destruct (decode_encode_range _ (stereo_range frames Hr)) as [Hd _].
  rewrite Hd, stereo_length.
  assert (Hf : (1 <= List.length frames)%nat).
  { destruct frames; [congruence | cbn [List.length]; lia]. }
  replace (2 <=? 2 * List.length frames)%nat with true
    by (symmetry; apply Nat.leb_le; lia).
  cbv zeta. rewrite (proj1 (evens_stereo frames)), odds_stereo.
  rewrite (pump_mean_full_scale (map fst frames)), (pump_mean_silence (map snd frames)).
  - vm_compute. reflexivity.
  - destruct frames; [congruence | discriminate].
  - eapply Forall_map_channel; [|exact Hall]. now intros f [_ H].
  - destruct frames; [congruence | discriminate].
  - eapply Forall_map_channel; [|exact Hall]. now intros f [H _].
Qed.

Lemma meter_levels_by_channel (s : meter_state) (fb : string) (frames : list (Z * Z)) :
  frames <> [] ->
  Forall (fun f => -32768 <= fst f <= 32767 /\ -32768 <= snd f <= 32767) frames ->
  exists l r,
    channel_level (map Z.abs (map fst frames)) = Some l
    /\ channel_level (map Z.abs (map snd frames)) = Some r
    /\ meter_levels
         (fst (meter_iteration s
                 (mkMeterObs (Captured 0 (encode_s16le (stereo frames))) fb)))
       = mkLevels l r.
Proof.
  intros Hne Hrange.
  destruct (channel_level_unit (map Z.abs (map fst frames))) as [l [El _]].
  destruct (channel_level_unit (map Z.abs (map snd frames))) as [r [Er _]].
  exists l, r. split; [exact El|]. split; [exact Er|].
  now apply meter_levels_stereo.
Qed.

(** C5 (claim as stated, refuted): the claim names two computations, the
    capture meter of [read_audio_levels] and the inline one of the pump
    (lines 597-603), which the specification describes as normalising by
    32768 and clamping to [0,1].  On two frames of the full-scale square
    wave the specification's inline meter gives 32767/32768 on both
    channels; the pump computes 32767.0 on both, which is neither about
    0.99997 nor at most 1.0. *)
Lemma C5_counterexample :
  inline_meter_spec loud_chunk = Some (full_scale_level, full_scale_level)
  /\ pump_rms loud_chunk = Some (float_of_int 32767, float_of_int 32767)
  /\ fle (float_of_int 32767) f1_0 = false
  /\ pump_rms loud_chunk <> inline_meter_spec loud_chunk.
Proof.
  repeat split; try (vm_compute; reflexivity).
  vm_compute. discriminate.
Qed.

(** C5 (amended): the capture meter decodes a chunk as little-endian signed
    16-bit samples, takes the even-indexed ones as the left and the
    odd-indexed ones as the right channel and publishes
    [min(sqrt(mean(x^2)) / 32768, 1.0)] for each.  An all-zero chunk gives
    left = right = 0.0; a chunk whose samples are all +32767 or -32767
    gives 32767/32768 = 0.99996948..., within 1e-6 of 0.99997, on both
    channels; frames that are at full scale on one side and silent on the
    other give 32767/32768 on that side and 0.0 on the other; and for
    every chunk both levels lie in [0.0, 1.0]; the channels are the samples
    at the even and at the odd indices, so that on any chunk of whole
    frames the left level is computed from the first sample of every frame
    and the right level from the second.  The pump's inline computation
    takes the root of the mean square of the same two channels and stops
    there: it gives 0.0 on silence and 32767.0, not normalised and not
    clamped, on the full-scale square wave, and 32767.0 and 0.0 on frames
    that are at full scale on the left and silent on the right. *)
Theorem C5_level_meter (s : meter_state) (fb : string) :
  (forall data, Forall (fun b => b = x00) data -> (4 <= List.length data)%nat ->
     meter_levels (fst (meter_iteration s (mkMeterObs (Captured 0 data) fb)))
     = mkLevels f0_0 f0_0)
  /\ (forall samples,
        Forall (fun x => x = 32767 \/ x = - 32767) samples ->
        (2 <= List.length samples)%nat ->
        meter_levels
          (fst (meter_iteration s (mkMeterObs (Captured 0 (encode_s16le samples)) fb)))
        = mkLevels full_scale_level full_scale_level)
  /\ full_scale_level = fdiv (float_of_int 32767) (float_of_int 32768)
  /\ flt (lit 999969 6) full_scale_level = true
  /\ flt full_scale_level (lit 999971 6) = true
  /\ (forall frames,
        frames <> [] ->
        Forall (fun f => (fst f = 32767 \/ fst f = - 32767) /\ snd f = 0) frames ->
        meter_levels
          (fst (meter_iteration s
                  (mkMeterObs (Captured 0 (encode_s16le (stereo frames))) fb)))
        = mkLevels full_scale_level f0_0)
  /\ (forall frames,
        frames <> [] ->
        Forall (fun f => fst f = 0 /\ (snd f = 32767 \/ snd f = - 32767)) frames ->
        meter_levels
          (fst (meter_iteration s
                  (mkMeterObs (Captured 0 (encode_s16le (stereo frames))) fb)))
        = mkLevels f0_0 full_scale_level)
  /\ (forall samples i,
        nth_error (evens samples) i = nth_error samples (2 * i)
        /\ nth_error (odds samples) i = nth_error samples (2 * i + 1))
  /\ (forall frames,
        frames <> [] ->
        Forall (fun f => -32768 <= fst f <= 32767 /\ -32768 <= snd f <= 32767) frames ->
        exists l r,
          channel_level (map Z.abs (map fst frames)) = Some l
          /\ channel_level (map Z.abs (map snd frames)) = Some r
          /\ meter_levels
               (fst (meter_iteration s
                       (mkMeterObs (Captured 0 (encode_s16le (stereo frames))) fb)))
             = mkLevels l r)
  /\ (forall data,
        match rms_of_chunk data with
        | RmsLevels l => levels_in_unit l
        | _ => true
        end = true)
  /\ (forall o, levels_in_unit (meter_levels s) = true ->
                levels_in_unit (meter_levels (fst (meter_iteration s o))) = true)
  /\ (forall samples,
        Forall (fun x => x = 0) samples -> (2 <= List.length samples)%nat ->
        pump_rms (encode_s16le samples) = Some (f0_0, f0_0))
  /\ (forall frames,
        frames <> [] ->
        Forall (fun f => (fst f = 32767 \/ fst f = - 32767) /\ snd f = 0) frames ->
        pump_rms (encode_s16le (stereo frames)) = Some (float_of_int 32767, f0_0))
  /\ (forall samples,
        Forall (fun x => x = 32767 \/ x = - 32767) samples ->
        (2 <= List.length samples)%nat ->
        pump_rms (encode_s16le samples) = Some (float_of_int 32767, float_of_int 32767))
  /\ fle (float_of_int 32767) f1_0 = false.
Proof.
  split; [exact (meter_levels_silence s fb)|].
  split; [exact (meter_levels_full_scale s fb)|].
  split; [vm_compute; reflexivity|].
  split; [vm_compute; reflexivity|].
  split; [vm_compute; reflexivity|].
  split; [exact (meter_levels_left_only s fb)|].
  split; [exact (meter_levels_right_only s fb)|].
  split; [intros samples i; split; [apply evens_nth_error | apply odds_nth_error]|].
  split; [exact (meter_levels_by_channel s fb)|].
  split; [exact rms_of_chunk_unit|].
  split; [exact (meter_levels_unit s)|].
  split; [exact pump_rms_silence|].
  split; [exact pump_rms_left_only|].
  split; [exact pump_rms_full_scale | vm_compute; reflexivity].
Qed.

Lemma C5_level_meter_witness :
  meter_levels (fst (meter_iteration meter_init
                       (mkMeterObs (Captured 0 [x00; x00; x00; x00]) "hw:1,0")))
    = mkLevels f0_0 f0_0
  /\ meter_levels (fst (meter_iteration meter_init
                          (mkMeterObs (Captured 0 loud_chunk) "hw:1,0")))
    = mkLevels full_scale_level full_scale_level
  /\ meter_levels
       (fst (meter_iteration meter_init
               (mkMeterObs (Captured 0 (encode_s16le (stereo [(32767, 0); (- 32767, 0)])))
                           "hw:1,0")))
    = mkLevels full_scale_level f0_0
  /\ levels_in_unit (meter_levels (fst (meter_iteration meter_init loud_read))) = true
  /\ pump_rms loud_chunk = Some (float_of_int 32767, float_of_int 32767).
Proof.
  destruct (C5_level_meter meter_init "hw:1,0")
    as [Hzero [Hfull [_ [_ [_ [Hleft [_ [_ [_ [_ [Hunit [_ [_ [Hpump _]]]]]]]]]]]]]].
  split; [|split; [|split; [|split]]].
  - apply Hzero; [repeat constructor | cbn; lia].
  - apply (Hfull [32767; - 32767; 32767; - 32767]).
    + repeat constructor; solve [now left | now right].
    + cbn; lia.
  - apply (Hleft [(32767, 0); (- 32767, 0)]); [discriminate|].
    repeat constructor; solve [now left | now right].
  - apply Hunit. reflexivity.
  - apply (Hpump [32767; - 32767; 32767; - 32767]).
    + repeat constructor; solve [now left | now right].
    + cbn; lia.
Defined.

(** ** C8: the capture meter on repeated failure *)

(** Once a threshold is reached on a failed capture, the device of the next
    attempt is the detected fallback device. *)
Lemma meter_switches_at_threshold (s : meter_state) (returncode : Z) (data : list byte)
    (fallback_dev : string) :
  negb (returncode =? 0) || (List.length data <? 4)%nat = true ->
  (10 <=? empty_count s + 1)
  || (3 <=? (if negb (returncode =? 0) then error_count s + 1 else error_count s)) = true ->
  nonempty fallback_dev = true ->
  device_in_use (fst (meter_iteration s (mkMeterObs (Captured returncode data) fallback_dev)))
  = fallback_dev.
Proof.
  intros Hfail Hthr Hfb. unfold meter_iteration. cbn [obs_capture obs_fallback_input].
  rewrite Hfail. cbv zeta. rewrite Hthr, Hfb. cbn [andb].
  destruct (String.eqb fallback_dev (device_in_use s)) eqn:E; cbn [negb fst device_in_use].
  - symmetry. now apply String.eqb_eq.
  - reflexivity.
Qed.

(** C8 (the code at the failing input): after one loud capture, ten
    captures in a row return nothing.  The meter switches to the detected
    fallback device at the tenth, as claimed, but during the nine failed
    captures before the switch (and after it) the published levels stay at
    the last loud value instead of zero; only the [except] paths reset
    [audio_levels] to zero.  Three captures in a row that exit with an error
    status switch the device at the third. *)
Theorem C8_levels_stay_stale_on_empty_reads :
  map device_in_use (read_audio_levels meter_init (loud_read :: repeat empty_read 10))
    = repeat "hw:1,0"%string 10 ++ ["hw:2,0"%string]
  /\ map empty_count (read_audio_levels meter_init (loud_read :: repeat empty_read 10))
    = [0; 1; 2; 3; 4; 5; 6; 7; 8; 9; 0]
  /\ map meter_levels (read_audio_levels meter_init (loud_read :: repeat empty_read 10))
    = repeat (mkLevels full_scale_level full_scale_level) 11
  /\ mkLevels full_scale_level full_scale_level <> zero_levels
  /\ map meter_levels (read_audio_levels meter_init [loud_read; raised_read])
    = [mkLevels full_scale_level full_scale_level; zero_levels]
  /\ map device_in_use (read_audio_levels meter_init (repeat failed_read 3))
    = ["hw:1,0"; "hw:1,0"; "hw:2,0"]%string.
Proof.
  split; [vm_compute; reflexivity|].
  split; [vm_compute; reflexivity|].
  split; [vm_compute; reflexivity|].
  split; [vm_compute; discriminate|].
  split; vm_compute; reflexivity.
Qed.

(* ===================================================================== *)
(** * Part II, continued: the code around the decoder                     *)
(* ===================================================================== *)

(** ** Strings *)

Lemma append_nil_r (s : string) : (s ++ "")%string = s.
Proof. induction s as [|c s IH]; [reflexivity | cbn; now rewrite IH]. Qed.

Lemma append_assoc (a b c : string) : ((a ++ b) ++ c)%string = (a ++ b ++ c)%string.
Proof. induction a as [|x a IH]; [reflexivity | cbn; now rewrite IH]. Qed.

Lemma all_chars_app (p : ascii -> bool) (a b : string) :
  all_chars p (a ++ b) = all_chars p a && all_chars p b.
Proof.
  induction a as [|c a IH]; [reflexivity|].
  cbn. rewrite IH. now rewrite andb_assoc.
Qed.

Lemma contains_cons (pat : string) (c : ascii) (s : string) :
  contains pat (String c s) = String.prefix pat (String c s) || contains pat s.
Proof.
  unfold contains. cbn [String.index].
  destruct (String.prefix pat (String c s)); [reflexivity|].
  cbn [orb]. destruct (String.index 0 pat s); reflexivity.
Qed.

Lemma prefix_without (e : ascii) (t : string) :
  forall q s, all_chars (is_not e) s = true -> String.prefix (q ++ String e t) s = false.
Proof.
  induction q as [|a q IH]; intros [|b s] Hs; cbn; try reflexivity.
  - cbn in Hs. apply andb_prop in Hs as [Hb _].
    destruct (ascii_dec e b) as [->|]; [|reflexivity].
    unfold is_not in Hb. now rewrite Ascii.eqb_refl in Hb.
  - cbn in Hs. apply andb_prop in Hs as [_ Hs].
    destruct (ascii_dec a b); [now apply IH | reflexivity].
Qed.

Lemma contains_without (e : ascii) (q t s : string) :
  all_chars (is_not e) s = true -> contains (q ++ String e t) s = false.
Proof.
  induction s as [|b s IH]; intros Hs.
  - destruct q; reflexivity.
  - rewrite contains_cons, (prefix_without e t q _ Hs).
    cbn in Hs. apply andb_prop in Hs as [_ Hs]. now rewrite IH.
Qed.

Lemma prefix_key (e : ascii) (v : string) :
  forall p k, all_chars (is_not e) p = true -> all_chars (is_not e) k = true ->
    String.prefix (p ++ String e "") (k ++ String e v) = String.eqb k p.
Proof.
  induction p as [|a p IH]; intros [|b k] Hp Hk; cbn.
  - destruct (ascii_dec e e); [destruct v; reflexivity | congruence].
  - cbn in Hk. apply andb_prop in Hk as [Hb _].
    destruct (ascii_dec e b) as [->|]; [|reflexivity].
    unfold is_not in Hb. now rewrite Ascii.eqb_refl in Hb.
  - cbn in Hp. apply andb_prop in Hp as [Ha _].
    destruct (ascii_dec a e) as [->|]; [|reflexivity].
    unfold is_not in Ha. now rewrite Ascii.eqb_refl in Ha.
  - cbn in Hp, Hk. apply andb_prop in Hp as [_ Hp]. apply andb_prop in Hk as [_ Hk].
    destruct (ascii_dec a b) as [->|Hne].
    + rewrite Ascii.eqb_refl. cbn [andb]. now apply IH.
    + replace (Ascii.eqb b a) with false; [reflexivity|].
      symmetry. apply Ascii.eqb_neq. congruence.
Qed.

(** A pattern that ends in a character which the text holds once occurs in
    the text exactly when the rest of the pattern ends the part before that
    character. *)
Lemma contains_key (e : ascii) (p v : string) :
  all_chars (is_not e) p = true -> all_chars (is_not e) v = true ->
  forall k, all_chars (is_not e) k = true ->
    contains (p ++ String e "") (k ++ String e v) = endswith p k.
Proof.
  intros Hp Hv. induction k as [|b k IH]; intros Hk.
  - change ("" ++ String e v)%string with (String e v).
    rewrite contains_cons.
    change (String e v) with ("" ++ String e v)%string at 1.
    rewrite (prefix_key e v p "" Hp eq_refl), (contains_without e p "" v Hv).
    reflexivity.
  - change (String b k ++ String e v)%string with (String b (k ++ String e v)).
    rewrite contains_cons.
    change (String b (k ++ String e v)) with (String b k ++ String e v)%string.
    rewrite (prefix_key e v p (String b k) Hp Hk).
    cbn in Hk. apply andb_prop in Hk as [_ Hk]. rewrite (IH Hk). reflexivity.
Qed.

Lemma split_on_without (sep : ascii) (s : string) :
  all_chars (is_not sep) s = true -> split_on sep s = [s].
Proof.
  induction s as [|c s IH]; intros Hs; [reflexivity|].
  cbn in Hs. apply andb_prop in Hs as [Hc Hs].
  cbn. unfold is_not in Hc. apply negb_true_iff in Hc. rewrite Hc, (IH Hs). reflexivity.
Qed.

Lemma split_on_app (sep : ascii) (b : string) :
  forall a, all_chars (is_not sep) a = true ->
    split_on sep (a ++ String sep b) = a :: split_on sep b.
Proof.
  induction a as [|c a IH]; intros Ha.
  - cbn. now rewrite Ascii.eqb_refl.
  - cbn in Ha. apply andb_prop in Ha as [Hc Ha].
    cbn. unfold is_not in Hc. apply negb_true_iff in Hc. rewrite Hc, (IH Ha). reflexivity.
Qed.

Lemma split_on_unlines (ls : list string) :
  Forall (fun l => all_chars (is_not "010") l = true) ls ->
  split_on "010" (unlines ls) = (ls ++ [""%string])%list.
Proof.
  induction 1 as [|l ls Hl _ IH]; [reflexivity|].
  cbn [unlines]. unfold nl.
  change (l ++ String "010" "" ++ unlines ls)%string
    with (l ++ String "010" (unlines ls))%string.
  rewrite (split_on_app _ _ _ Hl), IH. reflexivity.
Qed.

Lemma length_lstrip (s : string) : (String.length (lstrip s) <= String.length s)%nat.
Proof.
  induction s as [|c s IH]; [apply Nat.le_refl|].
  cbn. destruct (is_space c); cbn; lia.
Qed.

Lemma length_rstrip_chars (d : ascii -> bool) (s : string) :
  (String.length (rstrip_chars d s) <= String.length s)%nat.
Proof.
  induction s as [|c s IH]; [apply Nat.le_refl|].
  cbn. destruct (rstrip_chars d s); [destruct (d c)|]; cbn in *; lia.
Qed.

Lemma rstrip_chars_stable (d : ascii -> bool) (s : string) :
  rstrip_chars d s = s -> s <> ""%string ->
  forall a, rstrip_chars d (a ++ s) = (a ++ s)%string.
Proof.
  intros Hs Hne. induction a as [|c a IH]; [exact Hs|].
  cbn. rewrite IH. destruct (a ++ s)%string eqn:E; [|reflexivity].
  destruct a; [cbn in E; congruence | discriminate].
Qed.

(** A string that [strip] leaves alone is empty, or neither begins nor ends
    with white space. *)
Lemma strip_fixed (v : string) :
  strip v = v ->
  v = ""%string \/ (v <> ""%string /\ lstrip v = v /\ rstrip v = v).
Proof.
  intros H. destruct v as [|c r]; [now left|]. right.
  split; [discriminate|].
  assert (L : lstrip (String c r) = String c r).
  { cbn. destruct (is_space c) eqn:E; [|reflexivity].
    exfalso. unfold strip in H. cbn [lstrip] in H. rewrite E in H.
    pose proof (length_rstrip_chars is_space (lstrip r)) as H1.
    pose proof (length_lstrip r) as H2.
    unfold rstrip in H. rewrite H in H1. cbn in H1. lia. }
  split; [exact L|]. unfold strip in H. now rewrite L in H.
Qed.

Lemma rstrip_chars_last (d : ascii -> bool) (c : ascii) :
  d c = true ->
  forall a, rstrip_chars d (a ++ String c "") = rstrip_chars d a.
Proof.
  intros Hc. induction a as [|x a IH]; cbn.
  - now rewrite Hc.
  - now rewrite IH.
Qed.

Lemma all_chars_impl (p q : ascii -> bool) (s : string) :
  (forall c, p c = true -> q c = true) -> all_chars p s = true -> all_chars q s = true.
Proof.
  intros Hpq. induction s as [|c s IH]; [reflexivity|].
  cbn [all_chars]. intros H. apply andb_prop in H as [Hc Hs].
  now rewrite (Hpq c Hc), (IH Hs).
Qed.

Lemma survives_parts (v : string) :
  survives v = true ->
  all_chars (is_not "=") v = true /\ all_chars (is_not "010") v = true /\ strip v = v.
Proof.
  unfold survives. intros H. apply andb_prop in H as [Hc Hs].
  apply String.eqb_eq in Hs. split; [|split; [|exact Hs]].
  - apply (all_chars_impl plain_char); [|exact Hc].
    intros c H. unfold plain_char in H. now apply andb_prop in H as [H1 _].
  - apply (all_chars_impl plain_char); [|exact Hc].
    intros c H. unfold plain_char in H. now apply andb_prop in H as [_ H1].
Qed.

Lemma tail_of_without (e : ascii) (v : string) :
  is_not e " " = true -> all_chars (is_not e) v = true ->
  all_chars (is_not e) (tail_of v) = true.
Proof.
  intros He Hv. unfold tail_of. destruct (nonempty v); [|reflexivity].
  change (all_chars (is_not e) (" " ++ v))
    with (is_not e " " && all_chars (is_not e) v).
  now rewrite He.
Qed.

Lemma strip_tail_of (v : string) : strip v = v -> strip (tail_of v) = v.
Proof.
  intros H. unfold tail_of. destruct v as [|c r]; [reflexivity|].
  cbn [nonempty]. exact H.
Qed.

(** What [strip] leaves of a line [key = value]. *)
Lemma strip_key_line (c0 : ascii) (K v : string) :
  is_space c0 = false -> strip v = v ->
  strip (String c0 K ++ " = " ++ v)
  = ((String c0 K ++ " ") ++ String "=" (tail_of v))%string.
Proof.
  intros Hc Hv. unfold strip.
  assert (L : lstrip (String c0 K ++ " = " ++ v) = (String c0 K ++ " = " ++ v)%string).
  { cbn. now rewrite Hc. }
  rewrite L. clear L. unfold rstrip.
  destruct (strip_fixed v Hv) as [->|[Hne [_ Hr]]].
  - cbn [tail_of nonempty].
    replace (String c0 K ++ " = " ++ "")%string
      with (((String c0 K ++ " ") ++ "=") ++ String " " "")%string
      by (now rewrite !append_assoc).
    rewrite (rstrip_chars_last is_space " " eq_refl).
    apply (rstrip_chars_stable is_space "="); [reflexivity | discriminate].
  - unfold tail_of. destruct v as [|x r]; [congruence|]. cbn [nonempty].
    replace (String c0 K ++ " = " ++ String x r)%string
      with (((String c0 K ++ " ") ++ "= ") ++ String x r)%string
      by (now rewrite !append_assoc).
    rewrite (rstrip_chars_stable is_space (String x r) Hr Hne).
    now rewrite !append_assoc.
Qed.

Lemma value_of_key_line (k v : string) :
  all_chars (is_not "=") k = true -> all_chars (is_not "=") v = true -> strip v = v ->
  value_of (k ++ String "=" (tail_of v)) = v.
Proof.
  intros Hk Hv Hs. unfold value_of.
  rewrite (split_on_app "=" _ _ Hk).
  rewrite (split_on_without "=" (tail_of v)) by (now apply tail_of_without).
  cbn [nth]. now apply strip_tail_of.
Qed.

(** One line [key = value] of the file, for a value that survives. *)
Lemma load_line_key (c0 : ascii) (K v : string) (c : config) :
  is_space c0 = false -> all_chars (is_not "=") (String c0 K) = true ->
  survives v = true ->
  load_line c (String c0 K ++ " = " ++ v)
  = let k := (String c0 K ++ " ")%string in
    if endswith "server " k then set_server v c
    else if endswith "port " k then set_port v c
    else if endswith "password " k then set_password v c
    else if endswith "mountPoint " k then set_mountPoint v c
    else if endswith "bitrate " k then set_bitrate v c
    else if endswith "sampleRate " k then set_sampleRate v c
    else if endswith "device " k then set_device v c
    else if endswith "name " k then set_streamName v c
    else if endswith "bufferSecs " k then set_bufferSecs v c
    else c.
Proof.
  intros Hc HK Hv. destruct (survives_parts v Hv) as [He [_ Hs]].
  unfold load_line. cbv zeta. rewrite (strip_key_line c0 K v Hc Hs).
  assert (Hk : all_chars (is_not "=") (String c0 K ++ " ") = true).
  { rewrite all_chars_app, HK. reflexivity. }
  assert (Ht : all_chars (is_not "=") (tail_of v) = true)
    by (now apply tail_of_without).
  rewrite (value_of_key_line _ v Hk He Hs).
  change "server ="%string with ("server " ++ String "=" "")%string.
  rewrite (contains_key "=" "server " (tail_of v) eq_refl Ht _ Hk).
  change "port ="%string with ("port " ++ String "=" "")%string.
  rewrite (contains_key "=" "port " (tail_of v) eq_refl Ht _ Hk).
  change "password ="%string with ("password " ++ String "=" "")%string.
  rewrite (contains_key "=" "password " (tail_of v) eq_refl Ht _ Hk).
  change "mountPoint ="%string with ("mountPoint " ++ String "=" "")%string.
  rewrite (contains_key "=" "mountPoint " (tail_of v) eq_refl Ht _ Hk).
  change "bitrate ="%string with ("bitrate " ++ String "=" "")%string.
  rewrite (contains_key "=" "bitrate " (tail_of v) eq_refl Ht _ Hk).
  change "sampleRate ="%string with ("sampleRate " ++ String "=" "")%string.
  rewrite (contains_key "=" "sampleRate " (tail_of v) eq_refl Ht _ Hk).
  change "device ="%string with ("device " ++ String "=" "")%string.
  rewrite (contains_key "=" "device " (tail_of v) eq_refl Ht _ Hk).
  change "name ="%string with ("name " ++ String "=" "")%string.
  rewrite (contains_key "=" "name " (tail_of v) eq_refl Ht _ Hk).
  change "bufferSecs ="%string with ("bufferSecs " ++ String "=" "")%string.
  rewrite (contains_key "=" "bufferSecs " (tail_of v) eq_refl Ht _ Hk).
  reflexivity.
Qed.

Lemma load_line_skip (c : config) (line : string) :
  mentions_key line = false -> load_line c line = c.
Proof.
  unfold mentions_key, load_line. cbv zeta. intros H.
  repeat (apply orb_false_elim in H as [H ?]).
  repeat match goal with E : contains _ _ = false |- _ => rewrite E; clear E end.
  reflexivity.
Qed.

Lemma rstrip_chars_fixed_app (d : ascii -> bool) (a v : string) :
  rstrip_chars d a = a -> rstrip_chars d v = v -> rstrip_chars d (a ++ v) = (a ++ v)%string.
Proof.
  intros Ha Hv. destruct v as [|c r].
  - now rewrite append_nil_r.
  - apply rstrip_chars_stable; [exact Hv | discriminate].
Qed.

Lemma survives_url (server : string) :
  survives server = true -> survives ("http://" ++ server) = true.
Proof.
  intros H. unfold survives in *. apply andb_prop in H as [Hc Hs].
  apply String.eqb_eq in Hs.
  rewrite all_chars_app, Hc. cbn [andb all_chars plain_char]. 
  replace (all_chars plain_char "http://") with true by reflexivity. cbn [andb].
  apply String.eqb_eq. unfold strip.
  change (lstrip ("http://" ++ server)) with ("http://" ++ server)%string.
  apply rstrip_chars_fixed_app; [reflexivity|].
  destruct (strip_fixed server Hs) as [->|[_ [_ Hr]]]; [reflexivity | exact Hr].
Qed.

Lemma int_digits_digits :
  forall s acc b, all_chars is_digit s = true -> (b = true \/ s <> ""%string) ->
    exists n, int_digits s acc b = Some n.
Proof.
  induction s as [|c s IH]; intros acc b Hd Hb.
  - destruct Hb as [->|Hne]; [now exists acc | congruence].
  - cbn [all_chars] in Hd. apply andb_prop in Hd as [Hc Hs].
    cbn [int_digits]. rewrite Hc. apply IH; [exact Hs | now left].
Qed.

Lemma is_digit_not_space (c : ascii) : is_digit c = true -> is_space c = false.
Proof.
  unfold is_digit, is_space. cbv zeta. intros H. apply andb_prop in H as [H1 H2].
  apply Nat.leb_le in H1, H2.
  apply orb_false_iff. split; apply andb_false_iff.
  - right. apply Nat.leb_gt. lia.
  - right. apply Nat.leb_gt. lia.
Qed.

Lemma rstrip_digits (s : string) : all_chars is_digit s = true -> rstrip s = s.
Proof.
  unfold rstrip. induction s as [|c s IH]; [reflexivity|].
  cbn [all_chars]. intros H. apply andb_prop in H as [Hc Hs].
  cbn [rstrip_chars]. rewrite (IH Hs).
  destruct s; [now rewrite (is_digit_not_space c Hc) | reflexivity].
Qed.

Lemma strip_digits (s : string) : all_chars is_digit s = true -> strip s = s.
Proof.
  intros H. unfold strip.
  replace (lstrip s) with s; [now apply rstrip_digits|].
  destruct s as [|c s]; [reflexivity|].
  cbn [all_chars] in H. apply andb_prop in H as [Hc _].
  cbn. now rewrite (is_digit_not_space c Hc).
Qed.

Lemma int_of_str_digits (s : string) :
  isdigit s = true -> exists n, int_of_str s = Some n.
Proof.
  unfold isdigit. intros H. apply andb_prop in H as [Hne Hd].
  unfold int_of_str. rewrite (strip_digits s Hd).
  destruct s as [|c s]; [discriminate|].
  assert (E : exists n, int_digits (String c s) 0 false = Some n).
  { apply int_digits_digits; [exact Hd | right; discriminate]. }
  cbn [all_chars] in Hd. apply andb_prop in Hd as [Hc _].
  destruct c as [b0 b1 b2 b3 b4 b5 b6 b7].
  destruct b0, b1, b2, b3, b4, b5, b6, b7; try discriminate Hc; exact E.
Qed.

(** [save_config] never fails on the buffer size: what it writes is a whole
    number between 1 and 60. *)
Lemma saved_buffer_secs_range (bufferSecs : option string) :
  exists n, 1 <= n <= 60 /\ saved_buffer_secs bufferSecs = Some (str n).
Proof.
  unfold saved_buffer_secs. cbv zeta.
  set (b := strip match bufferSecs with Some v => v | None => "10"%string end).
  destruct (negb (nonempty b) || negb (isdigit b)) eqn:E.
  - exists 5. split; [lia | reflexivity].
  - apply orb_false_elim in E as [_ E]. apply negb_false_iff in E.
    destruct (int_of_str_digits b E) as [n ->].
    exists (Z.max 1 (Z.min 60 n)). split; [lia | reflexivity].
Qed.

Lemma str_survives (n : Z) : 1 <= n <= 60 -> survives (str n) = true.
Proof.
  intros H. apply (forallb_range_Z (fun n => survives (str n)) 1 60);
    [vm_compute; reflexivity | lia].
Qed.

Lemma survives_no_newline (v : string) :
  survives v = true -> all_chars (is_not "010") v = true.
Proof. intros H. now destruct (survives_parts v H) as [_ [H1 _]]. Qed.

Lemma load_line_server (c : config) (v : string) :
  survives v = true -> load_line c ("server = " ++ v) = set_server v c.
Proof. intros H. exact (load_line_key "s" "erver" v c eq_refl eq_refl H). Qed.

Lemma load_line_port (c : config) (v : string) :
  survives v = true -> load_line c ("port = " ++ v) = set_port v c.
Proof. intros H. exact (load_line_key "p" "ort" v c eq_refl eq_refl H). Qed.

Lemma load_line_password (c : config) (v : string) :
  survives v = true -> load_line c ("password = " ++ v) = set_password v c.
Proof. intros H. exact (load_line_key "p" "assword" v c eq_refl eq_refl H). Qed.

Lemma load_line_mountPoint (c : config) (v : string) :
  survives v = true -> load_line c ("mountPoint = " ++ v) = set_mountPoint v c.
Proof. intros H. exact (load_line_key "m" "ountPoint" v c eq_refl eq_refl H). Qed.

Lemma load_line_bitrate (c : config) (v : string) :
  survives v = true -> load_line c ("bitrate = " ++ v) = set_bitrate v c.
Proof. intros H. exact (load_line_key "b" "itrate" v c eq_refl eq_refl H). Qed.

Lemma load_line_sampleRate (c : config) (v : string) :
  survives v = true -> load_line c ("sampleRate = " ++ v) = set_sampleRate v c.
Proof. intros H. exact (load_line_key "s" "ampleRate" v c eq_refl eq_refl H). Qed.

Lemma load_line_device (c : config) (v : string) :
  survives v = true -> load_line c ("device = " ++ v) = set_device v c.
Proof. intros H. exact (load_line_key "d" "evice" v c eq_refl eq_refl H). Qed.

Lemma load_line_name (c : config) (v : string) :
  survives v = true -> load_line c ("name = " ++ v) = set_streamName v c.
Proof. intros H. exact (load_line_key "n" "ame" v c eq_refl eq_refl H). Qed.

Lemma load_line_bufferSecs (c : config) (v : string) :
  survives v = true -> load_line c ("bufferSecs = " ++ v) = set_bufferSecs v c.
Proof. intros H. exact (load_line_key "b" "ufferSecs" v c eq_refl eq_refl H). Qed.

Lemma load_line_url (c : config) (v : string) :
  survives v = true -> load_line c ("url = " ++ v) = c.
Proof. intros H. exact (load_line_key "u" "rl" v c eq_refl eq_refl H). Qed.

Ltac config_step :=
  cbv beta iota delta
    [set_server set_port set_password set_mountPoint set_bitrate set_sampleRate set_device
     set_streamName set_bufferSecs cfg_server cfg_port cfg_password cfg_mountPoint
     cfg_bitrate cfg_sampleRate cfg_device cfg_streamName cfg_bufferSecs].

Lemma universal_newlines_plain (s : string) :
  all_chars (is_not "013") s = true -> universal_newlines s = s.
Proof.
  induction s as [|c s IH]; [reflexivity|].
  cbn [all_chars universal_newlines]. intros H. apply andb_prop in H as [Hc Hs].
  unfold is_not in Hc. apply negb_true_iff in Hc. rewrite Hc. now rewrite (IH Hs).
Qed.

Lemma all_chars_unlines (p : ascii -> bool) (ls : list string) :
  p "010"%char = true -> Forall (fun l => all_chars p l = true) ls ->
  all_chars p (unlines ls) = true.
Proof.
  intros Hnl. induction 1 as [|l ls Hl _ IH]; [reflexivity|].
  cbn [unlines]. unfold nl. rewrite !all_chars_app, Hl, IH. cbn [all_chars]. now rewrite Hnl.
Qed.

Lemma plain_text_no_cr (v : string) :
  plain_text v = true -> all_chars (is_not "013") v = true.
Proof.
  apply all_chars_impl. intros ch H. unfold text_char in H.
  now apply andb_prop in H as [_ H].
Qed.

Lemma str_no_cr (n : Z) : 1 <= n <= 60 -> all_chars (is_not "013") (str n) = true.
Proof.
  intros H. apply (forallb_range_Z (fun n => all_chars (is_not "013") (str n)) 1 60);
    [vm_compute; reflexivity | lia].
Qed.

(** X1: saving the encoder configuration and loading it again gives back
    every setting other than the buffer size, provided its value is ASCII
    text that holds no equals sign, no line feed, no carriage return and no
    white space at either end (the password may be empty).  The buffer
    size, given as ASCII text of at most 4300 characters, comes back as a
    whole number of seconds [n] between 1 and 60, whatever was asked for:
    that is what the file holds and what is loaded. *)
Theorem config_round_trip (c : config) :
  config_survives c = true ->
  exists held n,
    save_config (request_of c) = Some held
    /\ 1 <= n <= 60
    /\ saved_buffer_secs (Some (cfg_bufferSecs c)) = Some (str n)
    /\ load_config (Some held) = set_bufferSecs (str n) c.
Proof.
  destruct c as [server port password mountPoint bitrate sampleRate device streamName
                 bufferSecs].
  unfold config_survives. cbn [cfg_server cfg_port cfg_password cfg_mountPoint cfg_bitrate
    cfg_sampleRate cfg_device cfg_streamName cfg_bufferSecs].
  intros H.
  apply andb_prop in H as [H _]. apply andb_prop in H as [H _].
  apply andb_prop in H as [H Hplain]. cbn [forallb] in Hplain.
  apply andb_prop in Hplain as [Pserver Hplain]. apply andb_prop in Hplain as [Pport Hplain].
  apply andb_prop in Hplain as [Ppass Hplain]. apply andb_prop in Hplain as [Pmount Hplain].
  apply andb_prop in Hplain as [Pbit Hplain]. apply andb_prop in Hplain as [Prate Hplain].
  apply andb_prop in Hplain as [Pdev Hplain]. apply andb_prop in Hplain as [Pname _].
  apply plain_text_no_cr in Pserver, Pport, Ppass, Pmount, Pbit, Prate, Pdev, Pname.
  apply andb_prop in H as [H Hname]. apply andb_prop in H as [H Hdev].
  apply andb_prop in H as [H Hrate]. apply andb_prop in H as [H Hbit].
  apply andb_prop in H as [H Hmount]. apply andb_prop in H as [H Hpass].
  apply andb_prop in H as [Hserver Hport].
  destruct (saved_buffer_secs_range (Some bufferSecs)) as [n [Hn Hb]].
  pose proof (str_survives n Hn) as Hbuf.
  pose proof (survives_url server Hserver) as Hurl.
  unfold save_config, request_of.
  cbn [rq_server rq_port rq_password rq_mountPoint rq_bitrate rq_sampleRate rq_device
       rq_streamName rq_bufferSecs cfg_server cfg_port cfg_password cfg_mountPoint
       cfg_bitrate cfg_sampleRate cfg_device cfg_streamName cfg_bufferSecs].
  rewrite Hb. exists (config_content (str n) device sampleRate bitrate server port password
                                     mountPoint streamName), n.
  split; [reflexivity|]. split; [exact Hn|]. split; [reflexivity|].
  pose proof (str_no_cr n Hn) as Pbuf.
  unfold load_config. cbv zeta. rewrite universal_newlines_plain.
  2:{ unfold config_content. apply all_chars_unlines; [reflexivity|].
      repeat first
        [ apply Forall_nil
        | apply Forall_cons;
          [ first [ reflexivity
                  | rewrite !all_chars_app; repeat (apply andb_true_intro; split);
                    first [ reflexivity | assumption ] ] | ] ]. }
  unfold config_content, default_config.
  rewrite split_on_unlines.
  2:{ repeat first
        [ apply Forall_nil
        | apply Forall_cons;
          [ first [ reflexivity
                  | rewrite all_chars_app; apply andb_true_intro; split;
                    [reflexivity | now apply survives_no_newline] ] | ] ]. }
  cbn [fold_left List.app].
  rewrite (load_line_skip _ "[general]" eq_refl).
  rewrite (load_line_skip _ "duration = 0" eq_refl).
  rewrite (load_line_bufferSecs _ (str n) Hbuf). config_step.
  rewrite (load_line_skip _ "reconnect = yes" eq_refl).
  rewrite (load_line_skip _ "reconnectDelay = 5" eq_refl).
  rewrite (load_line_skip _ "logLevel = 2" eq_refl).
  rewrite (load_line_skip _ "" eq_refl).
  rewrite (load_line_skip _ "[input]" eq_refl).
  rewrite (load_line_device _ device Hdev). config_step.
  rewrite (load_line_sampleRate _ sampleRate Hrate). config_step.
  rewrite (load_line_skip _ "bitsPerSample = 16" eq_refl).
  rewrite (load_line_skip _ "channel = 2" eq_refl).
  rewrite (load_line_skip _ "[icecast2-0]" eq_refl).
  rewrite (load_line_skip _ "bitrateMode = cbr" eq_refl).
  rewrite (load_line_bitrate _ bitrate Hbit). config_step.
  rewrite (load_line_skip _ "format = mp3" eq_refl).
  rewrite (load_line_server _ server Hserver). config_step.
  rewrite (load_line_port _ port Hport). config_step.
  rewrite (load_line_password _ password Hpass). config_step.
  rewrite (load_line_mountPoint _ mountPoint Hmount). config_step.
  rewrite (load_line_name _ streamName Hname). config_step.
  rewrite (load_line_skip _ "description = Audio stream from Momento" eq_refl).
  rewrite (load_line_skip _ "genre = Various" eq_refl).
  rewrite (load_line_url _ ("http://" ++ server) Hurl). config_step.
  rewrite (load_line_skip _ "public = yes" eq_refl).
  unfold set_bufferSecs. reflexivity.
Qed.

Lemma config_round_trip_witness :
  exists held n,
    save_config (request_of default_config) = Some held
    /\ 1 <= n <= 60
    /\ saved_buffer_secs (Some (cfg_bufferSecs default_config)) = Some (str n)
    /\ load_config (Some held) = set_bufferSecs (str n) default_config.
Proof. apply (config_round_trip default_config). reflexivity. Defined.








Lemma splitlines_without (e : ascii) :
  forall s after_cr, all_chars (is_not e) s = true ->
    Forall (fun l => all_chars (is_not e) l = true) (splitlines_from after_cr s).
Proof.
  induction s as [|c s IH]; intros after_cr Hs; [constructor|].
  cbn [all_chars] in Hs. apply andb_prop in Hs as [Hc Hs].
  cbn [splitlines_from].
  destruct (after_cr && Ascii.eqb c "010"); [now apply IH|].
  destruct (is_linebreak c); [constructor; [reflexivity | now apply IH]|].
  specialize (IH false Hs). destruct (splitlines_from false s) as [|l ls].
  - constructor; [|constructor]. cbn. now rewrite Hc.
  - inversion IH as [|? ? Hl Hls]; subst. constructor; [|exact Hls].
    cbn. now rewrite Hc, Hl.
Qed.

Lemma card_re_needs_backslash (g : group) (line : string) :
  all_chars (is_not "\") line = true -> match_here card_re g line = None.
Proof.
  intros H. unfold card_re.
  destruct line as [|c1 [|c2 [|c3 [|c4 [|c5 r]]]]]; cbn [match_here];
    repeat match goal with
           | |- context [if lit_char_i ?a ?b then _ else _] => destruct (lit_char_i a b)
           end; try reflexivity.
  cbn [all_chars] in H. repeat (apply andb_prop in H as [? H]).
  replace (lit_char "\" c5) with false; [reflexivity|].
  symmetry. unfold lit_char. rewrite Ascii.eqb_sym. now apply negb_true_iff.
Qed.

Lemma card_re_not_found (line : string) :
  all_chars (is_not "\") line = true -> re_search card_re line = None.
Proof.
  induction line as [|c line IH]; intros H.
  - reflexivity.
  - cbn [re_search]. rewrite (card_re_needs_backslash _ _ H).
    cbn [all_chars] in H. apply andb_prop in H as [_ H]. now apply IH.
Qed.

Lemma detected_card_none (listing : completed) :
  all_chars (is_not "\") (stdout listing) = true -> detected_card listing = None.
Proof.
  intros H. unfold detected_card, splitlines. cbv zeta.
  pose proof (splitlines_without "\" _ false H) as Hl.
  induction Hl as [|l ls Hl _ IH]; [reflexivity|].
  cbn [first_usb_card first_card]. rewrite (card_re_not_found l Hl).
  destruct (String.prefix "card " (strip (lower l)) && contains "usb" (lower l));
    destruct (first_usb_card ls); congruence.
Qed.

(** X3: the pattern [_detect_default_devices] searches the listings with
    asks for a backslash after the word [card].  On listings of
    [arecord -l] and [aplay -l] that hold no backslash it therefore finds no
    card, whatever cards are listed and whatever the programs' exit
    status: the answer is input [hw:1,0] and output [default]. *)
Theorem detect_default_devices_finds_no_card (arecord_l aplay_l : option completed) :
  plain_listing arecord_l = true -> plain_listing aplay_l = true ->
  _detect_default_devices arecord_l aplay_l = mkDefaults "hw:1,0" "default".
Proof.
  intros Hin Hout. unfold _detect_default_devices. cbv zeta.
  destruct arecord_l as [r|]; [|reflexivity].
  cbn [plain_listing] in Hin. rewrite (detected_card_none r Hin).
  destruct aplay_l as [p|].
  - cbn [plain_listing] in Hout. rewrite (detected_card_none p Hout).
    destruct (returncode r =? 0), (returncode p =? 0); reflexivity.
  - destruct (returncode r =? 0); reflexivity.
Qed.











Lemma detect_default_devices_finds_no_card_witness :
  _detect_default_devices
    (Some (mkCompleted 0 "card 2: Device [USB Audio Device], device 0: USB Audio [USB Audio]"))
    (Some (mkCompleted 0 "card 0: Headphones [bcm2835 Headphones], device 0: bcm2835"))
  = mkDefaults "hw:1,0" "default".
Proof. apply detect_default_devices_finds_no_card; reflexivity. Defined.


Lemma split_on_cons (sep : ascii) (s : string) : exists h t, split_on sep s = h :: t.
Proof.
  induction s as [|c s [h [t IH]]]; [now exists ""%string, []|].
  cbn. destruct (Ascii.eqb c sep); [now eexists _, _|].
  rewrite IH. now eexists _, _.
Qed.

Lemma concat_cons (sep x : string) (l : list string) :
  l <> [] -> concat sep (x :: l) = (x ++ sep ++ concat sep l)%string.
Proof. destruct l; [congruence | reflexivity]. Qed.

(** Joining what [split] gave restores the string. *)
Lemma join_split_on (sep : ascii) (s : string) :
  join (String sep "") (split_on sep s) = s.
Proof.
  unfold join. induction s as [|c s IH]; [reflexivity|].
  cbn [split_on]. destruct (split_on_cons sep s) as [h [t Hs]].
  destruct (Ascii.eqb c sep) eqn:E.
  - apply Ascii.eqb_eq in E. subst c.
    rewrite concat_cons by (rewrite Hs; discriminate). now rewrite IH.
  - rewrite Hs in *. destruct t as [|h2 t].
    + cbn [concat] in *. now rewrite IH.
    + rewrite concat_cons by discriminate.
      rewrite concat_cons in IH by discriminate.
      change (String c h ++ String sep "" ++ concat (String sep "") (h2 :: t))%string
        with (String c (h ++ String sep "" ++ concat (String sep "") (h2 :: t))).
      now rewrite IH.
Qed.

Lemma split_on_append (sep : ascii) (b : string) :
  forall a, split_on sep (a ++ String sep b) = (split_on sep a ++ split_on sep b)%list.
Proof.
  induction a as [|c a IH].
  - cbn. now rewrite Ascii.eqb_refl.
  - change (String c a ++ String sep b)%string with (String c (a ++ String sep b)).
    cbn [split_on]. rewrite IH.
    destruct (Ascii.eqb c sep); [reflexivity|].
    destruct (split_on_cons sep a) as [h [t Hs]]. rewrite Hs. reflexivity.
Qed.

(** The playlist's directory: the URL up to its last slash. *)
Lemma playlist_base (base name : string) :
  all_chars (is_not "/") name = true ->
  join "/" (removelast (split_on "/" (base ++ String "/" name))) = base.
Proof.
  intros H. rewrite split_on_append, (split_on_without "/" name H).
  rewrite removelast_last. apply join_split_on.
Qed.


(** X5: a playlist that was fetched (ASCII text) is resolved by its first
    line that is neither blank nor a comment.  An entry that starts with
    [http://] or [https://] is the stream URL as it stands (stripped),
    whatever the playlist's own URL.  Any other entry is appended to the
    directory of the playlist's own URL when that URL starts with lower-case
    [http]; when it does not ([HTTP://], [ftp:], [file:]) the entry is
    passed over like a comment and the search goes on with the lines that
    follow, the playlist's own URL being the answer when they give
    nothing. *)
Theorem parse_m3u_playlist_first_entry (url base name content : string)
    (skipped rest : list string) (entry : string) :
  ascii_text content = true ->
  split_on "010" content = (skipped ++ entry :: rest)%list ->
  forallb skipped_line skipped = true ->
  skipped_line entry = false ->
  (String.prefix "http://" (strip entry) || String.prefix "https://" (strip entry) = true ->
   parse_m3u_playlist url (Some content) = strip entry)
  /\ (String.prefix "http://" (strip entry) || String.prefix "https://" (strip entry) = false ->
      String.prefix "http" url = true ->
      url = (base ++ String "/" name)%string -> all_chars (is_not "/") name = true ->
      parse_m3u_playlist url (Some content) = (base ++ "/" ++ strip entry)%string)
  /\ (String.prefix "http://" (strip entry) || String.prefix "https://" (strip entry) = false ->
      String.prefix "http" url = false ->
      parse_m3u_playlist url (Some content)
      = match first_playlist_entry url rest with
        | Some stream => stream
        | None => url
        end).
Proof.
  intros _ Hlines Hskip Hentry.
  assert (E : first_playlist_entry url (skipped ++ entry :: rest)
              = first_playlist_entry url (entry :: rest)).
  { clear Hlines. induction skipped as [|l ls IH]; [reflexivity|].
    cbn [forallb] in Hskip. apply andb_prop in Hskip as [Hl Hls].
    cbn [List.app first_playlist_entry]. cbv zeta.
    unfold skipped_line in Hl.
    replace (nonempty (strip l) && negb (String.prefix "#" (strip l))) with false.
    - now apply IH.
    - symmetry. destruct (nonempty (strip l)); [|reflexivity].
      cbn [negb orb] in Hl. now rewrite Hl. }
  unfold parse_m3u_playlist. rewrite Hlines, E. clear Hlines E.
  cbn [first_playlist_entry]. cbv zeta.
  unfold skipped_line in Hentry. apply orb_false_elim in Hentry as [H1 H2].
  apply negb_false_iff in H1. rewrite H1, H2. cbn [negb andb].
  split; [|split].
  - intros Habs. now rewrite Habs.
  - intros Habs Hhttp -> Hname. rewrite Habs, Hhttp.
    now rewrite (playlist_base base name Hname).
  - intros Habs Hhttp. now rewrite Habs, Hhttp.
Qed.

Lemma parse_m3u_playlist_first_entry_witness :
  parse_m3u_playlist "http://radio.example/live/list.m3u"
    (Some ("#EXTM3U" ++ nl ++ "  " ++ nl ++ "stream.mp3" ++ nl ++ "other.mp3"))%string
  = "http://radio.example/live/stream.mp3"%string.
Proof.
  apply (parse_m3u_playlist_first_entry "http://radio.example/live/list.m3u"
           "http://radio.example/live" "list.m3u"
           ("#EXTM3U" ++ nl ++ "  " ++ nl ++ "stream.mp3" ++ nl ++ "other.mp3")%string
           ["#EXTM3U"; "  "]%string ["other.mp3"]%string "stream.mp3");
    reflexivity.
Defined.

Lemma octet_facts_hold (x : Z) : 0 <= x <= 255 -> octet_facts x = true.
Proof.
  intros H. apply (forallb_range_Z octet_facts 0 256); [vm_compute; reflexivity | lia].
Qed.

Lemma octet_parts (x : Z) :
  0 <= x <= 255 ->
  all_chars (is_not ".") (str x) = true
  /\ int_of_str (str x) = Some x
  /\ String.length (format_08b x) = 8%nat
  /\ Z.of_nat (significant_bits (format_08b x)) = last_one x
  /\ (last_one x = 0 <-> x = 0).
Proof.
  intros H. pose proof (octet_facts_hold x H) as F. unfold octet_facts in F.
  repeat (apply andb_prop in F as [F ?]).
  repeat split.
  - exact F.
  - destruct (int_of_str (str x)) as [y|]; [|discriminate].
    f_equal. now apply Z.eqb_eq.
  - now apply Nat.eqb_eq.
  - now apply Z.eqb_eq.
  - intros E. apply Z.eqb_eq in E.
    match goal with B : Bool.eqb _ _ = true |- _ => apply Bool.eqb_prop in B; rewrite E in B end.
    apply Z.eqb_eq. now symmetry.
  - intros E. apply Z.eqb_eq in E.
    match goal with B : Bool.eqb _ _ = true |- _ => apply Bool.eqb_prop in B; rewrite E in B end.
    now apply Z.eqb_eq.
Qed.

Lemma length_append (a b : string) :
  String.length (a ++ b) = (String.length a + String.length b)%nat.
Proof. induction a as [|c a IH]; [reflexivity | cbn; now rewrite IH]. Qed.

Lemma rstrip_chars_app (d : ascii -> bool) (y : string) :
  forall x, rstrip_chars d (x ++ y)
            = match rstrip_chars d y with
              | EmptyString => rstrip_chars d x
              | r => (x ++ r)%string
              end.
Proof.
  induction x as [|c x IH].
  - cbn. destruct (rstrip_chars d y); reflexivity.
  - change (String c x ++ y)%string with (String c (x ++ y)).
    cbn [rstrip_chars]. rewrite IH.
    destruct (rstrip_chars d y) as [|c2 r]; [reflexivity|].
    destruct x; reflexivity.
Qed.

Lemma significant_bits_app (x y : string) :
  significant_bits (x ++ y)
  = if Nat.eqb (significant_bits y) 0 then significant_bits x
    else (String.length x + significant_bits y)%nat.
Proof.
  unfold significant_bits. rewrite rstrip_chars_app.
  destruct (rstrip_chars (Ascii.eqb "0") y) as [|c r]; [reflexivity|].
  cbn [String.length Nat.eqb]. now rewrite length_append.
Qed.

Lemma split_dotted (a b c d : Z) :
  0 <= a <= 255 -> 0 <= b <= 255 -> 0 <= c <= 255 -> 0 <= d <= 255 ->
  split_on "." (dotted a b c d) = [str a; str b; str c; str d].
Proof.
  intros Ha Hb Hc Hd. unfold dotted.
  destruct (octet_parts a Ha) as [Fa _]. destruct (octet_parts b Hb) as [Fb _].
  destruct (octet_parts c Hc) as [Fc _]. destruct (octet_parts d Hd) as [Fd _].
  change (str a ++ "." ++ str b ++ "." ++ str c ++ "." ++ str d)%string
    with (str a ++ String "." (str b ++ String "." (str c ++ String "." (str d))))%string.
  rewrite !split_on_app by assumption.
  now rewrite split_on_without.
Qed.

(** X6: for four octets of 0..255, [netmask_to_cidr] answers the position
    of the last bit that is set among the 32, whether or not the bits
    before it are all set: a mask with holes such as 255.0.255.0 is
    answered like 255.255.255.0. *)
Theorem netmask_to_cidr_last_one (a b c d : Z) :
  0 <= a <= 255 -> 0 <= b <= 255 -> 0 <= c <= 255 -> 0 <= d <= 255 ->
  netmask_to_cidr (dotted a b c d)
  = Some (str (if 0 <? d then 24 + last_one d
               else if 0 <? c then 16 + last_one c
               else if 0 <? b then 8 + last_one b
               else last_one a)).
Proof.
  intros Ha Hb Hc Hd. unfold netmask_to_cidr. cbv zeta.
  rewrite (split_dotted a b c d Ha Hb Hc Hd).
  destruct (octet_parts a Ha) as [_ [Ia [La [Sa Za]]]].
  destruct (octet_parts b Hb) as [_ [Ib [Lb [Sb Zb]]]].
  destruct (octet_parts c Hc) as [_ [Ic [Lc [Sc Zc]]]].
  destruct (octet_parts d Hd) as [_ [Id [Ld [Sd Zd]]]].
  cbn [map_raising]. rewrite Ia, Ib, Ic, Id. cbn [option_map].
  unfold join. cbn [concat]. 
  change (format_08b a ++ "" ++ format_08b b ++ "" ++ format_08b c ++ "" ++ format_08b d)%string
    with (format_08b a ++ format_08b b ++ format_08b c ++ format_08b d)%string.
  fold (significant_bits
          (format_08b a ++ format_08b b ++ format_08b c ++ format_08b d)).
  do 2 f_equal.
  rewrite !significant_bits_app, La, Lb, Lc.
  destruct (Nat.eqb_spec (significant_bits (format_08b d)) 0) as [Ed|Ed].
  - assert (d = 0) by (apply Zd; lia). subst d. cbn [Z.ltb Z.compare].
    destruct (Nat.eqb_spec (significant_bits (format_08b c)) 0) as [Ec|Ec].
    + assert (c = 0) by (apply Zc; lia). subst c. cbn [Z.ltb Z.compare].
      destruct (Nat.eqb_spec (significant_bits (format_08b b)) 0) as [Eb|Eb].
      * assert (b = 0) by (apply Zb; lia). subst b. cbn [Z.ltb Z.compare]. exact Sa.
      * assert (b <> 0) by (intros E; apply Zb in E; lia).
        replace (0 <? b) with true by (symmetry; apply Z.ltb_lt; lia).
        cbn [Nat.add Nat.eqb]. rewrite <- Sb. lia.
    + assert (c <> 0) by (intros E; apply Zc in E; lia).
      replace (0 <? c) with true by (symmetry; apply Z.ltb_lt; lia).
      cbn [Nat.add Nat.eqb]. rewrite <- Sc. lia.
  - assert (d <> 0) by (intros E; apply Zd in E; lia).
    replace (0 <? d) with true by (symmetry; apply Z.ltb_lt; lia).
    cbn [Nat.add Nat.eqb]. rewrite <- Sd. lia.
Qed.

Lemma netmask_to_cidr_last_one_witness :
  netmask_to_cidr (dotted 255 0 255 0) = Some "24"%string.
Proof.
  exact (netmask_to_cidr_last_one 255 0 255 0 ltac:(lia) ltac:(lia) ltac:(lia) ltac:(lia)).
Defined.

(** X7: for every prefix length of 0..32, [cidr_to_netmask] gives a dotted
    netmask that [netmask_to_cidr] turns back into that prefix length. *)
Theorem netmask_round_trip (cidr : Z) :
  0 <= cidr <= 32 ->
  exists netmask,
    cidr_to_netmask cidr = Some netmask /\ netmask_to_cidr netmask = Some (str cidr).
Proof.
  intros H.
  assert (R : netmask_round_trips cidr = true).
  { apply (forallb_range_Z netmask_round_trips 0 33); [vm_compute; reflexivity | lia]. }
  unfold netmask_round_trips in R.
  destruct (cidr_to_netmask cidr) as [netmask|]; [|discriminate R].
  exists netmask. split; [reflexivity|].
  destruct (netmask_to_cidr netmask) as [c|]; [|discriminate R].
  apply String.eqb_eq in R. now subst.
Qed.

Lemma netmask_round_trip_witness :
  exists netmask,
    cidr_to_netmask 24 = Some netmask /\ netmask_to_cidr netmask = Some (str 24).
Proof. apply (netmask_round_trip 24). lia. Defined.

(** ** The supervisor loop: what survives any number of passes *)

Lemma returns_ret {A} (P : A -> Prop) (a : A) : P a -> returns P (ret a).
Proof. intros H w a' w' E. injection E as <- _. exact H. Qed.

Lemma returns_bind {A B} (P : B -> Prop) (m : M A) (k : A -> M B) :
  (forall a, returns P (k a)) -> returns P (bind m k).
Proof.
  intros Hk w b w' E. unfold bind in E.
  destruct (m w) as [[a|] w1]; [|discriminate].
  exact (Hk a w1 b w' E).
Qed.

Lemma returns_try {A} (P : A -> Prop) (m h : M A) :
  returns P m -> returns P h -> returns P (try_except m h).
Proof.
  intros Hm Hh w a w' E. unfold try_except in E.
  destruct (m w) as [[a1|] w1] eqn:Em.
  - injection E as <- <-. exact (Hm w a1 w1 Em).
  - exact (Hh w1 a w' E).
Qed.

Ltac returns_step :=
  match goal with
  | |- returns _ (ret _) => apply returns_ret
  | |- returns _ (try_except _ _) => apply returns_try
  | |- returns _ (bind _ _) => apply returns_bind; intros ?
  | |- returns _ (if ?b then _ else _) => destruct b
  | |- returns _ _ => progress cbv zeta
  end.

Ltac in_backoff_values :=
  unfold backoff_values;
  repeat first [ left; vm_compute; reflexivity | right ].

Lemma next_backoff_values (b : float) :
  In b backoff_values -> In (next_backoff b) backoff_values.
Proof.
  intros H. unfold backoff_values in H. cbn [In] in H.
  repeat (destruct H as [<-|H]; [in_backoff_values|]). contradiction.
Qed.

Lemma backoff_values_bounded (b : float) :
  In b backoff_values -> fle (lit 10 1) b = true /\ fle b (lit 100 1) = true.
Proof.
  intros H. unfold backoff_values in H. cbn [In] in H.
  repeat (destruct H as [<-|H]; [split; vm_compute; reflexivity|]). contradiction.
Qed.

Lemma supervisor_iteration_backoff (env : environment) (s : supervisor_state) :
  In (backoff s) backoff_values ->
  returns (fun s' => In (backoff s') backoff_values) (supervisor_iteration env s).
Proof.
  intros Hs. pose proof (next_backoff_values _ Hs) as Hn.
  assert (H1 : In (backoff (mkSup f1_0 0)) backoff_values) by in_backoff_values.
  unfold supervisor_iteration, after_relaunch.
  repeat first [ returns_step | assumption ].
Qed.

Lemma supervisor_iteration_total (env : environment) (s : supervisor_state) :
  total (supervisor_iteration env s).
Proof. unfold supervisor_iteration. apply total_try. repeat total_step. Qed.

(** X8: whatever the environment, the saved settings and the process table,
    and however many passes it makes, the supervisor loop raises no
    exception and its backoff stays one of the seven values 1.0, 1.5, 2.25,
    3.375, 5.0625, 7.59375 and 10.0, so never below one second and never
    above ten. *)
Theorem supervisor_backoff_stays_bounded (env : environment) (fuel : nat) :
  forall (s : supervisor_state) (w : world),
    In (backoff s) backoff_values ->
    exists s' w',
      _decoder_supervisor_loop env fuel s w = (Val s', w')
      /\ In (backoff s') backoff_values
      /\ fle (lit 10 1) (backoff s') = true
      /\ fle (backoff s') (lit 100 1) = true.
Proof.
  induction fuel as [|n IH]; intros s w Hs.
  - exists s, w. split; [reflexivity|]. split; [exact Hs|].
    now apply backoff_values_bounded.
  - cbn [_decoder_supervisor_loop]. unfold bind at 1. unfold get at 1.
    destruct (decoder_should_run w).
    + unfold bind at 1.
      destruct (supervisor_iteration_total env s w) as [s1 [w1 E1]]. rewrite E1.
      apply IH. exact (supervisor_iteration_backoff env s Hs w s1 w1 E1).
    + exists s, w. split; [reflexivity|]. split; [exact Hs|].
      now apply backoff_values_bounded.
Qed.

Lemma supervisor_backoff_stays_bounded_witness :
  exists s' w',
    _decoder_supervisor_loop env_nothing_installed 9 supervisor_init world_supervised
    = (Val s', w')
    /\ In (backoff s') backoff_values.
Proof.
  destruct (supervisor_backoff_stays_bounded env_nothing_installed 9 supervisor_init
              world_supervised) as [s' [w' [E [H _]]]].
  - left. vm_compute. reflexivity.
  - exists s', w'. split; [exact E | exact H].
Defined.

(** ** Launch parameters *)

Lemma bounded_call (f : launcher) (v b p : Z) :
  1 <= b <= 60 -> 0 <= p <= 10 -> bounded_launch_event (Called f v b p) = true.
Proof.
  intros Hb Hp. unfold bounded_launch_event.
  repeat (apply andb_true_intro; split); apply Z.leb_le; lia.
Qed.

Ltac bounded_step :=
  first [ apply only_emit; apply bounded_call; assumption | only_step ].

Lemma vlc_bounded env url dev v b p :
  1 <= b <= 60 -> 0 <= p <= 10 ->
  only bounded_launch_event (_start_vlc_player env url dev v b p).
Proof. intros Hb Hp. unfold _start_vlc_player. repeat bounded_step. Qed.

Lemma ffmpeg_bounded env url dev v b p :
  1 <= b <= 60 -> 0 <= p <= 10 ->
  only bounded_launch_event (_start_ffmpeg_pipeline env url dev v b p).
Proof. intros Hb Hp. unfold _start_ffmpeg_pipeline. repeat bounded_step. Qed.

Lemma mpg123_bounded env url dev v b p :
  1 <= b <= 60 -> 0 <= p <= 10 ->
  only bounded_launch_event (_start_decoder_process env url dev v b p).
Proof. intros Hb Hp. unfold _start_decoder_process. repeat bounded_step. Qed.

Ltac bounded_launchers :=
  first [ apply vlc_bounded; assumption
        | apply ffmpeg_bounded; assumption
        | apply mpg123_bounded; assumption ].

Lemma start_settings_bounds (req : start_request) (dec_config : decoder_settings) :
  1 <= fst (start_settings req dec_config) <= 60
  /\ 0 <= snd (start_settings req dec_config) <= 10.
Proof.
  unfold start_settings. cbv zeta.
  destruct (match req_bufferSecs req with
            | Some v => int_of_jvalue v
            | None => get_int (st_bufferSecs dec_config) 30
            end) as [b|]; [|cbn; lia].
  destruct (match req_playbackCacheSecs req with
            | Some v => int_of_jvalue v
            | None => get_int (st_playbackCacheSecs dec_config) 10
            end) as [c|]; cbn [fst snd]; lia.
Qed.

Lemma legacy_bounded env url dev v b p :
  1 <= b <= 60 -> 0 <= p <= 10 ->
  only bounded_launch_event (legacy_fallbacks env url dev v b p).
Proof.
  intros Hb Hp.
  unfold legacy_fallbacks, piping_fallback, inline_cvlc, pulse_fallback.
  repeat first [ bounded_launchers | only_step ].
Qed.

Lemma start_bounded env req : only bounded_launch_event (api_decoder_start env req).
Proof.
  unfold api_decoder_start, start_after_teardown, start_teardown, restart_meter_for,
    start_finish.
  repeat first
    [ apply legacy_bounded; apply start_settings_bounds
    | apply vlc_bounded; apply start_settings_bounds
    | only_step ].
Qed.

Lemma supervisor_bounded env s : only bounded_launch_event (supervisor_iteration env s).
Proof.
  unfold supervisor_iteration, process_running_check, drop_stale_handles, after_relaunch,
    launch_chain.
  repeat first
    [ apply vlc_bounded; lia
    | apply ffmpeg_bounded; lia
    | apply mpg123_bounded; lia
    | only_step ].
Qed.

(** X9: whatever a start request or the saved settings ask for, the start
    endpoint and the supervisor loop call the backend launchers with a
    buffer of 1 to 60 seconds and a playback cache of 0 to 10 seconds. *)
Theorem launches_within_buffer_limits (env : environment) (w : world) :
  (forall req, exists new,
      trace (snd (api_decoder_start env req w)) = new ++ trace w
      /\ forallb bounded_launch_event new = true)
  /\ (forall s, exists new,
      trace (snd (supervisor_iteration env s w)) = new ++ trace w
      /\ forallb bounded_launch_event new = true).
Proof.
  split.
  - intros req. apply start_bounded.
  - intros s. apply supervisor_bounded.
Qed.

(** ** The supervisor loop: passes that launch nothing *)

(** X10: a pass of the supervisor loop launches something only when a URL is
    saved and the tracked pipeline is not running.  Without a URL it sleeps
    one second and keeps its backoff; with a healthy pipeline it sleeps two
    seconds and resets the backoff.  In both cases the process table, the
    handles and the settings are left as they were. *)
Theorem supervisor_idle_pass (env : environment) (s : supervisor_state) (w : world) :
  nonempty (st_url (status_decoder w)) = false
  \/ fst (process_running_check w) = Val true ->
  supervisor_iteration env s w
  = if nonempty (st_url (status_decoder w))
    then (Val (mkSup f1_0 0), with_trace (Slept f2_0 :: trace w) w)
    else (Val s, with_trace (Slept f1_0 :: trace w) w).
Proof.
  intros H. unfold supervisor_iteration, try_except.
  unfold bind at 1. unfold get at 1. cbv zeta.
  destruct (nonempty (st_url (status_decoder w))) eqn:Hurl; cbn [negb].
  - destruct H as [H|H]; [discriminate|].
    destruct (process_running_check_reads w) as [b Eb].
    rewrite Eb in H. cbn [fst] in H. injection H as ->.
    unfold bind at 1. rewrite Eb. reflexivity.
  - reflexivity.
Qed.

Lemma supervisor_idle_pass_witness :
  supervisor_iteration env_all_ok supervisor_init world_idle
  = (Val supervisor_init, with_trace [Slept f1_0] world_idle).
Proof.
  exact (supervisor_idle_pass env_all_ok supervisor_init world_idle (or_introl eq_refl)).
Defined.

(** ** The stop endpoint *)

Lemma sweep_all_dead (ps : list process) (p : process) :
  In p (map sweep_all ps) -> proc_prog p <> Sox -> proc_alive p = false.
Proof.
  intros Hin Hp. apply in_map_iff in Hin as [q [<- _]].
  destruct (sweep_all_spec q) as [_ [Hg _]].
  specialize (Hg (proc_prog (sweep_all q)) Hp).
  replace (program_eqb (proc_prog (sweep_all q)) (proc_prog (sweep_all q))) with true in Hg
    by (now destruct (proc_prog (sweep_all q))).
  exact Hg.
Qed.

(** X11: with [pkill] available, a stop request always answers success and
    leaves no player behind: the supervision flag is cleared, both handles
    are dropped, every mpg123, aplay, cvlc and ffmpeg process is dead and
    the status probe reports the decoder as stopped, while the saved
    settings are untouched.  A second stop request answers success again
    and changes nothing in the process table. *)
Theorem stop_leaves_nothing_playing (env : environment) (w : world) :
  pkill_exists env = true ->
  fst (api_decoder_stop env w) = Val (mkResponse true 200 MsgStopped)
  /\ decoder_should_run (snd (api_decoder_stop env w)) = false
  /\ decoder_process (snd (api_decoder_stop env w)) = None
  /\ decoder_aplay_process (snd (api_decoder_stop env w)) = None
  /\ (forall p, In p (procs (snd (api_decoder_stop env w))) ->
                proc_prog p <> Sox -> proc_alive p = false)
  /\ get_decoder_status (snd (api_decoder_stop env w)) = false
  /\ status_decoder (snd (api_decoder_stop env w)) = status_decoder w
  /\ fst (api_decoder_stop env (snd (api_decoder_stop env w)))
     = Val (mkResponse true 200 MsgStopped)
  /\ procs (snd (api_decoder_stop env (snd (api_decoder_stop env w))))
     = procs (snd (api_decoder_stop env w)).
Proof.
  intros Hpk.
  destruct (stop_twice env w Hpk) as [H1 [_ [H3 [H4 _]]]].
  rewrite (stop_runs env w Hpk) in *. cbn [fst snd] in *.
  destruct (stopped_world_quiet w) as [_ Hs].
  split; [exact H1|]. split; [reflexivity|]. split; [reflexivity|].
  split; [reflexivity|]. split.
  - intros p Hin Hp. rewrite stopped_procs in Hin. exact (sweep_all_dead _ p Hin Hp).
  - split; [exact Hs|]. split; [reflexivity|]. split; [exact H3 | exact H4].
Qed.

Lemma stop_leaves_nothing_playing_witness :
  fst (api_decoder_stop env_all_ok
         (snd (api_decoder_start env_all_ok request_mp3 world_idle)))
  = Val (mkResponse true 200 MsgStopped)
  /\ get_decoder_status
       (snd (api_decoder_stop env_all_ok
               (snd (api_decoder_start env_all_ok request_mp3 world_idle)))) = false.
Proof.
  destruct (stop_leaves_nothing_playing env_all_ok
              (snd (api_decoder_start env_all_ok request_mp3 world_idle)) eq_refl)
    as [H1 [_ [_ [_ [_ [H6 _]]]]]].
  split; [exact H1 | exact H6].
Defined.

Ltac stop_failed_case :=
  cbv beta iota zeta delta
    [try_except bind terminate set_decoder_should_run set_decoder_process
     set_decoder_aplay_process sleep emit modify get ret raise
     with_decoder_should_run with_procs with_trace with_decoder_process
     with_decoder_aplay_process procs trace decoder_should_run
     decoder_process decoder_aplay_process decoder_current_volume
     audio_levels status_decoder fst snd negb kill_handle];
  repeat split.

(** X12: where [pkill] cannot be run, a stop request answers an error with
    HTTP status 500, and yet the decoder is stopped as far as it is
    tracked: the supervision flag is cleared and both handles are
    terminated and dropped before the first sweep raises.  Players that are
    not tracked keep running. *)
Theorem stop_without_pkill (env : environment) (w : world) :
  pkill_exists env = false ->
  fst (api_decoder_stop env w) = Val (mkResponse false 500 MsgError)
  /\ decoder_should_run (snd (api_decoder_stop env w)) = false
  /\ decoder_process (snd (api_decoder_stop env w)) = None
  /\ decoder_aplay_process (snd (api_decoder_stop env w)) = None
  /\ procs (snd (api_decoder_stop env w))
     = kill_handle (decoder_aplay_process w) (kill_handle (decoder_process w) (procs w)).
Proof.
  intros Hpk. unfold api_decoder_stop, pkill. rewrite Hpk.
  destruct w as [ps dp ap run vol lv st tr].
  destruct dp as [h|], ap as [a|]; stop_failed_case.
Qed.

Lemma stop_without_pkill_witness :
  fst (api_decoder_stop (mkEnv (fun _ => true) false (fun _ => true) "default" "default")
                        world_supervised)
  = Val (mkResponse false 500 MsgError).
Proof.
  exact (proj1 (stop_without_pkill
                  (mkEnv (fun _ => true) false (fun _ => true) "default" "default")
                  world_supervised eq_refl)).
Defined.

(** ** The start endpoint *)

Lemma start_teardown_idle (env : environment) (w : world) :
  get_decoder_status w = false -> start_teardown env w = (Val tt, w).
Proof.
  intros Hs. unfold start_teardown. unfold bind at 1. unfold get at 1.
  rewrite Hs. reflexivity.
Qed.

(** X13: a start request whose URL is empty launches nothing and answers
    "Stream URL is required" (with HTTP status 200), but the decoder that
    was running has been stopped all the same: the teardown comes before
    the URL is looked at. *)
Theorem start_without_url (env : environment) (req : start_request) (w : world) :
  nonempty (req_url req) = false -> pkill_exists env = true ->
  api_decoder_start env req w
  = (Val (mkResponse false 200 MsgUrlRequired),
     if get_decoder_status w then torn_down_world w else w).
Proof.
  intros Hurl Hpk. unfold api_decoder_start. unfold bind at 1.
  destruct (get_decoder_status w) eqn:Hs.
  - rewrite (start_teardown_runs env w Hs Hpk).
    unfold start_after_teardown. cbv zeta. now rewrite Hurl.
  - rewrite (start_teardown_idle env w Hs).
    unfold start_after_teardown. cbv zeta. now rewrite Hurl.
Qed.

Lemma start_without_url_witness :
  api_decoder_start env_all_ok (mkRequest "" "" None None) world_supervised
  = (Val (mkResponse false 200 MsgUrlRequired), torn_down_world world_supervised)
  /\ decoder_should_run (torn_down_world world_supervised) = false.
Proof.
  split; [|reflexivity].
  exact (start_without_url env_all_ok (mkRequest "" "" None None) world_supervised
           eq_refl eq_refl).
Defined.

Lemma torn_down_cvlc_dead (w : world) (p : process) :
  In p (procs (torn_down_world w)) -> proc_prog p = Cvlc -> proc_alive p = false.
Proof.
  unfold torn_down_world. cbn [procs]. intros Hin Hp.
  apply in_map_iff in Hin as [q [<- _]].
  rewrite swept_by_alive in Hp |- *. cbn [proc_prog proc_alive fst snd] in *.
  unfold pkill_matches. rewrite Hp. cbn. apply andb_false_r.
Qed.

(** X14: a start request that finds the decoder reported as running stops it
    before it launches anything: the supervision flag is cleared, the
    tracked handles are terminated and dropped, every cvlc process is
    killed and one second passes; the new launch then proceeds from that
    state, and all its events come after those of the teardown. *)
Theorem start_stops_running_decoder_first (env : environment) (req : start_request)
    (w : world) :
  get_decoder_status w = true -> pkill_exists env = true ->
  api_decoder_start env req w = start_after_teardown env req (torn_down_world w)
  /\ (exists later,
        trace (snd (api_decoder_start env req w)) = later ++ trace (torn_down_world w))
  /\ decoder_should_run (torn_down_world w) = false
  /\ decoder_process (torn_down_world w) = None
  /\ decoder_aplay_process (torn_down_world w) = None
  /\ procs (torn_down_world w)
     = map (swept_by (true, "cvlc"%string))
           (kill_handle (decoder_aplay_process w) (kill_handle (decoder_process w) (procs w)))
  /\ (forall p, In p (procs (torn_down_world w)) -> proc_prog p = Cvlc ->
                proc_alive p = false).
Proof.
  intros Hs Hpk.
  destruct (start_tears_down_first env req w Hs Hpk) as [E L].
  split; [exact E|]. split; [exact L|].
  repeat (split; [reflexivity|]).
  apply torn_down_cvlc_dead.
Qed.

Lemma start_stops_running_decoder_first_witness :
  api_decoder_start env_all_ok request_mp3 world_supervised
  = start_after_teardown env_all_ok request_mp3 (torn_down_world world_supervised).
Proof.
  exact (proj1 (start_stops_running_decoder_first env_all_ok request_mp3 world_supervised
                  eq_refl eq_refl)).
Defined.

(** ** The pump: sizes and order *)

Lemma take_length (b : list byte) :
  forall n, Z.of_nat (List.length (take n b)) <= Z.max 0 n.
Proof.
  induction b as [|x r IH]; intros n; cbn [take List.length]; [lia|].
  destruct (0 <? n) eqn:E.
  - apply Z.ltb_lt in E. cbn [List.length]. specialize (IH (n - 1)). lia.
  - cbn [List.length]. lia.
Qed.

Lemma take_drop (b : list byte) : forall n, take n b ++ drop n b = b.
Proof.
  induction b as [|x r IH]; intros n; cbn [take drop]; [reflexivity|].
  destruct (0 <? n); [cbn; now rewrite IH | reflexivity].
Qed.

Lemma drop_length (b : list byte) :
  forall n, 0 <= n ->
    Z.of_nat (List.length (drop n b)) = Z.max 0 (Z.of_nat (List.length b) - n).
Proof.
  induction b as [|x r IH]; intros n Hn; cbn [drop List.length]; [lia|].
  destruct (0 <? n) eqn:E.
  - apply Z.ltb_lt in E. rewrite (IH (n - 1)) by lia. lia.
  - apply Z.ltb_ge in E. cbn [List.length]. lia.
Qed.

Lemma prefill_loop_bound (playback_cache_bytes : Z) (obs : list prefill_obs) :
  forall cache_buffer,
    Z.of_nat (List.length cache_buffer) <= Z.max 0 playback_cache_bytes ->
    Z.of_nat (List.length (prefill_loop playback_cache_bytes cache_buffer obs))
    <= Z.max 0 playback_cache_bytes.
Proof.
  induction obs as [|o rest IH]; intros cache Hc; cbn [prefill_loop]; [exact Hc|].
  cbv zeta.
  destruct ((Z.of_nat (List.length cache) <? playback_cache_bytes)
            && pre_should_run o && pre_before_deadline o) eqn:E; [|exact Hc].
  apply andb_prop in E as [E _]. apply andb_prop in E as [E _]. apply Z.ltb_lt in E.
  pose proof (take_length (pre_read o)
                (Z.min chunk_size (playback_cache_bytes - Z.of_nat (List.length cache))))
    as Ht.
  destruct (take (Z.min chunk_size (playback_cache_bytes - Z.of_nat (List.length cache)))
                 (pre_read o)) as [|x data] eqn:Et.
  - destruct (pre_ffmpeg_running o); [now apply IH | exact Hc].
  - apply IH. rewrite length_app, Nat2Z.inj_add. unfold chunk_size in Ht. lia.
Qed.

Lemma relay_loop_chunk_sized (obs : list pump_obs) :
  forall cache_buffer, forallb chunk_sized (fst (relay_loop cache_buffer obs)) = true.
Proof.
  induction obs as [|o rest IH]; intros cache; cbn [relay_loop]; [reflexivity|].
  destruct (relay_condition o); [|reflexivity]. cbv zeta.
  assert (Hn : Z.of_nat (List.length (next_chunk cache (obs_read o))) <= chunk_size).
  { unfold next_chunk.
    destruct cache; [apply (take_length (obs_read o) chunk_size)
                    | apply (take_length _ chunk_size)]. }
  destruct (next_chunk cache (obs_read o)) as [|x data] eqn:Ed.
  - unfold prepend. cbn [fst forallb List.app chunk_sized]. apply IH.
  - destruct (obs_write o); unfold prepend; cbn [fst forallb List.app chunk_sized];
      rewrite ?IH; try reflexivity.
    rewrite andb_true_r. apply andb_true_intro. split.
    + apply Z.ltb_lt. cbn [List.length]. lia.
    + now apply Z.leb_le.
Qed.

(** X15: the pump stays within its sizes: the cache it fills before playback
    never holds more than [playback_cache_secs * 176400] bytes, and every
    write to the output stage carries at least one byte and at most 16384,
    whatever the decoder delivers. *)
Theorem pump_sizes (playback_cache_secs : Z) (pre : list prefill_obs)
    (obs : list pump_obs) :
  Z.of_nat (List.length (prefilled playback_cache_secs pre))
  <= Z.max 0 (playback_cache_secs * 176400)
  /\ forallb chunk_sized (fst (_pump_and_meter playback_cache_secs pre obs)) = true.
Proof.
  split.
  - unfold prefilled. cbv zeta.
    replace (playback_cache_secs * 44100 * 2 * 2) with (playback_cache_secs * 176400)
      by lia.
    destruct (0 <? playback_cache_secs * 176400); [|cbn; lia].
    apply prefill_loop_bound. cbn. lia.
  - unfold _pump_and_meter. cbv zeta.
    pose proof (relay_loop_chunk_sized obs (prefilled playback_cache_secs pre)) as H.
    destruct (snd (relay_loop (prefilled playback_cache_secs pre) obs));
      cbn [fst]; rewrite ?forallb_app, ?H; reflexivity.
Qed.

Lemma cache_passes_nil : cache_passes [] = 0%nat.
Proof. reflexivity. Qed.

Lemma cache_passes_drop (x : byte) (r : list byte) :
  cache_passes (x :: r) = S (cache_passes (drop chunk_size (x :: r))).
Proof.
  unfold cache_passes.
  rewrite (drop_length (x :: r) chunk_size) by (unfold chunk_size; lia).
  set (n := Z.of_nat (List.length (x :: r))).
  assert (Hn : 1 <= n) by (unfold n; cbn [List.length]; lia).
  rewrite <- Z2Nat.inj_succ.
  2:{ apply Z.div_pos; unfold chunk_size; lia. }
  f_equal. unfold chunk_size in *.
  destruct (Z.le_gt_cases 16384 n) as [Hge|Hlt].
  - replace (Z.max 0 (n - 16384)) with (n - 16384) by lia.
    replace (n + 16384 - 1) with ((n - 16384 + 16384 - 1) + 1 * 16384) by lia.
    rewrite Z.div_add by lia. lia.
  - replace (Z.max 0 (n - 16384)) with 0 by lia.
    replace ((0 + 16384 - 1) / 16384) with 0 by reflexivity.
    symmetry. apply (Z.div_unique _ _ 1 (n - 1)); lia.
Qed.

Lemma relay_loop_in_order (obs : list pump_obs) :
  Forall (fun o => obs_write o <> WriteError) obs ->
  forall cache_buffer, exists tail,
    written (fst (relay_loop cache_buffer obs)) ++ tail
    = cache_buffer ++ flat_map fresh_chunk (skipn (cache_passes cache_buffer) obs).
Proof.
  induction 1 as [|o rest Ho _ IH]; intros cache.
  - cbn [relay_loop fst written flat_map]. rewrite skipn_nil. cbn [flat_map].
    exists cache. cbn [List.app]. symmetry. apply app_nil_r.
  - cbn [relay_loop]. destruct (relay_condition o); [|eexists; reflexivity]. cbv zeta.
    destruct cache as [|x r].
    + (* the cache is empty: the chunk comes from the decoder *)
      rewrite cache_passes_nil. cbn [skipn flat_map List.app drop].
      destruct (IH []) as [tail Et]. rewrite cache_passes_nil in Et.
      cbn [skipn List.app] in Et.
      change (next_chunk [] (obs_read o)) with (fresh_chunk o).
      destruct (fresh_chunk o) as [|y data] eqn:Ed.
      * exists tail. unfold prepend. cbn [fst written flat_map List.app]. exact Et.
      * set (chunk := y :: data).
        destruct (obs_write o); [| eexists; reflexivity | congruence].
        exists tail. unfold prepend. cbn [fst].
        unfold written in *. cbn [flat_map List.app].
        rewrite <- app_assoc. now rewrite Et.
    + (* the cache holds data: the chunk is its head *)
      rewrite cache_passes_drop. cbn [skipn].
      destruct (IH (drop chunk_size (x :: r))) as [tail Et].
      change (next_chunk (x :: r) (obs_read o)) with (take chunk_size (x :: r)).
      pose proof (take_drop (x :: r) chunk_size) as Htd.
      destruct (take chunk_size (x :: r)) as [|y data] eqn:Ed; [discriminate Ed|].
      set (chunk := y :: data) in *.
      destruct (obs_write o); [| eexists; reflexivity | congruence].
      exists tail. unfold prepend. cbn [fst].
      unfold written in *. cbn [flat_map List.app].
      rewrite <- app_assoc, Et, app_assoc, Htd. reflexivity.
Qed.

Lemma cache_passes_zero (cache_buffer : list byte) :
  cache_passes cache_buffer = 0%nat -> cache_buffer = [].
Proof.
  destruct cache_buffer as [|x r]; [reflexivity|].
  rewrite cache_passes_drop. discriminate.
Qed.

Lemma relay_loop_undisturbed (obs : list pump_obs) :
  Forall (fun o => relay_condition o = true /\ obs_write o = WriteOk) obs ->
  forall cache_buffer,
    (cache_passes cache_buffer <= List.length obs)%nat ->
    written (fst (relay_loop cache_buffer obs))
    = cache_buffer ++ flat_map fresh_chunk (skipn (cache_passes cache_buffer) obs).
Proof.
  induction 1 as [|o rest [Hc Hw] _ IH]; intros cache Hlen.
  - cbn [List.length] in Hlen.
    rewrite (cache_passes_zero cache) by lia. reflexivity.
  - cbn [relay_loop]. rewrite Hc, Hw. cbv zeta.
    destruct cache as [|x r].
    + rewrite cache_passes_nil. cbn [skipn flat_map List.app drop].
      specialize (IH [] ltac:(rewrite cache_passes_nil; lia)).
      rewrite cache_passes_nil in IH. cbn [skipn List.app] in IH.
      change (next_chunk [] (obs_read o)) with (fresh_chunk o).
      destruct (fresh_chunk o) as [|y data] eqn:Ed.
      * unfold prepend. cbn [fst written flat_map List.app]. exact IH.
      * set (chunk := y :: data).
        unfold prepend. cbn [fst].
        unfold written in *. cbn [flat_map List.app].
        now rewrite IH.
    + rewrite cache_passes_drop in Hlen |- *. cbn [skipn]. cbn [List.length] in Hlen.
      specialize (IH (drop chunk_size (x :: r)) ltac:(lia)).
      change (next_chunk (x :: r) (obs_read o)) with (take chunk_size (x :: r)).
      pose proof (take_drop (x :: r) chunk_size) as Htd.
      destruct (take chunk_size (x :: r)) as [|y data] eqn:Ed; [discriminate Ed|].
      set (chunk := y :: data) in *.
      unfold prepend. cbn [fst].
      unfold written in *. cbn [flat_map List.app].
      rewrite IH, app_assoc, Htd. reflexivity.
Qed.

Lemma written_pump (playback_cache_secs : Z) (pre : list prefill_obs)
    (obs : list pump_obs) :
  written (fst (_pump_and_meter playback_cache_secs pre obs))
  = written (fst (relay_loop (prefilled playback_cache_secs pre) obs)).
Proof.
  unfold _pump_and_meter. cbv zeta.
  destruct (snd (relay_loop (prefilled playback_cache_secs pre) obs)); cbn [fst];
    try reflexivity;
    unfold written; rewrite flat_map_app; cbn [flat_map]; now rewrite app_nil_r.
Qed.

(** X16: the pump never writes a byte it has read in the relay loop before
    the whole pre-filled cache, and it reorders and repeats nothing.  As
    long as no write fails with an error other than a broken pipe, what it
    has written to the output stage is either a part of the cache, from its
    start (the loop ended, or is still busy, within the cache), or the
    whole cache followed by a part, from their start, of the chunks read
    from the decoder in the passes after the cache ran out.  When the loop
    condition holds and the write succeeds in every pass, and there are at
    least as many passes as the cache needs, the output is exactly the
    whole cache followed by all those chunks. *)
Theorem pump_relays_in_order (playback_cache_secs : Z) (pre : list prefill_obs)
    (obs : list pump_obs) :
  Forall (fun o => obs_write o <> WriteError) obs ->
  ((exists rest,
      written (fst (_pump_and_meter playback_cache_secs pre obs)) ++ rest
      = prefilled playback_cache_secs pre)
   \/ (exists relayed rest,
         written (fst (_pump_and_meter playback_cache_secs pre obs))
         = prefilled playback_cache_secs pre ++ relayed
         /\ relayed ++ rest
            = flat_map fresh_chunk
                (skipn (cache_passes (prefilled playback_cache_secs pre)) obs)))
  /\ (Forall (fun o => relay_condition o = true /\ obs_write o = WriteOk) obs ->
      (cache_passes (prefilled playback_cache_secs pre) <= List.length obs)%nat ->
      written (fst (_pump_and_meter playback_cache_secs pre obs))
      = prefilled playback_cache_secs pre
        ++ flat_map fresh_chunk
             (skipn (cache_passes (prefilled playback_cache_secs pre)) obs)).
Proof.
  intros H. rewrite written_pump. split.
  - destruct (relay_loop_in_order obs H (prefilled playback_cache_secs pre)) as [tail E].
    apply app_eq_app in E as [l [[E1 E2] | [E1 E2]]].
    + right. exists l, tail. split; [exact E1 | now symmetry].
    + left. exists l. now symmetry.
  - intros Hgood Hlen. now apply relay_loop_undisturbed.
Qed.

Lemma pump_relays_in_order_witness :
  written (fst (_pump_and_meter 1
                  [mkPrefill true true [x01; x02; x03] true; mkPrefill false true [] true]
                  [mkObs true true true [x09] WriteOk;
                   mkObs true true true [x04; x05] WriteOk]))
  = [x01; x02; x03; x04; x05].
Proof.
  apply (pump_relays_in_order 1
           [mkPrefill true true [x01; x02; x03] true; mkPrefill false true [] true]
           [mkObs true true true [x09] WriteOk; mkObs true true true [x04; x05] WriteOk]).
  - repeat constructor; discriminate.
  - repeat constructor.
  - vm_compute. lia.
Defined.

(** ** The capture meter and the device detection *)

Lemma meter_iteration_device (s : meter_state) (o : meter_obs) :
  device_in_use (fst (meter_iteration s o)) = device_in_use s
  \/ device_in_use (fst (meter_iteration s o)) = obs_fallback_input o.
Proof.
  unfold meter_iteration.
  destruct (obs_capture o) as [returncode data|]; [|now left].
  destruct (negb (returncode =? 0) || (List.length data <? 4)%nat).
  - cbv zeta.
    destruct ((10 <=? empty_count s + 1)
              || (3 <=? (if negb (returncode =? 0) then error_count s + 1
                         else error_count s))); [|now left].
    destruct (nonempty (obs_fallback_input o)
              && negb (String.eqb (obs_fallback_input o) (device_in_use s)));
      [now right | now left].
  - destruct (rms_of_chunk data); now left.
Qed.

Lemma fallback_input_plain (arecord_l aplay_l : option completed) :
  plain_listing arecord_l = true -> plain_listing aplay_l = true ->
  default_input (_detect_default_devices arecord_l aplay_l) = "hw:1,0"%string.
Proof.
  intros Hin Hout. unfold _detect_default_devices. cbv zeta.
  destruct arecord_l as [r|]; [|reflexivity].
  cbn [plain_listing] in Hin. rewrite (detected_card_none r Hin).
  destruct aplay_l as [p|].
  - cbn [plain_listing] in Hout. rewrite (detected_card_none p Hout).
    destruct (returncode r =? 0), (returncode p =? 0); reflexivity.
  - destruct (returncode r =? 0); reflexivity.
Qed.

(** X17: with listings of [arecord -l] and [aplay -l] that hold no backslash
    (as all real listings do) the device detection answers [hw:1,0], so the
    only device the capture meter can ever fall back to is [hw:1,0]: a
    meter started on the default capture device [hw:1,0] keeps that device
    however many captures fail, and a meter started on another device is
    at any time on that device or on [hw:1,0]. *)
Theorem meter_falls_back_to_default_only (obs : list meter_obs) :
  Forall detects_from_plain_listings obs ->
  forall s,
    Forall (fun s' => device_in_use s' = device_in_use s
                      \/ device_in_use s' = "hw:1,0"%string)
           (read_audio_levels s obs)
    /\ (device_in_use s = cfg_device default_config ->
        Forall (fun s' => device_in_use s' = "hw:1,0"%string) (read_audio_levels s obs)).
Proof.
  induction 1 as [|o rest Ho _ IH]; intros s.
  - split; [constructor | intros _; constructor].
  - destruct Ho as [ar [ap [Har [Hap Hfb]]]].
    rewrite (fallback_input_plain ar ap Har Hap) in Hfb.
    cbn [read_audio_levels]. cbv zeta.
    destruct (IH (fst (meter_iteration s o))) as [IH1 IH2].
    destruct (meter_iteration_device s o) as [E|E].
    + rewrite E in IH1, IH2. split.
      * constructor; [now left | exact IH1].
      * intros Hs. cbn [cfg_device default_config] in Hs.
        constructor; [now rewrite E | apply IH2; exact Hs].
    + rewrite Hfb in E. split.
      * constructor; [now right|].
        eapply Forall_impl; [|exact IH1].
        intros s' [H1|H1]; right; [now rewrite H1 | exact H1].
      * intros _. constructor; [exact E | apply IH2; now rewrite E].
Qed.

Lemma meter_falls_back_to_default_only_witness :
  Forall (fun s' => device_in_use s' = "hw:1,0"%string)
         (read_audio_levels meter_init
            (repeat (mkMeterObs (Captured 1 []) "hw:1,0") 12)).
Proof.
  apply (meter_falls_back_to_default_only
           (repeat (mkMeterObs (Captured 1 []) "hw:1,0") 12)); [|reflexivity].
  repeat constructor;
    exists (Some (mkCompleted 0 "card 2: Device [USB Audio Device], device 0: USB Audio")),
           None; repeat split; reflexivity.
Defined.

(** ** The saved decoder configuration *)



(** X19: the buffer settings that are saved are not the ones that are played
    with.  [api_save_decoder_config] stores a buffer of 5..120 seconds and a
    playback cache of 0..30 seconds, while a start request that brings no
    settings of its own and the supervisor loop clamp what they read to
    1..60 and 0..10: after a successful save of [b] and [c], both launch
    with a buffer of [max(5, min(60, b))] seconds and a playback cache of
    [max(0, min(10, c))] seconds. *)
Theorem saved_buffer_is_clamped_again (payload : decoder_payload) (st : decoder_file)
    (req : start_request) (b c : Z) :
  dp_bufferSecs payload = Some (JInt b) ->
  dp_playbackCacheSecs payload = Some (JInt c) ->
  cr_success (fst (api_save_decoder_config payload true st)) = true ->
  req_bufferSecs req = None -> req_playbackCacheSecs req = None ->
  start_settings req (settings_of (snd (api_save_decoder_config payload true st)))
  = (Z.max 5 (Z.min 60 b), Z.max 0 (Z.min 10 c))
  /\ option_map (fun x => Z.max 1 (Z.min 60 x))
       (get_int (st_bufferSecs
                   (settings_of (snd (api_save_decoder_config payload true st)))) 10)
     = Some (Z.max 5 (Z.min 60 b))
  /\ option_map (fun x => Z.max 0 (Z.min 10 x))
       (get_int (st_playbackCacheSecs
                   (settings_of (snd (api_save_decoder_config payload true st)))) 3)
     = Some (Z.max 0 (Z.min 10 c)).
Proof.
  intros Hb Hc Hok Hrb Hrc.
  unfold api_save_decoder_config in *. cbv zeta in *.
  rewrite Hb, Hc in *. cbn [int_if_given int_of_jvalue option_map] in *.
  destruct (int_if_given (dp_volume payload)) as [volume|]; [|discriminate Hok].
  unfold start_settings. cbv zeta. rewrite Hrb, Hrc.
  cbn [fst snd settings_of df_bufferSecs df_playbackCacheSecs st_bufferSecs
       st_playbackCacheSecs get_int int_of_jvalue option_map].
  repeat split; f_equal; lia.
Qed.

Lemma saved_buffer_is_clamped_again_witness :
  start_settings (mkRequest "http://x/stream"%string ""%string None None)
    (settings_of
       (snd (api_save_decoder_config
               (mkDecoderPayload None None None (Some (JInt 120)) (Some (JInt 30)))
               true empty_decoder_file)))
  = (60, 10).
Proof.
  exact (proj1 (saved_buffer_is_clamped_again
                  (mkDecoderPayload None None None (Some (JInt 120)) (Some (JInt 30)))
                  empty_decoder_file (mkRequest "http://x/stream"%string ""%string None None) 120 30
                  eq_refl eq_refl eq_refl eq_refl eq_refl)).
Defined.

(** ** A launch that succeeds *)

Lemma is_alive_new (w : world) (p : process) (rest : list process) :
  nth_error (procs w ++ p :: rest) (List.length (procs w)) = Some p.
Proof. rewrite nth_error_app2 by lia. now rewrite Nat.sub_diag. Qed.

Ltac run_launcher :=
  cbv beta iota zeta delta
    [call try_except bind popen poll terminate set_decoder_should_run set_decoder_process
     set_decoder_aplay_process set_decoder_current_volume sleep emit modify get ret raise
     of_option handle_running terminate_if_running
     with_decoder_should_run with_procs with_trace with_decoder_process
     with_decoder_aplay_process with_decoder_current_volume procs trace
     decoder_should_run decoder_process decoder_aplay_process decoder_current_volume
     audio_levels status_decoder fst snd negb andb is_alive pipeline_up].

Lemma nth_error_new (ps : list process) (p : process) (rest : list process) :
  nth_error (ps ++ p :: rest) (List.length ps) = Some p.
Proof. rewrite nth_error_app2 by lia. now rewrite Nat.sub_diag. Qed.

Ltac launcher_case :=
  repeat first
    [ rewrite nth_error_new
    | rewrite nth_error_app1 by (rewrite ?length_app; cbn [List.length]; lia)
    | progress cbn [proc_alive procs decoder_process decoder_aplay_process]
    | match goal with
      | |- context [starts_ok ?e ?n] =>
          let E := fresh "Hs" in destruct (starts_ok e n) eqn:E
      end
    | progress cbv beta iota
    | match goal with
      | |- context [match nth_error ?l ?n with _ => _ end] =>
          destruct (nth_error l n)
      | |- context [if proc_alive ?q then _ else _] => destruct (proc_alive q)
      end ].

Lemma vlc_success env url dev v b p :
  on_success pipeline_up (_start_vlc_player env url dev v b p).
Proof.
  intros w w'. unfold _start_vlc_player.
  destruct w as [ps dp ap run cv lv st tr].
  destruct (exe_exists env Cvlc) eqn:Hx; cbn [negb].
  - destruct (vlc_volume v) as [vol|] eqn:Hv.
    + run_launcher. rewrite Hx. launcher_case; intros E; try discriminate E.
      injection E as <-. run_launcher. launcher_case. reflexivity.
    + run_launcher. intros E; discriminate E.
  - run_launcher. intros E; discriminate E.
Qed.

Lemma ffmpeg_success env url dev v b p :
  on_success pipeline_up (_start_ffmpeg_pipeline env url dev v b p).
Proof.
  intros w w'. unfold _start_ffmpeg_pipeline.
  destruct w as [ps dp ap run cv lv st tr].
  destruct (exe_exists env Ffmpeg) eqn:Hx; cbn [negb].
  - run_launcher. rewrite Hx. cbv beta iota.
    destruct (exe_exists env Aplay) eqn:Ha.
    + launcher_case; intros E; try discriminate E.
      injection E as <-. run_launcher. launcher_case. reflexivity.
    + cbv beta iota. intros E; discriminate E.
  - run_launcher. intros E; discriminate E.
Qed.

Lemma mpg123_success env url dev v b p :
  on_success pipeline_up (_start_decoder_process env url dev v b p).
Proof.
  intros w w'. unfold _start_decoder_process.
  destruct w as [ps dp ap run cv lv st tr].
  destruct (is_mp3_like url).
  - destruct (exe_exists env Mpg123) eqn:Hm.
    + destruct (exe_exists env Sox && flt (fdiv (float_of_int v) (float_of_int 100)) f1_0)
        eqn:Hsox.
      * run_launcher. rewrite Hm. cbv beta iota.
        destruct (exe_exists env Sox) eqn:Hx; [|discriminate Hsox].
        cbv beta iota. destruct (exe_exists env Aplay) eqn:Ha.
        -- launcher_case; intros E; try discriminate E.
           all: injection E as <-; run_launcher; launcher_case; reflexivity.
        -- cbv beta iota. intros E; discriminate E.
      * run_launcher. rewrite Hm. cbv beta iota.
        destruct (exe_exists env Aplay) eqn:Ha.
        -- launcher_case; intros E; try discriminate E;
             injection E as <-; run_launcher; launcher_case; reflexivity.
        -- cbv beta iota. intros E; discriminate E.
    + run_launcher. rewrite Hm. cbv beta iota. intros E; discriminate E.
  - run_launcher. intros E; discriminate E.
Qed.

Lemma alive_kill_nth (k : nat) :
  forall n ps,
    match nth_error (kill_nth k ps) n with
    | Some q => proc_alive q
    | None => false
    end
    = match nth_error ps n with
      | Some q => proc_alive q
      | None => false
      end && negb (Nat.eqb k n).
Proof.
  induction k as [|k IH]; intros [|n] [|q ps]; cbn; rewrite ?andb_true_r, ?andb_false_r;
    try reflexivity.
  apply IH.
Qed.

Ltac failure_case :=
  repeat first
    [ rewrite alive_kill_nth
    | rewrite Nat.eqb_refl
    | rewrite nth_error_new
    | rewrite nth_error_app1 by (rewrite ?length_app; cbn [List.length]; lia)
    | progress cbn [proc_alive procs decoder_process decoder_aplay_process andb negb]
    | progress cbv beta iota ].

Lemma mpg123_failure env url dev v b p (w w' : world) :
  _start_decoder_process env url dev v b p w = (Val false, w') -> pipeline_up w' = false.
Proof.
  unfold _start_decoder_process.
  destruct w as [ps dp ap run cv lv st tr].
  destruct (is_mp3_like url).
  - destruct (exe_exists env Mpg123) eqn:Hm.
    + destruct (exe_exists env Sox && flt (fdiv (float_of_int v) (float_of_int 100)) f1_0)
        eqn:Hsox.
      * run_launcher. rewrite Hm. cbv beta iota.
        destruct (exe_exists env Sox) eqn:Hx; [|discriminate Hsox].
        cbv beta iota. destruct (exe_exists env Aplay) eqn:Ha.
        -- launcher_case; intros E; try discriminate E.
           all: injection E as <-; run_launcher; failure_case; reflexivity.
        -- cbv beta iota. intros E. injection E as <-. reflexivity.
      * run_launcher. rewrite Hm. cbv beta iota.
        destruct (exe_exists env Aplay) eqn:Ha.
        -- launcher_case; intros E; try discriminate E.
           all: injection E as <-; run_launcher; failure_case; reflexivity.
        -- cbv beta iota. intros E. injection E as <-. reflexivity.
    + run_launcher. rewrite Hm. cbv beta iota. intros E. injection E as <-. reflexivity.
  - run_launcher. intros E. injection E as <-. reflexivity.
Qed.

Lemma process_running_check_pipeline (w : world) :
  process_running_check w = (Val (pipeline_up w), w).
Proof.
  unfold process_running_check, pipeline_up, handle_running, poll, bind, get, ret.
  destruct (decoder_process w) as [h|]; [|reflexivity].
  destruct (is_alive w h); [|reflexivity].
  destruct (decoder_aplay_process w); reflexivity.
Qed.

(** X20: the answer of a relaunch is the state of the pipeline.  Called
    with a volume of 0..100, a buffer of 1..60 seconds and a playback cache
    of 0..10 seconds (the program passes 100 and sizes clamped to these
    ranges), the chain of the three backend launchers never raises; when it
    answers true the tracked decoding process is running, together with its
    output stage if it has one, and when it answers false no running
    pipeline is tracked.  The test with which the supervisor loop opens a
    pass, made on the state the chain leaves, therefore agrees with the
    answer. *)
Theorem launch_answer_is_pipeline_state (env : environment) (url dev : string)
    (v b p : Z) (w : world) :
  0 <= v <= 100 -> 1 <= b <= 60 -> 0 <= p <= 10 ->
  exists r w',
    launch_chain env url dev v b p w = (Val r, w')
    /\ pipeline_up w' = r
    /\ process_running_check w' = (Val r, w').
Proof.
  intros _ _ _.
  assert (H : exists r w',
            launch_chain env url dev v b p w = (Val r, w') /\ pipeline_up w' = r).
  { unfold launch_chain.
    destruct (vlc_launches env url dev v b p w) as [r1 [w1 [n1 [E1 _]]]].
    unfold bind at 1. rewrite E1. destruct r1.
    { exists true, w1. split; [reflexivity|]. exact (vlc_success _ _ _ _ _ _ _ _ E1). }
    destruct (ffmpeg_launches env url dev v b p w1) as [r2 [w2 [n2 [E2 _]]]].
    unfold bind at 1. rewrite E2. destruct r2.
    { exists true, w2. split; [reflexivity|]. exact (ffmpeg_success _ _ _ _ _ _ _ _ E2). }
    destruct (mpg123_launches env url dev v b p w2) as [r3 [w3 [n3 [E3 _]]]].
    unfold bind at 1. rewrite E3. destruct r3.
    - exists true, w3. split; [reflexivity|]. exact (mpg123_success _ _ _ _ _ _ _ _ E3).
    - exists false, w3. split; [reflexivity|]. exact (mpg123_failure _ _ _ _ _ _ _ _ E3). }
  destruct H as [r [w' [E Hup]]]. exists r, w'.
  split; [exact E|]. split; [exact Hup|].
  rewrite process_running_check_pipeline. now rewrite Hup.
Qed.

Lemma launch_answer_is_pipeline_state_witness :
  exists r w',
    launch_chain env_device_busy "http://x/stream.mp3" "plughw:1,0" 100 5 3 world_supervised
    = (Val r, w')
    /\ pipeline_up w' = r
    /\ process_running_check w' = (Val r, w').
Proof.
  apply (launch_answer_is_pipeline_state env_device_busy "http://x/stream.mp3"%string
           "plughw:1,0"%string 100 5 3 world_supervised); lia.
Defined.

(** ** How long a VLC launch waits *)

Lemma float_same_eq (x y : float) : float_same x y = true -> x = y.
Proof.
  destruct x as [s|s| |s m e], y as [t|t| |t n f]; cbn; try discriminate.
  - intros H. apply Bool.eqb_prop in H. now subst.
  - intros H. apply Bool.eqb_prop in H. now subst.
  - reflexivity.
  - intros H. apply andb_prop in H as [H He]. apply andb_prop in H as [Hs Hm].
    apply Bool.eqb_prop in Hs. apply Pos.eqb_eq in Hm. apply Z.eqb_eq in He. now subst.
Qed.

Lemma wait_facts_hold (total : Z) : 1 <= total <= 70 -> wait_facts total = true.
Proof.
  intros H. apply (forallb_range_Z wait_facts 1 70); [vm_compute; reflexivity | lia].
Qed.

Lemma buffer_wait_time_half (b p : Z) :
  1 <= b <= 60 -> 0 <= p <= 10 ->
  buffer_wait_time b p = half_of (Z.max 10 (b + p))
  /\ fle f5_0 (buffer_wait_time b p) = true
  /\ fle (buffer_wait_time b p) (float_of_int 35) = true.
Proof.
  intros Hb Hp. pose proof (wait_facts_hold (b + p) ltac:(lia)) as F.
  unfold wait_facts in F. apply andb_prop in F as [F H2]. apply andb_prop in F as [F H1].
  apply float_same_eq in F. unfold buffer_wait_time. cbv zeta.
  rewrite F. now repeat split.
Qed.

Lemma sleeps_cons (e : event) (t : list event) :
  sleeps (e :: t) = sleeps t ++ match e with Slept d => [d] | _ => [] end.
Proof.
  unfold sleeps. change (flat_map ?f (e :: t)) with (f e ++ flat_map f t).
  rewrite rev_app_distr. f_equal. now destruct e.
Qed.

Lemma vlc_volume_defined (v : Z) : 0 <= v <= 100 -> exists vol, vlc_volume v = Some vol.
Proof.
  intros H.
  pose (P := fun v => match vlc_volume v with Some _ => true | None => false end).
  assert (HP : P v = true).
  { apply (forallb_range_Z P 0 101); [vm_compute; reflexivity | lia]. }
  unfold P in HP. destruct (vlc_volume v) as [vol|]; [now exists vol | discriminate].
Qed.

(** X21: with VLC installed, one call of [_start_vlc_player] sleeps exactly
    once, for half of [max(10, buffer_secs + playback_cache_secs)] seconds,
    whether or not the player is still running afterwards: between 5 and 35
    seconds for every buffer of 1..60 and cache of 0..10 seconds. *)
Theorem vlc_launch_wait (env : environment) (url dev : string) (v b p : Z) (w : world) :
  exe_exists env Cvlc = true -> 0 <= v <= 100 -> 1 <= b <= 60 -> 0 <= p <= 10 ->
  sleeps (trace (snd (_start_vlc_player env url dev v b p w)))
  = sleeps (trace w) ++ [half_of (Z.max 10 (b + p))]
  /\ fle f5_0 (half_of (Z.max 10 (b + p))) = true
  /\ fle (half_of (Z.max 10 (b + p))) (float_of_int 35) = true.
Proof.
  intros Hx Hv Hb Hp.
  destruct (buffer_wait_time_half b p Hb Hp) as [Hw [H5 H35]].
  rewrite Hw in H5, H35. split; [|now split].
  destruct (vlc_volume_defined v Hv) as [vol Hvol].
  unfold buffer_wait_time in Hw. cbv zeta in Hw.
  unfold _start_vlc_player. rewrite Hx, Hvol, Hw. cbn [negb].
  destruct w as [ps dp ap run cv lv st tr].
  run_launcher. rewrite Hx. launcher_case; run_launcher;
    repeat (rewrite sleeps_cons; cbn beta iota); rewrite ?app_nil_r; reflexivity.
Qed.

Lemma vlc_launch_wait_witness :
  sleeps (trace (snd (_start_vlc_player env_all_ok "http://h/s" "default" 80 5 3 world_idle)))
  = sleeps (trace world_idle) ++ [half_of (Z.max 10 (5 + 3))]
  /\ fle f5_0 (half_of (Z.max 10 (5 + 3))) = true
  /\ fle (half_of (Z.max 10 (5 + 3))) (float_of_int 35) = true.
Proof.
  apply (vlc_launch_wait env_all_ok "http://h/s"%string "default"%string 80 5 3 world_idle);
    [reflexivity | lia | lia | lia].
Defined.
